(** * Native memory layer of the SR proof of concept: a shallow embedding

    The development follows [app/src/main/cpp/memory]:
    - [aligned_allocator.{h,cpp}]  : [AlignedAllocator]
    - [memory_tracker.{h,cpp}]     : [MemoryTracker] (the allocation ledger)
    - [memory_pool.{h,cpp}]        : [MemoryPool] and its private [BlockPool]

    Conventions.
    - [size_t], [uintptr_t] and [void*] are 64-bit words (LP64, the arm64
      Android ABI): a [Z] in the range [0, 2^64), every arithmetic result
      reduced by [wrap].  [nullptr] is the word [0].
    - [sizeof(AllocationHeader)] is 32 on that ABI (three 8-byte fields, one
      4-byte field, 4 bytes of tail padding).
    - The three classes share process-wide state (the allocator's static
      counters, the tracker singleton, the C heap, the Android log).  That
      state is the record [World]; every operation is a function on it.
    - [std::malloc] is an environment call: the answers it is going to give
      are a list held in the world, consumed one per call; when the list is
      empty the call fails.  Theorems quantify over that list.
    - The code is modelled as run by one thread; the mutexes and the memory
      orders of the atomics have no counterpart here.
    - Payload bytes are not part of the state, so [std::memset] on a payload
      is the identity on [World]. *)

From Stdlib Require Import ZArith Lia.
From stdpp Require Import gmap strings list fin_maps.

Local Open Scope Z_scope.

(* ===================================================================== *)
(** ** Machine words *)
(* ===================================================================== *)

Definition word_modulus : Z := 2 ^ 64.

(** Reduction of an arithmetic result to [size_t]. *)
Definition wrap (z : Z) : Z := z mod word_modulus.

(** [~x] on a [size_t]. *)
Definition wnot (x : Z) : Z := wrap (Z.lnot x).

Definition nullptr : Z := 0.

(* ===================================================================== *)
(** ** The Android log *)
(* ===================================================================== *)

Inductive Level := DEBUG | INFO | WARN | ERROR.

(** One constructor per format string of the functions modelled below;
    the arguments are the values printed. *)
Inductive Message :=
  (* aligned_allocator.cpp *)
  | InvalidAlignment (alignment : Z)
  | FailedToAllocate (total_size : Z)
  | Allocated (size alignment user raw : Z)
  | DoubleFreeDetected (ptr : Z)
  | CorruptionDetected (ptr magic : Z)
  | Deallocated (size ptr raw : Z)
  | AllocatorNewPeak (current : Z)
  | StatisticsReset
  (* memory_tracker.cpp *)
  | TrackedAllocation (ptr size : Z) (tag : string)
  | UntrackedPointer (ptr : Z)
  | TrackedDeallocation (ptr size : Z)
  | TrackerNewPeak (peak : Z)
  | DetectedLeaks (n : Z)
  | TrackerCleared
  (* memory_pool.cpp *)
  | PreallocateFailed (i block_size : Z)
  | BlockPoolCreated (block_size count initial_count alignment : Z)
  | BlockPoolExhausted (block_size : Z)
  | DoubleRelease (ptr : Z)
  | ReleaseNonPool (ptr : Z)
  | BlockPoolExpanded (added total : Z)
  | PoolInitializing
  | PoolInitialized
  | UnknownPointer (ptr : Z).

Record LogLine := { line_level : Level; line_tag : string; line_msg : Message }.

(* ===================================================================== *)
(** ** State of the tracker singleton (memory_tracker.h) *)
(* ===================================================================== *)

Record AllocationInfo := {
  info_size : Z;
  info_alignment : Z;
  info_tag : string;
  info_timestamp : Z;
  info_stack_depth : Z
}.

Record TrackerStatistics := {
  total_allocations : Z;
  total_deallocations : Z;
  current_allocated : Z;
  peak_allocated : Z;
  total_bytes_allocated : Z;
  total_bytes_deallocated : Z;
  allocations_by_tag : gmap string Z
}.

Definition TrackerStatistics_init : TrackerStatistics :=
  {| total_allocations := 0; total_deallocations := 0; current_allocated := 0;
     peak_allocated := 0; total_bytes_allocated := 0;
     total_bytes_deallocated := 0; allocations_by_tag := ∅ |}.

Record Tracker := {
  allocations_ : gmap Z AllocationInfo;
  stats_ : TrackerStatistics;
  enabled_ : bool
}.

Definition Tracker_init : Tracker :=
  {| allocations_ := ∅; stats_ := TrackerStatistics_init; enabled_ := true |}.

(* ===================================================================== *)
(** ** State of the allocator and of the C heap (aligned_allocator.h) *)
(* ===================================================================== *)

Record AllocationHeader := {
  raw_ptr : Z;
  size : Z;
  alignment : Z;
  magic : Z
}.

Definition MAGIC_NUMBER : Z := 0xDEADBEEF.
Definition FREED_MAGIC : Z := 0xFEEDFACE.
Definition header_size : Z := 32.

(** The C heap as the allocator sees it: what [malloc] is going to answer,
    the raw blocks handed out and not yet given to [free], and the headers
    that can be read, keyed by the address they were written at: those
    written into blocks that have not been given to [free] since. *)
Record Heap := {
  malloc_answers : list Z;
  live_raw : gset Z;
  headers : gmap Z AllocationHeader
}.

(** The four static atomics of [AlignedAllocator]. *)
Record Counters := {
  total_allocated_ : Z;
  allocation_count_ : Z;
  peak_allocated_ : Z;
  total_deallocated_ : Z
}.

(** Entry points of the tracker, recorded in call order.  The list is a
    history variable: no operation reads it. *)
Inductive TrackerCall :=
  | CallTrackAllocation (ptr : Z)
  | CallTrackDeallocation (ptr : Z).

Record World := {
  heap : Heap;
  counters : Counters;
  tracker : Tracker;
  clock : Z;                     (* std::chrono::steady_clock *)
  log : list LogLine;            (* newest line first *)
  calls : list TrackerCall       (* newest call first *)
}.

Definition World_init (answers : list Z) : World :=
  {| heap := {| malloc_answers := answers; live_raw := ∅; headers := ∅ |};
     counters := {| total_allocated_ := 0; allocation_count_ := 0;
                    peak_allocated_ := 0; total_deallocated_ := 0 |};
     tracker := Tracker_init;
     clock := 0;
     log := [];
     calls := [] |}.

Definition set_heap (h : Heap) (w : World) : World :=
  {| heap := h; counters := counters w; tracker := tracker w;
     clock := clock w; log := log w; calls := calls w |}.

Definition set_counters (c : Counters) (w : World) : World :=
  {| heap := heap w; counters := c; tracker := tracker w;
     clock := clock w; log := log w; calls := calls w |}.

Definition set_tracker (t : Tracker) (w : World) : World :=
  {| heap := heap w; counters := counters w; tracker := t;
     clock := clock w; log := log w; calls := calls w |}.

Definition set_clock (c : Z) (w : World) : World :=
  {| heap := heap w; counters := counters w; tracker := tracker w;
     clock := c; log := log w; calls := calls w |}.

Definition set_log (l : list LogLine) (w : World) : World :=
  {| heap := heap w; counters := counters w; tracker := tracker w;
     clock := clock w; log := l; calls := calls w |}.

Definition set_calls (l : list TrackerCall) (w : World) : World :=
  {| heap := heap w; counters := counters w; tracker := tracker w;
     clock := clock w; log := log w; calls := l |}.

(** [__android_log_print(level, tag, ...)]. *)
Definition emit (lv : Level) (tag : string) (m : Message) (w : World) : World :=
  set_log ({| line_level := lv; line_tag := tag; line_msg := m |} :: log w) w.

(** Entering a tracker entry point. *)
Definition note (c : TrackerCall) (w : World) : World :=
  set_calls (c :: calls w) w.

(** How a call that may run into [std::abort] ends.  [Undefined] stands for
    a read of memory the program never wrote. *)
Inductive Outcome (A : Type) :=
  | Done (a : A) (w : World)
  | Aborted (w : World)
  | Undefined.
Arguments Done {A} a w.
Arguments Aborted {A} w.
Arguments Undefined {A}.

(* ===================================================================== *)
(** ** MemoryTracker (memory_tracker.cpp) *)
(* ===================================================================== *)

Module MemoryTracker.

Definition LOG_TAG : string := "MemoryTracker".

Definition set_enabled (enabled : bool) (w : World) : World :=
  set_tracker {| allocations_ := allocations_ (tracker w);
                 stats_ := stats_ (tracker w);
                 enabled_ := enabled |} w.

Definition is_enabled (w : World) : bool := enabled_ (tracker w).

Definition update_peak_memory (w : World) : World :=
  let s := stats_ (tracker w) in
  if peak_allocated s <? current_allocated s then
    let s' := {| total_allocations := total_allocations s;
                 total_deallocations := total_deallocations s;
                 current_allocated := current_allocated s;
                 peak_allocated := current_allocated s;
                 total_bytes_allocated := total_bytes_allocated s;
                 total_bytes_deallocated := total_bytes_deallocated s;
                 allocations_by_tag := allocations_by_tag s |} in
    emit DEBUG LOG_TAG (TrackerNewPeak (current_allocated s))
      (set_tracker {| allocations_ := allocations_ (tracker w);
                      stats_ := s';
                      enabled_ := enabled_ (tracker w) |} w)
  else w.

Definition track_allocation (ptr size alignment : Z) (tag : string)
    (w0 : World) : World :=
  let w := note (CallTrackAllocation ptr) w0 in
  if negb (enabled_ (tracker w)) || (ptr =? nullptr) then w
  else
    let info := {| info_size := size; info_alignment := alignment;
                   info_tag := tag; info_timestamp := clock w;
                   info_stack_depth := 0 |} in
    let w := set_clock (clock w + 1) w in
    let s := stats_ (tracker w) in
    let by_tag :=
      if String.eqb tag "" then allocations_by_tag s
      else <[tag := wrap (default 0 (allocations_by_tag s !! tag) + size)]>
             (allocations_by_tag s) in
    let s' := {| total_allocations := wrap (total_allocations s + 1);
                 total_deallocations := total_deallocations s;
                 current_allocated := wrap (current_allocated s + size);
                 peak_allocated := peak_allocated s;
                 total_bytes_allocated := wrap (total_bytes_allocated s + size);
                 total_bytes_deallocated := total_bytes_deallocated s;
                 allocations_by_tag := by_tag |} in
    let w := set_tracker {| allocations_ := <[ptr := info]> (allocations_ (tracker w));
                            stats_ := s';
                            enabled_ := enabled_ (tracker w) |} w in
    let w := update_peak_memory w in
    emit DEBUG LOG_TAG (TrackedAllocation ptr size tag) w.

(** The statistics after the entry [(size, tag)] left the ledger. *)
Definition stats_after_deallocation (size : Z) (tag : string)
    (s : TrackerStatistics) : TrackerStatistics :=
  let by_tag :=
    if String.eqb tag "" then allocations_by_tag s
    else
      let m := <[tag := wrap (default 0 (allocations_by_tag s !! tag) - size)]>
                 (allocations_by_tag s) in
      if default 0 (m !! tag) =? 0 then delete tag m else m in
  {| total_allocations := total_allocations s;
     total_deallocations := wrap (total_deallocations s + 1);
     current_allocated := wrap (current_allocated s - size);
     peak_allocated := peak_allocated s;
     total_bytes_allocated := total_bytes_allocated s;
     total_bytes_deallocated := wrap (total_bytes_deallocated s + size);
     allocations_by_tag := by_tag |}.

Definition track_deallocation (ptr : Z) (w0 : World) : World :=
  let w := note (CallTrackDeallocation ptr) w0 in
  if negb (enabled_ (tracker w)) || (ptr =? nullptr) then w
  else
    match allocations_ (tracker w) !! ptr with
    | None => emit WARN LOG_TAG (UntrackedPointer ptr) w
    | Some info =>
        let size := info_size info in
        let tag := info_tag info in
        let w := set_tracker
                   {| allocations_ := delete ptr (allocations_ (tracker w));
                      stats_ := stats_after_deallocation size tag (stats_ (tracker w));
                      enabled_ := enabled_ (tracker w) |} w in
        emit DEBUG LOG_TAG (TrackedDeallocation ptr size) w
    end.

Definition get_statistics (w : World) : TrackerStatistics := stats_ (tracker w).

(** The order of the result is that of the hash table; here, that of
    [map_to_list]. *)
Definition detect_leaks (w : World) : list Z * World :=
  let leaks := (map_to_list (allocations_ (tracker w))).*1 in
  (leaks,
   if decide (leaks = []) then w
   else emit WARN LOG_TAG (DetectedLeaks (Z.of_nat (length leaks))) w).

Definition clear (w : World) : World :=
  emit DEBUG LOG_TAG TrackerCleared
    (set_tracker {| allocations_ := ∅;
                    stats_ := TrackerStatistics_init;
                    enabled_ := enabled_ (tracker w) |} w).

End MemoryTracker.

(* ===================================================================== *)
(** ** AlignedAllocator (aligned_allocator.{h,cpp}) *)
(* ===================================================================== *)

Module AlignedAllocator.

Definition LOG_TAG : string := "AlignedAllocator".
Definition CACHE_LINE : Z := 64.

(** [std::malloc]: the next answer of the environment; a non-null answer
    becomes a live raw block. *)
Definition malloc (total_size : Z) (w : World) : Z * World :=
  match malloc_answers (heap w) with
  | [] => (nullptr, w)
  | a :: rest =>
      (a, set_heap {| malloc_answers := rest;
                      live_raw := if a =? nullptr then live_raw (heap w)
                                  else {[a]} ∪ live_raw (heap w);
                      headers := headers (heap w) |} w)
  end.

(** [std::free]: the raw block is released, and with it the header stored
    inside it, that is the header that names [raw] as its block.  Nothing
    can be read at its address afterwards: [deallocate] finds no header
    there. *)
Definition free (raw : Z) (w : World) : World :=
  set_heap {| malloc_answers := malloc_answers (heap w);
              live_raw := live_raw (heap w) ∖ {[raw]};
              headers := filter (fun kv => raw_ptr kv.2 <> raw) (headers (heap w)) |} w.

Definition store_header (at_ : Z) (h : AllocationHeader) (w : World) : World :=
  set_heap {| malloc_answers := malloc_answers (heap w);
              live_raw := live_raw (heap w);
              headers := <[at_ := h]> (headers (heap w)) |} w.

(** [(addr + alignment - 1) & ~(alignment - 1)] *)
Definition align_up (addr alignment : Z) : Z :=
  Z.land (wrap (addr + alignment - 1)) (wnot (wrap (alignment - 1))).

(** The compare-and-exchange loop, run without interference: the peak
    becomes [current] when [current] is above it. *)
Definition update_peak_memory (current : Z) (w : World) : World :=
  let c := counters w in
  if peak_allocated_ c <? current then
    emit DEBUG LOG_TAG (AllocatorNewPeak current)
      (set_counters {| total_allocated_ := total_allocated_ c;
                       allocation_count_ := allocation_count_ c;
                       peak_allocated_ := current;
                       total_deallocated_ := total_deallocated_ c |} w)
  else w.

(** [alignment == 0 || (alignment & (alignment - 1)) != 0] *)
Definition invalid_alignment (alignment : Z) : bool :=
  (alignment =? 0) || negb (Z.land alignment (wrap (alignment - 1)) =? 0).

Definition allocate (size alignment : Z) (w : World) : Z * World :=
  if invalid_alignment alignment then
    (nullptr, emit ERROR LOG_TAG (InvalidAlignment alignment) w)
  else
    let alignment := if alignment <? header_size then header_size else alignment in
    let total_size := wrap (size + alignment + header_size) in
    let '(raw, w) := malloc total_size w in
    if raw =? nullptr then
      (nullptr, emit ERROR LOG_TAG (FailedToAllocate total_size) w)
    else
      let raw_addr := raw in
      let user_addr := align_up (wrap (raw_addr + header_size)) alignment in
      let w := store_header (wrap (user_addr - header_size))
                 {| raw_ptr := raw; size := size; alignment := alignment;
                    magic := MAGIC_NUMBER |} w in
      let prev_total := total_allocated_ (counters w) in
      let w := set_counters
                 {| total_allocated_ := wrap (prev_total + size);
                    allocation_count_ := wrap (allocation_count_ (counters w) + 1);
                    peak_allocated_ := peak_allocated_ (counters w);
                    total_deallocated_ := total_deallocated_ (counters w) |} w in
      let w := update_peak_memory (wrap (prev_total + size)) w in
      let w := MemoryTracker.track_allocation user_addr size alignment
                 "AlignedAllocator" w in
      let w := emit DEBUG LOG_TAG (Allocated size alignment user_addr raw) w in
      (user_addr, w).

Definition deallocate (ptr : Z) (w : World) : Outcome unit :=
  if ptr =? nullptr then Done tt w
  else
    let at_ := wrap (ptr - header_size) in
    match headers (heap w) !! at_ with
    | None => Undefined
    | Some header =>
        if negb (magic header =? MAGIC_NUMBER) then
          Aborted
            (if magic header =? FREED_MAGIC
             then emit ERROR LOG_TAG (DoubleFreeDetected ptr) w
             else emit ERROR LOG_TAG (CorruptionDetected ptr (magic header)) w)
        else
          let c := counters w in
          let w := set_counters
                     {| total_allocated_ := wrap (total_allocated_ c - size header);
                        allocation_count_ := wrap (allocation_count_ c - 1);
                        peak_allocated_ := peak_allocated_ c;
                        total_deallocated_ := wrap (total_deallocated_ c + size header) |} w in
          let w := MemoryTracker.track_deallocation ptr w in
          let w := emit DEBUG LOG_TAG (Deallocated (size header) ptr (raw_ptr header)) w in
          let raw := raw_ptr header in
          let w := store_header at_
                     {| raw_ptr := raw_ptr header; size := size header;
                        alignment := alignment header; magic := FREED_MAGIC |} w in
          Done tt (free raw w)
    end.

Definition get_total_allocated (w : World) : Z := total_allocated_ (counters w).
Definition get_allocation_count (w : World) : Z := allocation_count_ (counters w).
Definition get_peak_allocated (w : World) : Z := peak_allocated_ (counters w).

Definition reset_statistics (w : World) : World :=
  emit DEBUG LOG_TAG StatisticsReset
    (set_counters {| total_allocated_ := 0; allocation_count_ := 0;
                     peak_allocated_ := 0; total_deallocated_ := 0 |} w).

End AlignedAllocator.

(* ===================================================================== *)
(** ** MemoryPool::BlockPool (memory_pool.{h,cpp}) *)
(* ===================================================================== *)

Module BlockPool.

Definition LOG_TAG : string := "MemoryPool".

(** [Block]: the payload pointer (owned) and the lease flag. *)
Record Block := { data : Z; in_use : bool }.

(** [blocks_] is a vector of heap-allocated [Block]s that only ever grows,
    so a [Block*] held in [free_list_] is the position of the block in
    [blocks_]; the flag it points to is the flag stored there.
    [free_list_] is the queue, front first. *)
Record t := {
  block_size_ : Z;
  alignment_ : Z;
  allow_expansion_ : bool;
  blocks_ : list Block;
  free_list_ : list nat
}.

Definition set_blocks (bs : list Block) (fl : list nat) (bp : t) : t :=
  {| block_size_ := block_size_ bp; alignment_ := alignment_ bp;
     allow_expansion_ := allow_expansion_ bp;
     blocks_ := bs; free_list_ := fl |}.

(** [free_list_.push(block.get()); blocks_.push_back(std::move(block));]
    for a fresh [Block(ptr)]. *)
Definition push_block (ptr : Z) (bp : t) : t :=
  set_blocks (blocks_ bp ++ [{| data := ptr; in_use := false |}])
             (free_list_ bp ++ [length (blocks_ bp)]) bp.

(** The constructor's loop, [n] iterations left, at index [i]. *)
Fixpoint preallocate (n : nat) (i : Z) (bp : t) (w : World) : t * World :=
  match n with
  | O => (bp, w)
  | S n' =>
      let '(ptr, w) := AlignedAllocator.allocate (block_size_ bp) (alignment_ bp) w in
      if ptr =? nullptr then
        (bp, emit WARN LOG_TAG (PreallocateFailed i (block_size_ bp)) w)
      else preallocate n' (i + 1) (push_block ptr bp) w
  end.

Definition make (block_size initial_count alignment : Z) (allow_expansion : bool)
    (w : World) : t * World :=
  let bp := {| block_size_ := block_size; alignment_ := alignment;
               allow_expansion_ := allow_expansion;
               blocks_ := []; free_list_ := [] |} in
  let '(bp, w) := preallocate (Z.to_nat initial_count) 0 bp w in
  (bp, emit INFO LOG_TAG
         (BlockPoolCreated block_size (Z.of_nat (length (blocks_ bp)))
            initial_count alignment) w).

(** The loop of [expand_pool], [n] iterations left. *)
Fixpoint expand_loop (n : nat) (allocated : Z) (bp : t) (w : World)
    : Z * t * World :=
  match n with
  | O => (allocated, bp, w)
  | S n' =>
      let '(ptr, w) := AlignedAllocator.allocate (block_size_ bp) (alignment_ bp) w in
      if ptr =? nullptr then (allocated, bp, w)
      else expand_loop n' (allocated + 1) (push_block ptr bp) w
  end.

Definition expand_pool (bp : t) (w : World) : t * World :=
  let expansion_count := Nat.max 1 (length (blocks_ bp) / 4) in
  let '(allocated, bp, w) := expand_loop expansion_count 0 bp w in
  (bp,
   if 0 <? allocated then
     emit INFO LOG_TAG
       (BlockPoolExpanded allocated (Z.of_nat (length (blocks_ bp)))) w
   else w).

(** [front(); pop(); block->in_use = true; return block->data.get()] on a
    free-list whose front is [i]. *)
Definition take (i : nat) (rest : list nat) (bp : t) : Z * t :=
  (from_option data nullptr (blocks_ bp !! i),
   set_blocks (alter (fun b => {| data := data b; in_use := true |}) i (blocks_ bp))
              rest bp).

Definition acquire (bp : t) (w : World) : Z * t * World :=
  match free_list_ bp with
  | i :: rest => let '(p, bp) := take i rest bp in (p, bp, w)
  | [] =>
      let '(bp, w) := if allow_expansion_ bp then expand_pool bp w else (bp, w) in
      match free_list_ bp with
      | [] => (nullptr, bp, emit WARN LOG_TAG (BlockPoolExhausted (block_size_ bp)) w)
      | i :: rest => let '(p, bp) := take i rest bp in (p, bp, w)
      end
  end.

(** The scan of [release] and [owns]: the first block whose payload
    pointer is [ptr], with its position. *)
Definition find_block (ptr : Z) (bp : t) : option (nat * Block) :=
  list_find (fun b => data b = ptr) (blocks_ bp).

Definition release (ptr : Z) (bp : t) (w : World) : t * World :=
  if ptr =? nullptr then (bp, w)
  else
    match find_block ptr bp with
    | Some (i, b) =>
        if negb (in_use b) then (bp, emit WARN LOG_TAG (DoubleRelease ptr) w)
        else
          (set_blocks (<[i := {| data := data b; in_use := false |}]> (blocks_ bp))
                      (free_list_ bp ++ [i]) bp,
           w)
    | None => (bp, emit ERROR LOG_TAG (ReleaseNonPool ptr) w)
    end.

Definition owns (ptr : Z) (bp : t) : bool :=
  if ptr =? nullptr then false
  else match find_block ptr bp with Some _ => true | None => false end.

Definition get_block_size (bp : t) : Z := block_size_ bp.
Definition get_free_count (bp : t) : nat := length (free_list_ bp).
Definition get_total_count (bp : t) : nat := length (blocks_ bp).

(** The count the destructor makes: blocks whose flag is set. *)
Definition in_use_count (bp : t) : nat :=
  length (filter (fun b => in_use b = true) (blocks_ bp)).

(** The operations of a pool, and runs of them. *)
Inductive Op := Acquire | Release (ptr : Z) | ExpandPool.

Definition step (o : Op) (bp : t) (w : World) : t * World :=
  match o with
  | Acquire => let '(_, bp, w) := acquire bp w in (bp, w)
  | Release ptr => release ptr bp w
  | ExpandPool => expand_pool bp w
  end.

Fixpoint run (ops : list Op) (bp : t) (w : World) : t * World :=
  match ops with
  | [] => (bp, w)
  | o :: ops => let '(bp, w) := step o bp w in run ops bp w
  end.

End BlockPool.

(* ===================================================================== *)
(** ** MemoryPool (memory_pool.{h,cpp}) *)
(* ===================================================================== *)

Module MemoryPool.

Definition LOG_TAG : string := "MemoryPool".

Record Config := {
  small_block_size : Z;
  medium_block_size : Z;
  large_block_size : Z;
  small_pool_count : Z;
  medium_pool_count : Z;
  large_pool_count : Z;
  alignment : Z;
  enable_statistics : bool;
  zero_on_dealloc : bool;
  allow_expansion : bool
}.

(** [Config()] *)
Definition Config_default : Config :=
  {| small_block_size := 8 * 1024;
     medium_block_size := 64 * 1024;
     large_block_size := 1024 * 1024;
     small_pool_count := 128;
     medium_pool_count := 32;
     large_pool_count := 8;
     alignment := AlignedAllocator.CACHE_LINE;
     enable_statistics := true;
     zero_on_dealloc := true;
     allow_expansion := true |}.

(** [hit_rate] is a [double] in the source; here the exact quotient, as
    numerator and denominator ([(0, 1)] is [0.0]). *)
Record Statistics := {
  total_allocated : Z;
  total_deallocated : Z;
  current_usage : Z;
  peak_usage : Z;
  allocation_count : Z;
  deallocation_count : Z;
  cache_hits : Z;
  cache_misses : Z;
  hit_rate : Z * Z;
  small_pool_hits : Z;
  medium_pool_hits : Z;
  large_pool_hits : Z;
  direct_allocations : Z
}.

(** [Statistics()] *)
Definition Statistics_init : Statistics :=
  {| total_allocated := 0; total_deallocated := 0; current_usage := 0;
     peak_usage := 0; allocation_count := 0; deallocation_count := 0;
     cache_hits := 0; cache_misses := 0; hit_rate := (0, 1);
     small_pool_hits := 0; medium_pool_hits := 0; large_pool_hits := 0;
     direct_allocations := 0 |}.

Record DirectAllocation := { ptr : Z; size : Z }.

(** The three tiers; a [BlockPool*] returned by [select_pool] is one of
    them or null. *)
Inductive Tier := Small | Medium | Large.

Record t := {
  config_ : Config;
  small_pool_ : BlockPool.t;
  medium_pool_ : BlockPool.t;
  large_pool_ : BlockPool.t;
  stats_ : Statistics;
  direct_allocations_ : gmap Z DirectAllocation
}.

Definition pool_of (tier : Tier) (mp : t) : BlockPool.t :=
  match tier with
  | Small => small_pool_ mp
  | Medium => medium_pool_ mp
  | Large => large_pool_ mp
  end.

Definition block_size_of (tier : Tier) (c : Config) : Z :=
  match tier with
  | Small => small_block_size c
  | Medium => medium_block_size c
  | Large => large_block_size c
  end.

Definition set_pool (tier : Tier) (bp : BlockPool.t) (mp : t) : t :=
  {| config_ := config_ mp;
     small_pool_ := match tier with Small => bp | _ => small_pool_ mp end;
     medium_pool_ := match tier with Medium => bp | _ => medium_pool_ mp end;
     large_pool_ := match tier with Large => bp | _ => large_pool_ mp end;
     stats_ := stats_ mp;
     direct_allocations_ := direct_allocations_ mp |}.

Definition set_stats (s : Statistics) (mp : t) : t :=
  {| config_ := config_ mp; small_pool_ := small_pool_ mp;
     medium_pool_ := medium_pool_ mp; large_pool_ := large_pool_ mp;
     stats_ := s; direct_allocations_ := direct_allocations_ mp |}.

Definition set_direct (d : gmap Z DirectAllocation) (mp : t) : t :=
  {| config_ := config_ mp; small_pool_ := small_pool_ mp;
     medium_pool_ := medium_pool_ mp; large_pool_ := large_pool_ mp;
     stats_ := stats_ mp; direct_allocations_ := d |}.

(** The constructor. *)
Definition make (config : Config) (w : World) : t * World :=
  let w := emit INFO LOG_TAG PoolInitializing w in
  let '(small, w) := BlockPool.make (small_block_size config) (small_pool_count config)
                       (alignment config) (allow_expansion config) w in
  let '(medium, w) := BlockPool.make (medium_block_size config) (medium_pool_count config)
                        (alignment config) (allow_expansion config) w in
  let '(large, w) := BlockPool.make (large_block_size config) (large_pool_count config)
                       (alignment config) (allow_expansion config) w in
  ({| config_ := config; small_pool_ := small; medium_pool_ := medium;
      large_pool_ := large; stats_ := Statistics_init;
      direct_allocations_ := ∅ |},
   emit INFO LOG_TAG PoolInitialized w).

Definition select_pool (c : Config) (size : Z) : option Tier :=
  if size <=? small_block_size c then Some Small
  else if size <=? medium_block_size c then Some Medium
  else if size <=? large_block_size c then Some Large
  else None.

Definition update_peak_usage (s : Statistics) : Statistics :=
  if peak_usage s <? current_usage s then
    {| total_allocated := total_allocated s;
       total_deallocated := total_deallocated s;
       current_usage := current_usage s;
       peak_usage := current_usage s;
       allocation_count := allocation_count s;
       deallocation_count := deallocation_count s;
       cache_hits := cache_hits s;
       cache_misses := cache_misses s;
       hit_rate := hit_rate s;
       small_pool_hits := small_pool_hits s;
       medium_pool_hits := medium_pool_hits s;
       large_pool_hits := large_pool_hits s;
       direct_allocations := direct_allocations s |}
  else s.

Definition update_statistics (size : Z) (is_allocation is_pool_hit : bool)
    (mp : t) : t :=
  if negb (enable_statistics (config_ mp)) then mp
  else
    let s := stats_ mp in
    if is_allocation then
      set_stats
        (update_peak_usage
           {| total_allocated := wrap (total_allocated s + size);
              total_deallocated := total_deallocated s;
              current_usage := wrap (current_usage s + size);
              peak_usage := peak_usage s;
              allocation_count := wrap (allocation_count s + 1);
              deallocation_count := deallocation_count s;
              cache_hits := if is_pool_hit then wrap (cache_hits s + 1)
                            else cache_hits s;
              cache_misses := if is_pool_hit then cache_misses s
                              else wrap (cache_misses s + 1);
              hit_rate := hit_rate s;
              small_pool_hits := small_pool_hits s;
              medium_pool_hits := medium_pool_hits s;
              large_pool_hits := large_pool_hits s;
              direct_allocations := direct_allocations s |}) mp
    else
      set_stats
        {| total_allocated := total_allocated s;
           total_deallocated := wrap (total_deallocated s + size);
           current_usage := wrap (current_usage s - size);
           peak_usage := peak_usage s;
           allocation_count := allocation_count s;
           deallocation_count := wrap (deallocation_count s + 1);
           cache_hits := cache_hits s;
           cache_misses := cache_misses s;
           hit_rate := hit_rate s;
           small_pool_hits := small_pool_hits s;
           medium_pool_hits := medium_pool_hits s;
           large_pool_hits := large_pool_hits s;
           direct_allocations := direct_allocations s |} mp.

(** [stats_.small_pool_hits++] and its two siblings. *)
Definition count_hit (tier : Tier) (mp : t) : t :=
  let s := stats_ mp in
  set_stats
    {| total_allocated := total_allocated s;
       total_deallocated := total_deallocated s;
       current_usage := current_usage s;
       peak_usage := peak_usage s;
       allocation_count := allocation_count s;
       deallocation_count := deallocation_count s;
       cache_hits := cache_hits s;
       cache_misses := cache_misses s;
       hit_rate := hit_rate s;
       small_pool_hits := match tier with Small => wrap (small_pool_hits s + 1)
                                        | _ => small_pool_hits s end;
       medium_pool_hits := match tier with Medium => wrap (medium_pool_hits s + 1)
                                         | _ => medium_pool_hits s end;
       large_pool_hits := match tier with Large => wrap (large_pool_hits s + 1)
                                        | _ => large_pool_hits s end;
       direct_allocations := direct_allocations s |} mp.

(** [stats_.direct_allocations++] *)
Definition count_direct (mp : t) : t :=
  let s := stats_ mp in
  set_stats
    {| total_allocated := total_allocated s;
       total_deallocated := total_deallocated s;
       current_usage := current_usage s;
       peak_usage := peak_usage s;
       allocation_count := allocation_count s;
       deallocation_count := deallocation_count s;
       cache_hits := cache_hits s;
       cache_misses := cache_misses s;
       hit_rate := hit_rate s;
       small_pool_hits := small_pool_hits s;
       medium_pool_hits := medium_pool_hits s;
       large_pool_hits := large_pool_hits s;
       direct_allocations := wrap (direct_allocations s + 1) |} mp.

(** The first half of [allocate]: the selected tier, if any, is asked for
    a block, and a hit is counted for it. *)
Definition allocate_from_tier (size : Z) (mp : t) (w : World) : Z * t * World :=
  match select_pool (config_ mp) size with
  | Some tier =>
      let '(p, bp, w) := BlockPool.acquire (pool_of tier mp) w in
      let mp := set_pool tier bp mp in
      (p, (if p =? nullptr then mp else count_hit tier mp), w)
  | None => (nullptr, mp, w)
  end.

(** The fallback of [allocate], entered when the first half gave null. *)
Definition allocate_direct (size : Z) (mp : t) (w : World) : Z * t * World :=
  let '(p, w) := AlignedAllocator.allocate size (alignment (config_ mp)) w in
  if p =? nullptr then (p, mp, w)
  else
    (p,
     count_direct
       (set_direct (<[p := {| ptr := p; size := size |}]> (direct_allocations_ mp)) mp),
     w).

Definition allocate (size : Z) (mp : t) (w : World) : Z * t * World :=
  if size =? 0 then (nullptr, mp, w)
  else
    let '(p, mp, w) := allocate_from_tier size mp w in
    let is_pool_hit := negb (p =? nullptr) in
    let '(p, mp, w) :=
      if p =? nullptr then allocate_direct size mp w else (p, mp, w) in
    if p =? nullptr then (p, mp, w)
    else
      (* std::memset(ptr, 0, size) when zero_on_dealloc *)
      let mp := update_statistics size true is_pool_hit mp in
      let w := MemoryTracker.track_allocation p size (alignment (config_ mp))
                 "MemoryPool" w in
      (p, mp, w).

(** One tier branch of [deallocate]. *)
Definition release_to_tier (tier : Tier) (p : Z) (mp : t) (w : World) : t * World :=
  (* std::memset(ptr, 0, block size) when zero_on_dealloc *)
  let '(bp, w) := BlockPool.release p (pool_of tier mp) w in
  (update_statistics (block_size_of tier (config_ mp)) false true
     (set_pool tier bp mp), w).

(** [deallocate] up to, and not including, its last statement. *)
Definition deallocate_route (p : Z) (mp : t) (w : World) : Outcome t :=
  if BlockPool.owns p (small_pool_ mp) then
    let '(mp, w) := release_to_tier Small p mp w in Done mp w
  else if BlockPool.owns p (medium_pool_ mp) then
    let '(mp, w) := release_to_tier Medium p mp w in Done mp w
  else if BlockPool.owns p (large_pool_ mp) then
    let '(mp, w) := release_to_tier Large p mp w in Done mp w
  else
    match direct_allocations_ mp !! p with
    | Some d =>
        let size := size d in
        let mp := set_direct (delete p (direct_allocations_ mp)) mp in
        match AlignedAllocator.deallocate p w with
        | Done _ w => Done (update_statistics size false false mp) w
        | Aborted w => Aborted w
        | Undefined => Undefined
        end
    | None => Done mp (emit ERROR LOG_TAG (UnknownPointer p) w)
    end.

Definition deallocate (p : Z) (mp : t) (w : World) : Outcome t :=
  if p =? nullptr then Done mp w
  else
    match deallocate_route p mp w with
    | Done mp w => Done mp (MemoryTracker.track_deallocation p w)
    | Aborted w => Aborted w
    | Undefined => Undefined
    end.

Definition get_statistics (mp : t) : Statistics :=
  let s := stats_ mp in
  let total_requests := wrap (cache_hits s + cache_misses s) in
  {| total_allocated := total_allocated s;
     total_deallocated := total_deallocated s;
     current_usage := current_usage s;
     peak_usage := peak_usage s;
     allocation_count := allocation_count s;
     deallocation_count := deallocation_count s;
     cache_hits := cache_hits s;
     cache_misses := cache_misses s;
     hit_rate := if 0 <? total_requests then (cache_hits s, total_requests)
                 else hit_rate s;
     small_pool_hits := small_pool_hits s;
     medium_pool_hits := medium_pool_hits s;
     large_pool_hits := large_pool_hits s;
     direct_allocations := direct_allocations s |}.

End MemoryPool.

(* ===================================================================== *)
(** * Invariants, runs and concrete scenarios used by the properties *)
(* ===================================================================== *)

(** The world after one [allocate(100, 64)] answered by [malloc] at
    [0x10000]; the pointer returned is [65600]. *)
Definition one_allocation : World :=
  snd (AlignedAllocator.allocate 100 64 (World_init [65536])).

Definition one_allocation_freed : World :=
  match AlignedAllocator.deallocate 65600 one_allocation with
  | Done _ w => w
  | _ => one_allocation
  end.




(** What the pool code maintains: the free-list holds a position at most
    once, each position in it is that of a block of [blocks_] whose flag is
    clear, and the free and leased counts add up to the number of blocks. *)
Definition free_list_sound (bp : BlockPool.t) : Prop :=
  NoDup (BlockPool.free_list_ bp)
  /\ (forall i, i ∈ BlockPool.free_list_ bp ->
        exists b, BlockPool.blocks_ bp !! i = Some b /\ BlockPool.in_use b = false)
  /\ (BlockPool.get_free_count bp + BlockPool.in_use_count bp
      = BlockPool.get_total_count bp)%nat.

(** The contribution of one block to the leased count. *)
Definition flag_weight (b : BlockPool.Block) : nat :=
  if BlockPool.in_use b then 1%nat else 0%nat.

(** The order in which [select_pool] tests the tiers. *)
Definition tier_rank (tier : MemoryPool.Tier) : nat :=
  match tier with
  | MemoryPool.Small => 0
  | MemoryPool.Medium => 1
  | MemoryPool.Large => 2
  end.

(** The hit counter of a tier. *)
Definition hits_of (tier : MemoryPool.Tier) (s : MemoryPool.Statistics) : Z :=
  match tier with
  | MemoryPool.Small => MemoryPool.small_pool_hits s
  | MemoryPool.Medium => MemoryPool.medium_pool_hits s
  | MemoryPool.Large => MemoryPool.large_pool_hits s
  end.

(** The fields of [Statistics] that only [update_statistics] writes. *)
Definition usage_fields (s : MemoryPool.Statistics) : list Z :=
  [MemoryPool.total_allocated s; MemoryPool.total_deallocated s;
   MemoryPool.current_usage s; MemoryPool.peak_usage s;
   MemoryPool.allocation_count s; MemoryPool.deallocation_count s;
   MemoryPool.cache_hits s; MemoryPool.cache_misses s].

(** How often [track_deallocation(p)] was entered, in a call history. *)
Fixpoint deallocation_calls (p : Z) (l : list TrackerCall) : nat :=
  match l with
  | [] => 0
  | CallTrackDeallocation q :: l =>
      ((if Z.eqb q p then 1 else 0) + deallocation_calls p l)%nat
  | CallTrackAllocation _ :: l => deallocation_calls p l
  end.

(** The public operations of the tracker, and runs of them. *)
Inductive TrackerOp :=
  | OpTrackAllocation (ptr size alignment : Z) (tag : string)
  | OpTrackDeallocation (ptr : Z)
  | OpSetEnabled (enabled : bool)
  | OpDetectLeaks
  | OpClear.

Definition tracker_step (o : TrackerOp) (w : World) : World :=
  match o with
  | OpTrackAllocation ptr size alignment tag =>
      MemoryTracker.track_allocation ptr size alignment tag w
  | OpTrackDeallocation ptr => MemoryTracker.track_deallocation ptr w
  | OpSetEnabled enabled => MemoryTracker.set_enabled enabled w
  | OpDetectLeaks => (MemoryTracker.detect_leaks w).2
  | OpClear => MemoryTracker.clear w
  end.

Fixpoint tracker_run (ops : list TrackerOp) (w : World) : World :=
  match ops with
  | [] => w
  | o :: ops => tracker_run ops (tracker_step o w)
  end.

(** [o], run in [w], is [clear()], or is [track_deallocation(p)] made while
    tracking is enabled. *)
Definition may_remove (p : Z) (o : TrackerOp) (w : World) : bool :=
  match o with
  | OpClear => true
  | OpTrackDeallocation q => enabled_ (tracker w) && (q =? p)
  | _ => false
  end.

(** No operation of the run, started in [w], is one of those. *)
Fixpoint never_removes (p : Z) (ops : list TrackerOp) (w : World) : bool :=
  match ops with
  | [] => true
  | o :: ops => negb (may_remove p o w) && never_removes p ops (tracker_step o w)
  end.

Definition is_clear (o : TrackerOp) : bool :=
  match o with OpClear => true | _ => false end.

(** The configuration of the example scenario: a small tier of four blocks
    of 1024 bytes, medium and large tiers of block size 0 and no blocks,
    alignment 64, the three flags at their defaults. *)
Definition scenario_config : MemoryPool.Config :=
  {| MemoryPool.small_block_size := 1024;
     MemoryPool.medium_block_size := 0;
     MemoryPool.large_block_size := 0;
     MemoryPool.small_pool_count := 4;
     MemoryPool.medium_pool_count := 0;
     MemoryPool.large_pool_count := 0;
     MemoryPool.alignment := 64;
     MemoryPool.enable_statistics := true;
     MemoryPool.zero_on_dealloc := true;
     MemoryPool.allow_expansion := true |}.

(** Six answers of [malloc], 2 KiB apart but for the last, which has room
    for the direct allocation. *)
Definition scenario_answers : list Z :=
  [0x10000; 0x10800; 0x11000; 0x11800; 0x12000; 0x13000].

(** [allocate] for each size in turn; the pointers in the order granted. *)
Fixpoint allocate_all (sizes : list Z) (mp : MemoryPool.t) (w : World)
    : list Z * MemoryPool.t * World :=
  match sizes with
  | [] => ([], mp, w)
  | size :: sizes =>
      let '(p, mp, w) := MemoryPool.allocate size mp w in
      let '(ps, mp, w) := allocate_all sizes mp w in
      (p :: ps, mp, w)
  end.

(** [deallocate] for each pointer in turn. *)
Fixpoint deallocate_all (ps : list Z) (mp : MemoryPool.t) (w : World)
    : Outcome MemoryPool.t :=
  match ps with
  | [] => Done mp w
  | p :: ps =>
      match MemoryPool.deallocate p mp w with
      | Done mp w => deallocate_all ps mp w
      | Aborted w => Aborted w
      | Undefined => Undefined
      end
  end.

(** The scenario up to the end of its six allocations. *)
Definition scenario_allocated : list Z * MemoryPool.t * World :=
  let '(mp, w) := MemoryPool.make scenario_config (World_init scenario_answers) in
  allocate_all [500; 500; 500; 500; 500; 2000] mp w.

Definition scenario_pool : MemoryPool.t := scenario_allocated.1.2.
Definition scenario_world : World := scenario_allocated.2.

(** A world whose ledger holds one entry, for the address [4096]; and the
    same with tracking switched off afterwards. *)
Definition tracked_once : World :=
  MemoryTracker.track_allocation 4096 100 64 "x" (World_init []).

Definition tracked_then_disabled : World :=
  MemoryTracker.set_enabled false tracked_once.

(** What the first half of [allocate] obtains for a request: the tier
    selected and the block it handed out, or nothing when no tier is selected
    or the selected tier is exhausted. *)
Definition tier_grant (size : Z) (mp : MemoryPool.t) (w : World)
    : option (MemoryPool.Tier * Z) :=
  match MemoryPool.select_pool (MemoryPool.config_ mp) size with
  | Some tier =>
      let q := (BlockPool.acquire (MemoryPool.pool_of tier mp) w).1.1 in
      if q =? nullptr then None else Some (tier, q)
  | None => None
  end.

(** The world in which the deallocation of [4096] was missed. *)
Definition missed_deallocation : World :=
  MemoryTracker.track_deallocation 4096 tracked_then_disabled.

(** The branch of [MemoryPool::deallocate] taken for [p]: the one that
    frees a direct allocation, entered when no tier owns [p] and the
    direct-allocation map holds it. *)
Definition on_direct_path (p : Z) (mp : MemoryPool.t) : bool :=
  negb (BlockPool.owns p (MemoryPool.small_pool_ mp))
  && negb (BlockPool.owns p (MemoryPool.medium_pool_ mp))
  && negb (BlockPool.owns p (MemoryPool.large_pool_ mp))
  && bool_decide (is_Some (MemoryPool.direct_allocations_ mp !! p)).

(** The scenario's configuration with [enable_statistics] off, the pool
    made from it, and one request of 500 bytes. *)
Definition silent_config : MemoryPool.Config :=
  {| MemoryPool.small_block_size := 1024;
     MemoryPool.medium_block_size := 0;
     MemoryPool.large_block_size := 0;
     MemoryPool.small_pool_count := 4;
     MemoryPool.medium_pool_count := 0;
     MemoryPool.large_pool_count := 0;
     MemoryPool.alignment := 64;
     MemoryPool.enable_statistics := false;
     MemoryPool.zero_on_dealloc := true;
     MemoryPool.allow_expansion := true |}.

Definition silent_pool : MemoryPool.t :=
  (MemoryPool.make silent_config (World_init scenario_answers)).1.

Definition silent_world : World :=
  (MemoryPool.make silent_config (World_init scenario_answers)).2.

Definition silent_allocated : Z * MemoryPool.t * World :=
  MemoryPool.allocate 500 silent_pool silent_world.

(** A request of 2000 bytes to the same pool: no tier takes it. *)
Definition silent_direct : Z * MemoryPool.t * World :=
  MemoryPool.allocate 2000 silent_pool silent_world.

(** The scenario after its first four allocations, and after all six
    pointers have been given back in the order they were granted. *)
Definition scenario_after_four : list Z * MemoryPool.t * World :=
  let '(mp, w) := MemoryPool.make scenario_config (World_init scenario_answers) in
  allocate_all [500; 500; 500; 500] mp w.

Definition scenario_released : Outcome MemoryPool.t :=
  deallocate_all scenario_allocated.1.1 scenario_pool scenario_world.

(* ===================================================================== *)
(** * Further runs and worlds, for the properties beyond the scenario *)
(* ===================================================================== *)

(** Calls into [AlignedAllocator] that leave the peak counter to the
    allocator ([reset_statistics] is not among them), and runs of them.  A
    run stops at the first call that does not return. *)
Inductive AllocatorOp :=
  | OpAllocate (size alignment : Z)
  | OpDeallocate (ptr : Z).

Fixpoint allocator_run (ops : list AllocatorOp) (w : World) : Outcome unit :=
  match ops with
  | [] => Done tt w
  | OpAllocate size alignment :: ops =>
      allocator_run ops (AlignedAllocator.allocate size alignment w).2
  | OpDeallocate ptr :: ops =>
      match AlignedAllocator.deallocate ptr w with
      | Done _ w => allocator_run ops w
      | Aborted w => Aborted w
      | Undefined => Undefined
      end
  end.

(** The world in which a call ended, when there is one. *)
Definition final_world {A : Type} (o : Outcome A) : option World :=
  match o with
  | Done _ w => Some w
  | Aborted w => Some w
  | Undefined => None
  end.

(** [one_allocation] with the magic of its header overwritten by zeros. *)
Definition one_allocation_corrupted : World :=
  AlignedAllocator.store_header (65600 - header_size)
    {| raw_ptr := 65536; size := 100; alignment := 64; magic := 0 |}
    one_allocation.

(** The payload pointers of a pool, in the order of [blocks_]. *)
Definition data_pointers (bp : BlockPool.t) : list Z :=
  BlockPool.data <$> BlockPool.blocks_ bp.

(** A block as [Block(ptr)] makes it: not leased, with a payload. *)
Definition fresh_block (b : BlockPool.Block) : Prop :=
  BlockPool.in_use b = false /\ BlockPool.data b <> nullptr.

(** Every block of the pool has a payload. *)
Definition blocks_valid (bp : BlockPool.t) : Prop :=
  Forall (fun b => BlockPool.data b <> nullptr) (BlockPool.blocks_ bp).

Definition is_expand (o : BlockPool.Op) : bool :=
  match o with BlockPool.ExpandPool => true | _ => false end.

(** What a loop of at most [n] allocations appends to a pool. *)
Definition appended (n : nat) (bp bp' : BlockPool.t) : Prop :=
  exists new,
    BlockPool.blocks_ bp' = BlockPool.blocks_ bp ++ new
    /\ (length new <= n)%nat
    /\ Forall fresh_block new
    /\ BlockPool.free_list_ bp'
       = BlockPool.free_list_ bp ++ seq (length (BlockPool.blocks_ bp)) (length new)
    /\ BlockPool.block_size_ bp' = BlockPool.block_size_ bp
    /\ BlockPool.alignment_ bp' = BlockPool.alignment_ bp
    /\ BlockPool.allow_expansion_ bp' = BlockPool.allow_expansion_ bp.


(** Two worlds that differ at most in their log. *)
Definition same_but_log (w w' : World) : Prop :=
  heap w' = heap w /\ counters w' = counters w /\ tracker w' = tracker w
  /\ clock w' = clock w /\ calls w' = calls w.

(** A pool of two blocks of 100 bytes, and the same after one [acquire]. *)
Definition two_block_pool : BlockPool.t * World :=
  BlockPool.make 100 2 64 false (World_init [65536; 69632]).

Definition two_block_pool_leased : BlockPool.t * World :=
  let '(_, bp, w) := BlockPool.acquire two_block_pool.1 two_block_pool.2 in (bp, w).

(** Calls of a pool's user, and runs of them; a run stops at the first call
    that does not return. *)
Inductive PoolOp :=
  | PoolAllocate (size : Z)
  | PoolDeallocate (ptr : Z).

Fixpoint pool_run (ops : list PoolOp) (mp : MemoryPool.t) (w : World)
    : Outcome MemoryPool.t :=
  match ops with
  | [] => Done mp w
  | PoolAllocate size :: ops =>
      let '(_, mp, w) := MemoryPool.allocate size mp w in pool_run ops mp w
  | PoolDeallocate ptr :: ops =>
      match MemoryPool.deallocate ptr mp w with
      | Done mp w => pool_run ops mp w
      | Aborted w => Aborted w
      | Undefined => Undefined
      end
  end.

(** The counters written on the allocation side only. *)
Definition allocation_fields (s : MemoryPool.Statistics) : list Z :=
  [MemoryPool.allocation_count s; MemoryPool.cache_hits s;
   MemoryPool.cache_misses s; MemoryPool.small_pool_hits s;
   MemoryPool.medium_pool_hits s; MemoryPool.large_pool_hits s;
   MemoryPool.direct_allocations s].

(** The hit and miss counters tell the same story as the per-tier and
    direct counters, and together they count the allocations (all of them
    [size_t] values). *)
Definition counters_add_up (s : MemoryPool.Statistics) : Prop :=
  wrap (MemoryPool.small_pool_hits s + MemoryPool.medium_pool_hits s
        + MemoryPool.large_pool_hits s)
  = wrap (MemoryPool.cache_hits s)
  /\ wrap (MemoryPool.direct_allocations s) = wrap (MemoryPool.cache_misses s)
  /\ wrap (MemoryPool.cache_hits s + MemoryPool.cache_misses s)
     = wrap (MemoryPool.allocation_count s).

(** [scenario_world] with one more answer of [malloc] to come. *)
Definition scenario_world_refilled : World :=
  set_heap {| malloc_answers := [0x20000];
              live_raw := live_raw (heap scenario_world);
              headers := headers (heap scenario_world) |} scenario_world.

(** A short run on the scenario's pool: one request, given back. *)
Definition short_run : Outcome MemoryPool.t :=
  pool_run [PoolAllocate 500; PoolDeallocate 65600]
    (MemoryPool.make scenario_config (World_init scenario_answers)).1
    (MemoryPool.make scenario_config (World_init scenario_answers)).2.

(** The request of 3000 bytes made in [scenario_world_refilled]. *)
Definition oversized_request : Z * MemoryPool.t * World :=
  MemoryPool.allocate 3000 scenario_pool scenario_world_refilled.

(** Every tier of the pool keeps its free-list sound. *)
Definition tiers_sound (mp : MemoryPool.t) : Prop :=
  forall tier, free_list_sound (MemoryPool.pool_of tier mp).

(* ===================================================================== *)
(** * Properties *)
(* ===================================================================== *)

(** ** Words and masks *)

Lemma word_modulus_pos : 0 < word_modulus.
Proof. reflexivity. Qed.

Lemma wrap_small z : 0 <= z < word_modulus -> wrap z = z.
Proof. intros H. unfold wrap. apply Z.mod_small, H. Qed.

Lemma wrap_range z : 0 <= wrap z < word_modulus.
Proof. unfold wrap. apply Z.mod_pos_bound, word_modulus_pos. Qed.

Lemma pow2_lt_word k : 0 <= k < 64 -> 0 < 2 ^ k < word_modulus.
Proof.
  intros Hk. split; [apply Z.pow_pos_nonneg; lia|].
  unfold word_modulus. apply Z.pow_lt_mono_r; lia.
Qed.

Lemma pow2_divides_word k : 0 <= k < 64 -> (2 ^ k | word_modulus).
Proof.
  intros Hk. exists (2 ^ (64 - k)). unfold word_modulus.
  rewrite <- Z.pow_add_r by lia. f_equal. lia.
Qed.

(** The mask [~(2^k - 1)] has its [k] low bits clear. *)
Lemma mask_low_bits k : 0 <= k < 64 -> wnot (wrap (2 ^ k - 1)) mod 2 ^ k = 0.
Proof.
  intros Hk. pose proof (pow2_lt_word k Hk) as Hp.
  rewrite wrap_small by lia. unfold wnot, wrap.
  rewrite Z.mod_mod_divide by (apply pow2_divides_word, Hk).
  replace (Z.lnot (2 ^ k - 1)) with (- 1 * 2 ^ k) by (unfold Z.lnot; lia).
  apply Z_mod_mult.
Qed.

Lemma land_mask_mod x m k : 0 <= k -> m mod 2 ^ k = 0 -> Z.land x m mod 2 ^ k = 0.
Proof.
  intros Hk Hm.
  rewrite <- Z.land_ones by lia. rewrite <- Z.land_assoc.
  rewrite Z.land_ones by lia. rewrite Hm. apply Z.land_0_r.
Qed.

(** ** AlignedAllocator *)

Lemma align_up_aligned addr k :
  0 <= k < 64 -> AlignedAllocator.align_up addr (2 ^ k) mod 2 ^ k = 0.
Proof.
  intros Hk. unfold AlignedAllocator.align_up.
  apply land_mask_mod; [lia | apply mask_low_bits, Hk].
Qed.

(** The source's test accepts every power of two below [2^64]. *)
Lemma power_of_two_accepted k :
  0 <= k < 64 -> AlignedAllocator.invalid_alignment (2 ^ k) = false.
Proof.
  intros Hk. pose proof (pow2_lt_word k Hk) as Hp.
  unfold AlignedAllocator.invalid_alignment.
  rewrite wrap_small by lia.
  replace (2 ^ k - 1) with (Z.ones k) by (rewrite Z.ones_equiv; lia).
  rewrite Z.land_ones by lia. rewrite Z_mod_same_full.
  destruct (Z.eqb_spec (2 ^ k) 0); [lia | reflexivity].
Qed.

(** The alignment [allocate] works with, after the raise to the header
    size, is again a power of two, and a multiple of the one asked for. *)
Lemma effective_alignment_pow2 k :
  0 <= k < 64 ->
  (if 2 ^ k <? header_size then header_size else 2 ^ k) = 2 ^ Z.max k 5.
Proof.
  intros Hk. change header_size with (2 ^ 5).
  destruct (Z.ltb_spec (2 ^ k) (2 ^ 5)) as [Hlt | Hge].
  - apply Z.pow_lt_mono_r_iff in Hlt; [| lia | lia]. f_equal. lia.
  - apply Z.pow_le_mono_r_iff in Hge; [| lia | lia]. f_equal. lia.
Qed.

Lemma mod_pow2_weaken x j k : 0 <= j <= k -> x mod 2 ^ k = 0 -> x mod 2 ^ j = 0.
Proof.
  intros Hjk Hx.
  assert (Hj : 0 < 2 ^ j) by (apply Z.pow_pos_nonneg; lia).
  assert (Hk : 0 < 2 ^ k) by (apply Z.pow_pos_nonneg; lia).
  apply Z.mod_divide in Hx; [| lia]. apply Z.mod_divide; [lia |].
  apply Z.divide_trans with (2 ^ k); [| exact Hx].
  exists (2 ^ (k - j)). rewrite <- Z.pow_add_r by lia. f_equal. lia.
Qed.

(** What [allocate] returns, in terms of what [malloc] answered. *)
Lemma allocate_result size_ k w p w' :
  0 <= k < 64 ->
  AlignedAllocator.allocate size_ (2 ^ k) w = (p, w') ->
  p = nullptr \/
  exists raw, p = AlignedAllocator.align_up (wrap (raw + header_size)) (2 ^ Z.max k 5).
Proof.
  intros Hk. unfold AlignedAllocator.allocate.
  rewrite power_of_two_accepted by exact Hk.
  rewrite effective_alignment_pow2 by exact Hk.
  destruct (AlignedAllocator.malloc _ w) as [raw w1].
  destruct (raw =? nullptr).
  - intros [= <- _]. now left.
  - intros [= <- _]. right. now exists raw.
Qed.

(** Without wrap-around [align_up] rounds up to the next multiple. *)
Lemma align_up_value x k :
  0 <= k < 64 -> 0 <= x -> x + 2 ^ k - 1 < word_modulus ->
  AlignedAllocator.align_up x (2 ^ k) = (x + 2 ^ k - 1) - (x + 2 ^ k - 1) mod 2 ^ k.
Proof.
  intros Hk Hx Hfit. pose proof (pow2_lt_word k Hk) as Hp.
  unfold AlignedAllocator.align_up, wnot.
  rewrite (wrap_small (x + 2 ^ k - 1)) by lia.
  rewrite (wrap_small (2 ^ k - 1)) by lia.
  set (y := x + 2 ^ k - 1).
  unfold wrap, word_modulus. rewrite <- Z.land_ones by lia.
  rewrite (Z.land_comm (Z.lnot _)), Z.land_assoc.
  rewrite (Z.land_ones y 64) by lia.
  rewrite (Z.mod_small y) by (unfold word_modulus in Hfit; subst y; lia).
  rewrite <- Z.ldiff_land.
  replace (2 ^ k - 1) with (Z.ones k) by (rewrite Z.ones_equiv; lia).
  rewrite Z.ldiff_ones_r by lia.
  rewrite Z.shiftr_div_pow2, Z.shiftl_mul_pow2 by lia.
  pose proof (Z.div_mod y (2 ^ k)). lia.
Qed.

(** When [malloc] answers a block that lies inside the address space,
    [allocate] returns a pointer of that block, past the room for the header:
    the call does produce a non-null result. *)
Lemma allocate_in_block size_ k w raw rest :
  0 <= k < 64 ->
  malloc_answers (heap w) = raw :: rest ->
  0 < raw -> raw + header_size + 2 ^ Z.max k 5 <= word_modulus ->
  raw + header_size
  <= (AlignedAllocator.allocate size_ (2 ^ k) w).1
  < raw + header_size + 2 ^ Z.max k 5.
Proof.
  intros Hk Hans Hraw Hfit.
  assert (HK : 0 <= Z.max k 5 < 64) by lia.
  pose proof (pow2_lt_word _ HK) as Hp.
  unfold AlignedAllocator.allocate.
  rewrite power_of_two_accepted by exact Hk.
  rewrite effective_alignment_pow2 by exact Hk.
  unfold AlignedAllocator.malloc. rewrite Hans.
  destruct (Z.eqb_spec raw nullptr) as [H0 | _]; [unfold nullptr in H0; lia |].
  cbn [fst].
  assert (Hh : 0 < header_size) by reflexivity.
  rewrite (wrap_small (raw + header_size)) by lia.
  rewrite align_up_value by lia.
  pose proof (Z.mod_pos_bound (raw + header_size + 2 ^ Z.max k 5 - 1)
                (2 ^ Z.max k 5)).
  lia.
Qed.

(** C2.  For every power of two [A = 2^k] that fits a [size_t] and every
    size [S >= 1], a non-null pointer [P] returned by
    [AlignedAllocator::allocate(S, A)] satisfies [P mod A = 0]; it is in fact
    aligned to the larger of [A] and the header size, the alignment being
    raised to the header size when [A] is below it. *)
Theorem allocate_pointer_aligned (S A k P : Z) (w w' : World) :
  0 <= k < 64 -> A = 2 ^ k -> 1 <= S < word_modulus ->
  AlignedAllocator.allocate S A w = (P, w') ->
  P <> nullptr ->
  P mod A = 0 /\ P mod Z.max A header_size = 0.
Proof.
  intros Hk -> HS Halloc HP.
  destruct (allocate_result _ _ _ _ _ Hk Halloc) as [-> | [raw ->]]; [done |].
  assert (Hmax : Z.max (2 ^ k) header_size = 2 ^ Z.max k 5).
  { rewrite <- effective_alignment_pow2 by exact Hk.
    destruct (Z.ltb_spec (2 ^ k) header_size); lia. }
  assert (Hal : AlignedAllocator.align_up (wrap (raw + header_size)) (2 ^ Z.max k 5)
                mod 2 ^ Z.max k 5 = 0) by (apply align_up_aligned; lia).
  split.
  - apply mod_pow2_weaken with (Z.max k 5); [lia | exact Hal].
  - rewrite Hmax. exact Hal.
Qed.

Lemma allocate_pointer_aligned_witness :
  AlignedAllocator.allocate 100 16 (World_init [65544])
    = (65600, snd (AlignedAllocator.allocate 100 16 (World_init [65544])))
  /\ 65600 mod 16 = 0 /\ 65600 mod Z.max 16 header_size = 0.
Proof.
  split; [vm_compute; reflexivity |].
  apply (allocate_pointer_aligned 100 16 4 65600 (World_init [65544])
           (snd (AlignedAllocator.allocate 100 16 (World_init [65544])))).
  - lia.
  - reflexivity.
  - unfold word_modulus. lia.
  - vm_compute. reflexivity.
  - unfold nullptr. lia.
Defined.

(** The tracker never touches the C heap or the allocator's counters. *)
Lemma track_deallocation_heap p w :
  heap (MemoryTracker.track_deallocation p w) = heap w.
Proof.
  unfold MemoryTracker.track_deallocation. cbn.
  destruct (negb (enabled_ (tracker w)) || (p =? nullptr)); [reflexivity |].
  destruct (allocations_ (tracker w) !! p); reflexivity.
Qed.

(** A call that returns has released the block, and with it the header it
    had read and marked: nothing is left to read at
    [ptr - sizeof(AllocationHeader)]. *)
Lemma deallocate_releases_header p w w' :
  p <> nullptr ->
  AlignedAllocator.deallocate p w = Done tt w' ->
  headers (heap w') !! wrap (p - header_size) = None.
Proof.
  intros Hp. unfold AlignedAllocator.deallocate.
  destruct (Z.eqb_spec p nullptr); [done |].
  destruct (headers (heap w) !! wrap (p - header_size)) as [h |]; [| done].
  destruct (negb (magic h =? MAGIC_NUMBER)); [done |].
  intros [= <-]. cbn.
  apply map_lookup_filter_None. right. intros x Hx.
  rewrite lookup_insert_eq in Hx. injection Hx as <-.
  cbn. intros Hne. apply Hne. reflexivity.
Qed.

(** A header that reads [MAGIC_NUMBER] lets [deallocate] return. *)
Lemma deallocate_alive_returns p w h :
  headers (heap w) !! wrap (p - header_size) = Some h ->
  magic h = MAGIC_NUMBER ->
  exists w', AlignedAllocator.deallocate p w = Done tt w'.
Proof.
  intros Hh Hm. unfold AlignedAllocator.deallocate.
  destruct (p =? nullptr); [eexists; reflexivity |].
  rewrite Hh, Hm. change (MAGIC_NUMBER =? MAGIC_NUMBER) with true. cbn [negb].
  eexists. reflexivity.
Qed.

(** ** BlockPool *)

Section BlockCounting.

Local Open Scope nat_scope.

Local Abbreviation leased := (fun b => BlockPool.in_use b = true).

Lemma leased_cons b (bs : list BlockPool.Block) :
  length (filter leased (b :: bs)) = flag_weight b + length (filter leased bs).
Proof.
  rewrite filter_cons. unfold flag_weight.
  destruct (decide (BlockPool.in_use b = true)) as [-> | Hn]; [reflexivity |].
  destruct (BlockPool.in_use b); [done | reflexivity].
Qed.

Lemma leased_app (bs cs : list BlockPool.Block) :
  length (filter leased (bs ++ cs))
  = length (filter leased bs) + length (filter leased cs).
Proof. rewrite filter_app. apply length_app. Qed.

(** Overwriting one block moves the leased count by the difference of
    the two flags. *)
Lemma leased_insert (bs : list BlockPool.Block) (i : nat) b b' :
  bs !! i = Some b ->
  length (filter leased (<[i := b']> bs)) + flag_weight b
  = length (filter leased bs) + flag_weight b'.
Proof.
  intros Hi.
  rewrite insert_take_drop by (eapply lookup_lt_Some, Hi).
  rewrite <- (take_drop_middle bs i b Hi) at 3.
  rewrite !leased_app, !leased_cons. lia.
Qed.

Lemma alter_as_insert (f : BlockPool.Block -> BlockPool.Block)
    (bs : list BlockPool.Block) (i : nat) b :
  bs !! i = Some b -> alter f i bs = <[i := f b]> bs.
Proof.
  intros Hi. apply list_eq. intros j.
  rewrite list_lookup_alter.
  destruct (decide (i = j)) as [<- | Hne].
  - rewrite Hi. cbn. symmetry. apply list_lookup_insert_eq.
    eapply lookup_lt_Some, Hi.
  - symmetry. apply list_lookup_insert_ne, Hne.
Qed.

End BlockCounting.

Lemma sound_push_block p bp :
  free_list_sound bp -> free_list_sound (BlockPool.push_block p bp).
Proof.
  intros (Hnd & Hfree & Hcount).
  unfold free_list_sound, BlockPool.get_free_count, BlockPool.in_use_count,
    BlockPool.get_total_count in *. cbn.
  split; [| split].
  - apply NoDup_app. split; [exact Hnd |]. split; [| apply NoDup_singleton].
    intros i Hi Hin. apply list_elem_of_singleton in Hin. subst i.
    destruct (Hfree _ Hi) as (b & Hb & _).
    apply lookup_lt_Some in Hb. simpl in Hb. lia.
  - intros i Hi. apply elem_of_app in Hi. destruct Hi as [Hi | Hi].
    + destruct (Hfree _ Hi) as (b & Hb & Hu). exists b. split; [| exact Hu].
      apply lookup_app_l_Some, Hb.
    + apply list_elem_of_singleton in Hi. subst i.
      eexists. split; [apply list_lookup_middle; reflexivity | reflexivity].
  - rewrite !length_app, leased_app, leased_cons. cbn. lia.
Qed.

Lemma sound_preallocate n i bp w :
  free_list_sound bp -> free_list_sound (BlockPool.preallocate n i bp w).1.
Proof.
  revert i bp w. induction n as [| n IH]; intros i bp w Hs; cbn; [exact Hs |].
  destruct (AlignedAllocator.allocate _ _ w) as [p w1].
  destruct (p =? nullptr); [exact Hs |].
  apply IH, sound_push_block, Hs.
Qed.

Lemma sound_make block_size initial_count alignment allow_expansion w :
  free_list_sound
    (BlockPool.make block_size initial_count alignment allow_expansion w).1.
Proof.
  unfold BlockPool.make.
  match goal with
  | |- context [BlockPool.preallocate ?n ?i ?bp ?w] =>
      pose proof (sound_preallocate n i bp w) as H;
      destruct (BlockPool.preallocate n i bp w) as [bp1 w1]
  end.
  cbn in *. apply H.
  repeat split; cbn; [apply NoDup_nil_2 | intros i Hi; inversion Hi].
Qed.

Lemma sound_expand_loop n allocated bp w :
  free_list_sound bp ->
  free_list_sound (BlockPool.expand_loop n allocated bp w).1.2.
Proof.
  revert allocated bp w.
  induction n as [| n IH]; intros allocated bp w Hs; cbn; [exact Hs |].
  destruct (AlignedAllocator.allocate _ _ w) as [p w1].
  destruct (p =? nullptr); [exact Hs |].
  apply IH, sound_push_block, Hs.
Qed.

Lemma sound_expand_pool bp w :
  free_list_sound bp -> free_list_sound (BlockPool.expand_pool bp w).1.
Proof.
  intros Hs. unfold BlockPool.expand_pool.
  match goal with
  | |- context [BlockPool.expand_loop ?n ?a ?bp ?w] =>
      pose proof (sound_expand_loop n a bp w Hs) as H;
      destruct (BlockPool.expand_loop n a bp w) as [[a1 bp1] w1]
  end.
  exact H.
Qed.

(** Popping the front of a sound free-list and leasing its block. *)
Lemma sound_take i rest bp :
  free_list_sound bp -> BlockPool.free_list_ bp = i :: rest ->
  free_list_sound (BlockPool.take i rest bp).2.
Proof.
  intros (Hnd & Hfree & Hcount) Hfl.
  unfold free_list_sound, BlockPool.get_free_count, BlockPool.in_use_count,
    BlockPool.get_total_count, BlockPool.take in *. cbn.
  rewrite Hfl in Hnd, Hfree, Hcount.
  apply NoDup_cons in Hnd. destruct Hnd as [Hi Hnd].
  destruct (Hfree i) as (b & Hb & Hu); [left |].
  rewrite (alter_as_insert _ _ _ _ Hb).
  split; [exact Hnd | split].
  - intros j Hj. destruct (Hfree j) as (c & Hc & Hcu); [now right |].
    exists c. split; [| exact Hcu].
    rewrite list_lookup_insert_ne; [exact Hc |]. intros ->. contradiction.
  - pose proof (leased_insert _ i b {| BlockPool.data := BlockPool.data b;
                                       BlockPool.in_use := true |} Hb) as Hw.
    unfold flag_weight in Hw. rewrite Hu in Hw. cbn in Hw.
    rewrite length_insert. cbn in Hcount. lia.
Qed.

Lemma sound_acquire bp w :
  free_list_sound bp -> free_list_sound (BlockPool.acquire bp w).1.2.
Proof.
  intros Hs. unfold BlockPool.acquire.
  destruct (BlockPool.free_list_ bp) as [| i rest] eqn:Hfl.
  - assert (H1 : free_list_sound
                   (if BlockPool.allow_expansion_ bp
                    then BlockPool.expand_pool bp w else (bp, w)).1).
    { destruct (BlockPool.allow_expansion_ bp);
        [apply sound_expand_pool, Hs | exact Hs]. }
    destruct (if BlockPool.allow_expansion_ bp
              then BlockPool.expand_pool bp w else (bp, w)) as [bp1 w1].
    cbn in H1.
    destruct (BlockPool.free_list_ bp1) as [| j rest1] eqn:Hfl1; [exact H1 |].
    pose proof (sound_take j rest1 bp1 H1 Hfl1) as H2.
    destruct (BlockPool.take j rest1 bp1). exact H2.
  - pose proof (sound_take i rest bp Hs Hfl) as H2.
    destruct (BlockPool.take i rest bp). exact H2.
Qed.

Lemma sound_release p bp w :
  free_list_sound bp -> free_list_sound (BlockPool.release p bp w).1.
Proof.
  intros Hs. unfold BlockPool.release.
  destruct (p =? nullptr); [exact Hs |].
  destruct (BlockPool.find_block p bp) as [[i b] |] eqn:Hfind; [| exact Hs].
  destruct (BlockPool.in_use b) eqn:Hu; [| exact Hs].
  apply list_find_Some in Hfind. destruct Hfind as (Hb & _ & _).
  destruct Hs as (Hnd & Hfree & Hcount).
  unfold free_list_sound, BlockPool.get_free_count, BlockPool.in_use_count,
    BlockPool.get_total_count in *. cbn.
  assert (Hnotin : i ∉ BlockPool.free_list_ bp).
  { intros Hin. destruct (Hfree i Hin) as (c & Hc & Hcu). congruence. }
  split; [| split].
  - apply NoDup_app. split; [exact Hnd |]. split; [| apply NoDup_singleton].
    intros j Hj Hin. apply list_elem_of_singleton in Hin. subst j. contradiction.
  - intros j Hj. apply elem_of_app in Hj. destruct Hj as [Hj | Hj].
    + destruct (Hfree j Hj) as (c & Hc & Hcu). exists c. split; [| exact Hcu].
      rewrite list_lookup_insert_ne; [exact Hc |]. intros ->. contradiction.
    + apply list_elem_of_singleton in Hj. subst j.
      exists {| BlockPool.data := BlockPool.data b; BlockPool.in_use := false |}.
      split; [| reflexivity].
      apply list_lookup_insert_eq. eapply lookup_lt_Some, Hb.
  - pose proof (leased_insert _ i b {| BlockPool.data := BlockPool.data b;
                                       BlockPool.in_use := false |} Hb) as Hw.
    unfold flag_weight in Hw. rewrite Hu in Hw. cbn in Hw.
    rewrite length_app, length_insert. cbn. lia.
Qed.

Lemma sound_step o bp w :
  free_list_sound bp -> free_list_sound (BlockPool.step o bp w).1.
Proof.
  intros Hs. destruct o as [| p |]; cbn.
  - pose proof (sound_acquire bp w Hs) as H.
    destruct (BlockPool.acquire bp w) as [[q bp1] w1]. exact H.
  - apply sound_release, Hs.
  - apply sound_expand_pool, Hs.
Qed.

Lemma sound_run ops bp w :
  free_list_sound bp -> free_list_sound (BlockPool.run ops bp w).1.
Proof.
  revert bp w. induction ops as [| o ops IH]; intros bp w Hs; cbn; [exact Hs |].
  pose proof (sound_step o bp w Hs) as H.
  destruct (BlockPool.step o bp w) as [bp1 w1]. apply IH, H.
Qed.

(** C4.  Take any pool as its constructor leaves it (any block size, count,
    alignment and expansion flag, in any world: in particular whatever
    [malloc] is going to answer, failures included) and run any sequence of
    [acquire], [release] and [expand_pool] on it.  In the pool reached, the
    size of the free-list plus the number of blocks marked in use is the
    number of blocks owned.  Every point between two operations of a run
    is the end of a shorter run, so the equation holds there too. *)
Theorem block_pool_counts_agree
    (block_size initial_count alignment : Z) (allow_expansion : bool)
    (w : World) (ops : list BlockPool.Op) :
  let made := BlockPool.make block_size initial_count alignment allow_expansion w in
  let bp := (BlockPool.run ops made.1 made.2).1 in
  (BlockPool.get_free_count bp + BlockPool.in_use_count bp
   = BlockPool.get_total_count bp)%nat.
Proof.
  intros made bp.
  assert (Hs : free_list_sound bp)
    by (apply sound_run, sound_make).
  apply Hs.
Qed.

(** ** MemoryPool: tier selection *)

(** The configuration of the example scenario accepts a request of 500
    bytes in its small tier although 500 exceeds the block size of its large
    tier: "no tier when the request exceeds the large tier's block size"
    fails there. *)
Lemma select_pool_beyond_large_counterexample :
  MemoryPool.large_block_size scenario_config < 500
  /\ MemoryPool.select_pool scenario_config 500 = Some MemoryPool.Small
  /\ MemoryPool.select_pool scenario_config 500 <> None.
Proof. split; [reflexivity | split; [reflexivity | discriminate]]. Qed.

Lemma select_pool_Some c size tier :
  MemoryPool.select_pool c size = Some tier <->
  size <= MemoryPool.block_size_of tier c
  /\ forall tier', (tier_rank tier' < tier_rank tier)%nat ->
                   MemoryPool.block_size_of tier' c < size.
Proof.
  unfold MemoryPool.select_pool.
  destruct (Z.leb_spec size (MemoryPool.small_block_size c));
    destruct (Z.leb_spec size (MemoryPool.medium_block_size c));
    destruct (Z.leb_spec size (MemoryPool.large_block_size c));
    destruct tier; cbn; (split; [intros Heq | intros [Hfit Hbefore]]).
  all: try discriminate Heq.
  all: try (split; [lia | intros []; cbn; lia]).
  all: try reflexivity.
  all: pose proof (Hbefore MemoryPool.Small) as HS;
       pose proof (Hbefore MemoryPool.Medium) as HM; cbn in HS, HM; lia.
Qed.

Lemma select_pool_None c size :
  MemoryPool.select_pool c size = None <->
  forall tier, MemoryPool.block_size_of tier c < size.
Proof.
  unfold MemoryPool.select_pool.
  destruct (Z.leb_spec size (MemoryPool.small_block_size c));
    destruct (Z.leb_spec size (MemoryPool.medium_block_size c));
    destruct (Z.leb_spec size (MemoryPool.large_block_size c));
    (split; [intros Heq | intros Hall]).
  all: try discriminate Heq.
  all: try reflexivity.
  all: try (intros []; cbn; lia).
  all: pose proof (Hall MemoryPool.Small) as HS;
       pose proof (Hall MemoryPool.Medium) as HM;
       pose proof (Hall MemoryPool.Large) as HL; cbn in HS, HM, HL; lia.
Qed.

(** C5, amended.  [select_pool] returns the first tier, in the order small,
    medium, large, whose block size is at least the request (bounds
    inclusive), and no tier exactly when the request exceeds all three block
    sizes.  When the block sizes do not decrease from small to large, "no
    tier" is exactly "the request exceeds the large block size", and the tier
    returned has the least block size among the tiers that fit. *)
Theorem select_pool_first_fit (c : MemoryPool.Config) (size : Z) :
  (forall tier,
      MemoryPool.select_pool c size = Some tier <->
      size <= MemoryPool.block_size_of tier c
      /\ forall tier', (tier_rank tier' < tier_rank tier)%nat ->
                       MemoryPool.block_size_of tier' c < size)
  /\ (MemoryPool.select_pool c size = None <->
      forall tier, MemoryPool.block_size_of tier c < size)
  /\ (MemoryPool.small_block_size c <= MemoryPool.medium_block_size c
        <= MemoryPool.large_block_size c ->
      (MemoryPool.select_pool c size = None <-> MemoryPool.large_block_size c < size)
      /\ forall tier tier',
           MemoryPool.select_pool c size = Some tier ->
           size <= MemoryPool.block_size_of tier' c ->
           MemoryPool.block_size_of tier c <= MemoryPool.block_size_of tier' c).
Proof.
  split; [intros tier; apply select_pool_Some |].
  split; [apply select_pool_None |].
  intros Hmono. split.
  - rewrite select_pool_None. split.
    + intros Hall. apply (Hall MemoryPool.Large).
    + intros Hl []; cbn; lia.
  - intros tier tier' Hsel Hfit'.
    apply select_pool_Some in Hsel. destruct Hsel as [Hfit Hbefore].
    pose proof (Hbefore MemoryPool.Small) as HS.
    pose proof (Hbefore MemoryPool.Medium) as HM.
    destruct tier, tier'; cbn in *; lia.
Qed.

Lemma select_pool_first_fit_witness :
  MemoryPool.select_pool MemoryPool.Config_default 8192 = Some MemoryPool.Small
  /\ (MemoryPool.select_pool MemoryPool.Config_default 1048577 = None
      <-> MemoryPool.large_block_size MemoryPool.Config_default < 1048577).
Proof.
  split.
  - apply (proj1 (select_pool_first_fit MemoryPool.Config_default 8192)).
    split; [cbn; lia | intros []; cbn; lia].
  - apply (proj2 (proj2 (select_pool_first_fit MemoryPool.Config_default 1048577))).
    cbn. lia.
Defined.

(** ** What the tracker leaves alone *)

Lemma track_deallocation_log_grows p w line :
  line ∈ log w -> line ∈ log (MemoryTracker.track_deallocation p w).
Proof.
  intros Hin. unfold MemoryTracker.track_deallocation. cbn.
  destruct (negb (enabled_ (tracker w)) || (p =? nullptr)); [exact Hin |].
  destruct (allocations_ (tracker w) !! p); cbn; right; exact Hin.
Qed.

Lemma track_deallocation_calls p w :
  calls (MemoryTracker.track_deallocation p w) = CallTrackDeallocation p :: calls w.
Proof.
  unfold MemoryTracker.track_deallocation. cbn.
  destruct (negb (enabled_ (tracker w)) || (p =? nullptr)); [reflexivity |].
  destruct (allocations_ (tracker w) !! p); reflexivity.
Qed.

(** ** MemoryPool: deallocation of an unknown pointer *)

(** C6.  A non-null pointer that no tier owns and that the direct-allocation
    map does not hold makes [MemoryPool::deallocate] log the error line
    and return: the outcome is [Done], and the pool it returns is the pool it
    was given, so the statistics, the direct-allocation map and the block
    set and free-list of every tier are unchanged. *)
Theorem deallocate_unknown_pointer (p : Z) (mp : MemoryPool.t) (w : World) :
  p <> nullptr ->
  (forall tier, BlockPool.owns p (MemoryPool.pool_of tier mp) = false) ->
  MemoryPool.direct_allocations_ mp !! p = None ->
  exists w',
    MemoryPool.deallocate p mp w = Done mp w'
    /\ w' = MemoryTracker.track_deallocation p
              (emit ERROR MemoryPool.LOG_TAG (UnknownPointer p) w)
    /\ {| line_level := ERROR; line_tag := MemoryPool.LOG_TAG;
          line_msg := UnknownPointer p |} ∈ log w'.
Proof.
  intros Hp Howns Hdirect. eexists. split; [| split; [reflexivity |]].
  - unfold MemoryPool.deallocate, MemoryPool.deallocate_route.
    destruct (Z.eqb_spec p nullptr); [done |].
    pose proof (Howns MemoryPool.Small) as HS.
    pose proof (Howns MemoryPool.Medium) as HM.
    pose proof (Howns MemoryPool.Large) as HL.
    cbn [MemoryPool.pool_of] in HS, HM, HL.
    rewrite HS, HM, HL, Hdirect.
    reflexivity.
  - apply track_deallocation_log_grows. cbn. left.
Qed.

Lemma deallocate_unknown_pointer_witness :
  exists w',
    MemoryPool.deallocate 12345 scenario_pool scenario_world = Done scenario_pool w'
    /\ w' = MemoryTracker.track_deallocation 12345
              (emit ERROR MemoryPool.LOG_TAG (UnknownPointer 12345) scenario_world)
    /\ {| line_level := ERROR; line_tag := MemoryPool.LOG_TAG;
          line_msg := UnknownPointer 12345 |} ∈ log w'.
Proof.
  apply (deallocate_unknown_pointer 12345 scenario_pool scenario_world).
  - unfold nullptr. lia.
  - intros []; vm_compute; reflexivity.
  - vm_compute. reflexivity.
Defined.

(** ** MemoryTracker: [track_deallocation] *)

(** With tracking switched off, [track_deallocation] of a pointer that is
    in the ledger removes nothing and updates nothing, and that of a pointer
    that is not in the ledger logs nothing. *)
Lemma track_deallocation_disabled_counterexample :
  is_Some (allocations_ (tracker tracked_then_disabled) !! 4096)
  /\ tracker (MemoryTracker.track_deallocation 4096 tracked_then_disabled)
     = tracker tracked_then_disabled
  /\ current_allocated
       (stats_ (tracker (MemoryTracker.track_deallocation 4096 tracked_then_disabled)))
     = 100
  /\ allocations_ (tracker tracked_then_disabled) !! 8192 = None
  /\ log (MemoryTracker.track_deallocation 8192 tracked_then_disabled)
     = log tracked_then_disabled.
Proof.
  split; [eexists; vm_compute; reflexivity |].
  split; [reflexivity |].
  split; [reflexivity |].
  split; [vm_compute; reflexivity | reflexivity].
Qed.

(** The per-tag map after an entry [(size, tag)] left the ledger, key by
    key. *)
Lemma by_tag_after_deallocation size_ tag s key :
  allocations_by_tag (MemoryTracker.stats_after_deallocation size_ tag s) !! key
  = if decide (key = tag /\ tag <> "")
    then let total := wrap (default 0 (allocations_by_tag s !! key) - size_) in
         if decide (total = 0) then None else Some total
    else allocations_by_tag s !! key.
Proof.
  unfold MemoryTracker.stats_after_deallocation. cbn.
  destruct (String.eqb_spec tag "") as [Hempty | Hne].
  - destruct (decide (key = tag /\ tag <> "")) as [[_ H] | _]; [done | reflexivity].
  - rewrite lookup_insert_eq. cbn.
    destruct (decide (key = tag /\ tag <> "")) as [[-> _] | Hk].
    + cbn. destruct (Z.eqb_spec (wrap (default 0 (allocations_by_tag s !! tag) - size_)) 0)
        as [H0 | H0].
      * rewrite decide_True by exact H0. apply lookup_delete_eq.
      * rewrite decide_False by exact H0. apply lookup_insert_eq.
    + assert (tag <> key) by (intros ->; apply Hk; split; [reflexivity | exact Hne]).
      destruct (_ =? 0).
      * rewrite lookup_delete_ne, lookup_insert_ne by assumption. reflexivity.
      * rewrite lookup_insert_ne by assumption. reflexivity.
Qed.

(** C7, amended.  With tracking enabled and a non-null pointer:
    if the pointer is not in the ledger, [track_deallocation] logs the
    warning and leaves the tracker (ledger, aggregate statistics, per-tag
    totals) as it was; if it is, the entry is removed, current bytes go down
    by its size, total-deallocated bytes up by its size, the deallocation
    count up by one, the other aggregates stay, and, for a non-empty tag, the
    tag's total goes down by the size and the key is erased when the total
    reaches zero, the other keys being untouched. *)
Theorem track_deallocation_enabled (p : Z) (w : World) :
  enabled_ (tracker w) = true -> p <> nullptr ->
  let w' := MemoryTracker.track_deallocation p w in
  let s := stats_ (tracker w) in
  let s' := stats_ (tracker w') in
  match allocations_ (tracker w) !! p with
  | None =>
      tracker w' = tracker w
      /\ log w' = {| line_level := WARN; line_tag := MemoryTracker.LOG_TAG;
                     line_msg := UntrackedPointer p |} :: log w
  | Some info =>
      allocations_ (tracker w') = delete p (allocations_ (tracker w))
      /\ current_allocated s' = wrap (current_allocated s - info_size info)
      /\ total_bytes_deallocated s' = wrap (total_bytes_deallocated s + info_size info)
      /\ total_deallocations s' = wrap (total_deallocations s + 1)
      /\ total_allocations s' = total_allocations s
      /\ peak_allocated s' = peak_allocated s
      /\ total_bytes_allocated s' = total_bytes_allocated s
      /\ enabled_ (tracker w') = true
      /\ forall key,
           allocations_by_tag s' !! key
           = if decide (key = info_tag info /\ info_tag info <> "")
             then let total := wrap (default 0 (allocations_by_tag s !! key)
                                     - info_size info) in
                  if decide (total = 0) then None else Some total
             else allocations_by_tag s !! key
  end.
Proof.
  intros Hen Hp. unfold MemoryTracker.track_deallocation. cbn.
  rewrite Hen. destruct (Z.eqb_spec p nullptr); [done |]. cbn.
  destruct (allocations_ (tracker w) !! p) as [info |]; cbn.
  - repeat (split; [reflexivity |]).
    intros key.
    exact (by_tag_after_deallocation (info_size info) (info_tag info)
             (stats_ (tracker w)) key).
  - split; reflexivity.
Qed.

Lemma track_deallocation_enabled_witness :
  let w' := MemoryTracker.track_deallocation 4096 tracked_once in
  allocations_ (tracker w') = delete 4096 (allocations_ (tracker tracked_once))
  /\ current_allocated (stats_ (tracker w')) = 0
  /\ allocations_by_tag (stats_ (tracker w')) !! "x" = None.
Proof.
  pose proof (track_deallocation_enabled 4096 tracked_once) as H.
  assert (Hen : enabled_ (tracker tracked_once) = true) by reflexivity.
  assert (Hp : 4096 <> nullptr) by (unfold nullptr; lia).
  specialize (H Hen Hp).
  assert (Hl : allocations_ (tracker tracked_once) !! 4096
               = Some {| info_size := 100; info_alignment := 64; info_tag := "x";
                         info_timestamp := 0; info_stack_depth := 0 |})
    by (vm_compute; reflexivity).
  rewrite Hl in H. cbn zeta in H.
  destruct H as (Hledger & Hcur & _ & _ & _ & _ & _ & _ & Htag).
  intros w'. subst w'. split; [exact Hledger | split].
  - rewrite Hcur. vm_compute. reflexivity.
  - rewrite (Htag "x"). vm_compute. reflexivity.
Defined.

(** [detect_leaks] returns the pointers of the ledger. *)
Lemma detect_leaks_spec p w :
  p ∈ (MemoryTracker.detect_leaks w).1 <-> is_Some (allocations_ (tracker w) !! p).
Proof.
  unfold MemoryTracker.detect_leaks. cbn. rewrite list_elem_of_fmap. split.
  - intros ([q info] & -> & Hin). apply elem_of_map_to_list in Hin.
    exists info. exact Hin.
  - intros [info Hinfo]. exists (p, info). split; [reflexivity |].
    apply elem_of_map_to_list. exact Hinfo.
Qed.

Lemma detect_leaks_tracker w : tracker (MemoryTracker.detect_leaks w).2 = tracker w.
Proof.
  unfold MemoryTracker.detect_leaks. cbn.
  destruct (decide (_ = [])); reflexivity.
Qed.

Lemma update_peak_memory_ledger w :
  allocations_ (tracker (MemoryTracker.update_peak_memory w))
  = allocations_ (tracker w).
Proof.
  unfold MemoryTracker.update_peak_memory.
  destruct (_ <? _); reflexivity.
Qed.

(** An entry survives every operation that is neither [clear()] nor an
    enabled [track_deallocation] of its own address. *)
Lemma entry_survives_step p o w :
  may_remove p o w = false ->
  is_Some (allocations_ (tracker w) !! p) ->
  is_Some (allocations_ (tracker (tracker_step o w)) !! p).
Proof.
  intros Hkeep Hin. destruct o as [q sz al tag | q | b | |]; cbn in Hkeep.
  - cbn. unfold MemoryTracker.track_allocation. cbn.
    destruct (negb (enabled_ (tracker w)) || (q =? nullptr)); [exact Hin |].
    cbn. rewrite update_peak_memory_ledger. cbn.
    apply lookup_insert_is_Some. destruct (decide (q = p)); [now left | now right].
  - cbn. unfold MemoryTracker.track_deallocation. cbn.
    destruct (enabled_ (tracker w)); cbn in *; [| exact Hin].
    destruct (Z.eqb_spec q p) as [| Hne]; [discriminate |].
    destruct (q =? nullptr); [exact Hin |].
    destruct (allocations_ (tracker w) !! q); cbn; [| exact Hin].
    rewrite lookup_delete_ne by exact Hne. exact Hin.
  - exact Hin.
  - unfold tracker_step. rewrite detect_leaks_tracker. exact Hin.
  - discriminate.
Qed.

Lemma entry_survives_run p ops w :
  never_removes p ops w = true ->
  is_Some (allocations_ (tracker w) !! p) ->
  is_Some (allocations_ (tracker (tracker_run ops w)) !! p).
Proof.
  revert w. induction ops as [| o ops IH]; intros w Hkeep Hin; [exact Hin |].
  cbn in Hkeep. apply andb_true_iff in Hkeep. destruct Hkeep as [Ho Hops].
  apply negb_true_iff in Ho. cbn.
  apply IH; [exact Hops | apply entry_survives_step; assumption].
Qed.

(** After a deallocation missed because tracking was off, switching
    tracking on again and deallocating the same address once more removes
    the entry: no [clear()] is involved. *)
Lemma missed_entry_not_permanent_counterexample :
  4096 ∈ (MemoryTracker.detect_leaks missed_deallocation).1
  /\ existsb is_clear [OpSetEnabled true; OpTrackDeallocation 4096] = false
  /\ 4096 ∉ (MemoryTracker.detect_leaks
               (tracker_run [OpSetEnabled true; OpTrackDeallocation 4096]
                  missed_deallocation)).1.
Proof.
  split; [| split; [reflexivity |]].
  - apply detect_leaks_spec. eexists. vm_compute. reflexivity.
  - rewrite detect_leaks_spec. intros [info Hinfo].
    vm_compute in Hinfo. discriminate Hinfo.
Qed.

(** C10, amended.  With tracking disabled, or for the null pointer,
    [track_deallocation] does nothing but return: tracker, log, heap,
    counters and clock are as before (only the call history records the
    call), also when the pointer is in the ledger.  Such an entry is then
    still reported by [detect_leaks], and stays reported through every
    further run of tracker operations in which no [clear()] occurs and no
    [track_deallocation] of that address is made with tracking enabled. *)
Theorem track_deallocation_disabled_noop (p : Z) (w : World) :
  enabled_ (tracker w) = false \/ p = nullptr ->
  let w' := MemoryTracker.track_deallocation p w in
  w' = note (CallTrackDeallocation p) w
  /\ (is_Some (allocations_ (tracker w) !! p) ->
      forall ops, never_removes p ops w' = true ->
                  p ∈ (MemoryTracker.detect_leaks (tracker_run ops w')).1).
Proof.
  intros Hoff w'.
  assert (Hnoop : w' = note (CallTrackDeallocation p) w).
  { subst w'. unfold MemoryTracker.track_deallocation. cbn.
    destruct Hoff as [-> | ->]; [reflexivity |].
    rewrite orb_true_r. reflexivity. }
  split; [exact Hnoop |].
  intros Hin ops Hkeep. apply detect_leaks_spec.
  apply entry_survives_run; [exact Hkeep |].
  rewrite Hnoop. exact Hin.
Qed.

Lemma track_deallocation_disabled_noop_witness :
  MemoryTracker.track_deallocation 4096 tracked_then_disabled
  = note (CallTrackDeallocation 4096) tracked_then_disabled
  /\ 4096 ∈ (MemoryTracker.detect_leaks
               (tracker_run [OpTrackAllocation 8192 10 64 "y"; OpDetectLeaks;
                             OpSetEnabled true; OpTrackDeallocation 8192]
                  (MemoryTracker.track_deallocation 4096 tracked_then_disabled))).1.
Proof.
  destruct (track_deallocation_disabled_noop 4096 tracked_then_disabled)
    as [Hnoop Hstays]; [left; reflexivity |].
  split; [exact Hnoop |].
  apply Hstays; [eexists; vm_compute; reflexivity | vm_compute; reflexivity].
Defined.

(** ** MemoryPool: allocation with statistics switched off *)

(** C8.  With [enable_statistics] off, [allocate] leaves every field that
    [update_statistics] writes as it was, and still counts.  A block granted
    by the selected tier is the result, is not null, and adds one to that
    tier's hit counter and to nothing else.  A request that no tier serves
    goes to the direct path, where the hit counters stay; there, when the
    configured alignment is a power of two and [malloc] answers a block
    inside the address space, the result is not null, [direct_allocations]
    goes up by one and the pointer is entered in the direct-allocation map
    with the size asked for; when the direct allocation fails, the counter
    stays.  The request is one whose sum [size + alignment + header], as
    [AlignedAllocator::allocate] forms it, does not wrap, so that a block
    obtained for it holds [size] bytes. *)
Theorem allocate_without_statistics (size : Z) (mp : MemoryPool.t) (w : World) :
  MemoryPool.enable_statistics (MemoryPool.config_ mp) = false ->
  0 < size ->
  size + Z.max (MemoryPool.alignment (MemoryPool.config_ mp)) header_size + header_size
  < word_modulus ->
  let r := MemoryPool.allocate size mp w in
  let p := r.1.1 in
  let s := MemoryPool.stats_ mp in
  let s' := MemoryPool.stats_ r.1.2 in
  usage_fields s' = usage_fields s
  /\ match tier_grant size mp w with
     | Some (tier, q) =>
         p = q /\ p <> nullptr
         /\ hits_of tier s' = wrap (hits_of tier s + 1)
         /\ (forall tier', tier' <> tier -> hits_of tier' s' = hits_of tier' s)
         /\ MemoryPool.direct_allocations s' = MemoryPool.direct_allocations s
     | None =>
         (forall tier, hits_of tier s' = hits_of tier s)
         /\ MemoryPool.direct_allocations s'
            = (if p =? nullptr then MemoryPool.direct_allocations s
               else wrap (MemoryPool.direct_allocations s + 1))
         /\ (forall k raw rest,
               0 <= k < 64 ->
               MemoryPool.alignment (MemoryPool.config_ mp) = 2 ^ k ->
               malloc_answers (heap (MemoryPool.allocate_from_tier size mp w).2)
               = raw :: rest ->
               0 < raw -> raw + header_size + 2 ^ Z.max k 5 <= word_modulus ->
               p <> nullptr
               /\ MemoryPool.direct_allocations s'
                  = wrap (MemoryPool.direct_allocations s + 1)
               /\ MemoryPool.direct_allocations_ r.1.2 !! p
                  = Some {| MemoryPool.ptr := p; MemoryPool.size := size |})
     end.
Proof.
  intros Hoff Hsize _. cbv zeta.
  assert (Hupd : forall sz a h m,
             MemoryPool.enable_statistics (MemoryPool.config_ m) = false ->
             MemoryPool.update_statistics sz a h m = m).
  { intros sz a h m Hm. unfold MemoryPool.update_statistics. rewrite Hm. reflexivity. }
  assert (Hserved : forall w1 p2 w2 k raw rest,
             AlignedAllocator.allocate size
               (MemoryPool.alignment (MemoryPool.config_ mp)) w1 = (p2, w2) ->
             0 <= k < 64 ->
             MemoryPool.alignment (MemoryPool.config_ mp) = 2 ^ k ->
             malloc_answers (heap w1) = raw :: rest ->
             0 < raw -> raw + header_size + 2 ^ Z.max k 5 <= word_modulus ->
             p2 <> nullptr).
  { intros w1 p2 w2 k raw rest Halloc Hk HA Hans Hraw Hfit.
    rewrite HA in Halloc.
    pose proof (allocate_in_block size k w1 raw rest Hk Hans Hraw Hfit) as Hin.
    rewrite Halloc in Hin. cbn [fst] in Hin.
    change header_size with 32 in Hin. unfold nullptr. lia. }
  unfold MemoryPool.allocate, tier_grant, MemoryPool.allocate_from_tier.
  destruct (Z.eqb_spec size 0); [lia |].
  destruct (MemoryPool.select_pool (MemoryPool.config_ mp) size) as [tier |].
  - destruct (BlockPool.acquire (MemoryPool.pool_of tier mp) w) as [[q bp] w1].
    cbn [fst snd].
    destruct (q =? nullptr) eqn:Hq.
    + cbn [negb]. unfold MemoryPool.allocate_direct.
      assert (Hcfg : MemoryPool.config_ (MemoryPool.set_pool tier bp mp)
                     = MemoryPool.config_ mp) by reflexivity.
      rewrite Hcfg.
      destruct (AlignedAllocator.allocate _ _ w1) as [p2 w2] eqn:Halloc.
      destruct (p2 =? nullptr) eqn:Hp2.
      * rewrite Hp2. cbn [fst snd]. rewrite Hp2.
        split; [reflexivity |]. split; [intros []; destruct tier; reflexivity |].
        split; [destruct tier; reflexivity |].
        intros k raw rest Hk HA Hans Hraw Hfit. exfalso.
        apply (Hserved w1 p2 w2 k raw rest Halloc Hk HA Hans Hraw Hfit).
        apply Z.eqb_eq. exact Hp2.
      * rewrite Hp2. rewrite Hupd by exact Hoff. cbn [fst snd]. rewrite Hp2.
        split; [destruct tier; reflexivity |].
        split; [intros []; destruct tier; reflexivity |].
        split; [destruct tier; reflexivity |].
        intros k raw rest _ _ _ _ _.
        split; [apply Z.eqb_neq; exact Hp2 |].
        split; [destruct tier; reflexivity |].
        destruct tier; cbn; apply lookup_insert_eq.
    + rewrite Hq. rewrite Hupd by (destruct tier; exact Hoff). cbn [fst snd].
      split; [destruct tier; reflexivity |].
      split; [reflexivity |].
      split; [apply Z.eqb_neq; exact Hq |].
      split; [destruct tier; reflexivity |].
      split; [intros [] Hne; destruct tier; first [reflexivity | done] |].
      destruct tier; reflexivity.
  - cbn [negb]. unfold MemoryPool.allocate_direct.
    change (nullptr =? nullptr) with true. cbv iota. cbn [fst snd].
    destruct (AlignedAllocator.allocate _ _ w) as [p2 w2] eqn:Halloc.
    destruct (p2 =? nullptr) eqn:Hp2.
    + rewrite Hp2. cbn [fst snd]. rewrite Hp2.
      split; [reflexivity |]. split; [intros []; reflexivity |].
      split; [reflexivity |].
      intros k raw rest Hk HA Hans Hraw Hfit. exfalso.
      apply (Hserved w p2 w2 k raw rest Halloc Hk HA Hans Hraw Hfit).
      apply Z.eqb_eq. exact Hp2.
    + rewrite Hp2. rewrite Hupd by exact Hoff. cbn [fst snd]. rewrite Hp2.
      split; [reflexivity |]. split; [intros []; reflexivity |].
      split; [reflexivity |].
      intros k raw rest _ _ _ _ _.
      split; [apply Z.eqb_neq; exact Hp2 |].
      split; [reflexivity |].
      cbn. apply lookup_insert_eq.
Qed.

Lemma allocate_without_statistics_witness :
  (usage_fields (MemoryPool.stats_ silent_allocated.1.2)
   = usage_fields (MemoryPool.stats_ silent_pool)
   /\ silent_allocated.1.1 = 65600
   /\ MemoryPool.small_pool_hits (MemoryPool.stats_ silent_allocated.1.2) = 1
   /\ MemoryPool.direct_allocations (MemoryPool.stats_ silent_allocated.1.2) = 0)
  /\ (usage_fields (MemoryPool.stats_ silent_direct.1.2)
      = usage_fields (MemoryPool.stats_ silent_pool)
      /\ silent_direct.1.1 <> nullptr
      /\ MemoryPool.small_pool_hits (MemoryPool.stats_ silent_direct.1.2) = 0
      /\ MemoryPool.direct_allocations (MemoryPool.stats_ silent_direct.1.2) = 1
      /\ MemoryPool.direct_allocations_ silent_direct.1.2 !! silent_direct.1.1
         = Some {| MemoryPool.ptr := silent_direct.1.1; MemoryPool.size := 2000 |}).
Proof.
  assert (Hoff : MemoryPool.enable_statistics (MemoryPool.config_ silent_pool) = false)
    by (vm_compute; reflexivity).
  split.
  - assert (Hsize : 0 < 500) by lia.
    assert (Hfits : 500 + Z.max (MemoryPool.alignment (MemoryPool.config_ silent_pool))
                            header_size + header_size < word_modulus)
      by (vm_compute; reflexivity).
    pose proof (allocate_without_statistics 500 silent_pool silent_world
                  Hoff Hsize Hfits) as H.
    cbv zeta in H.
    assert (Hgrant : tier_grant 500 silent_pool silent_world
                     = Some (MemoryPool.Small, 65600)) by (vm_compute; reflexivity).
    rewrite Hgrant in H. destruct H as (Husage & Hp & _ & Hhit & _ & Hdirect).
    split; [exact Husage |]. split; [exact Hp |]. split.
    + change (MemoryPool.small_pool_hits (MemoryPool.stats_ silent_allocated.1.2))
        with (hits_of MemoryPool.Small (MemoryPool.stats_ silent_allocated.1.2)).
      unfold silent_allocated. rewrite Hhit. vm_compute. reflexivity.
    + unfold silent_allocated. rewrite Hdirect. vm_compute. reflexivity.
  - assert (Hsize : 0 < 2000) by lia.
    assert (Hfits : 2000 + Z.max (MemoryPool.alignment (MemoryPool.config_ silent_pool))
                             header_size + header_size < word_modulus)
      by (vm_compute; reflexivity).
    pose proof (allocate_without_statistics 2000 silent_pool silent_world
                  Hoff Hsize Hfits) as H.
    cbv zeta in H.
    assert (Hgrant : tier_grant 2000 silent_pool silent_world = None)
      by (vm_compute; reflexivity).
    rewrite Hgrant in H. destruct H as (Husage & Hhits & _ & Hserved).
    destruct (Hserved 6 0x12000 [0x13000]) as (Hp & Hdirect & Hmap).
    + lia.
    + vm_compute. reflexivity.
    + vm_compute. reflexivity.
    + lia.
    + vm_compute. discriminate.
    + split; [exact Husage |]. split; [exact Hp |]. split.
      * change (MemoryPool.small_pool_hits (MemoryPool.stats_ silent_direct.1.2))
          with (hits_of MemoryPool.Small (MemoryPool.stats_ silent_direct.1.2)).
        unfold silent_direct. rewrite (Hhits MemoryPool.Small). vm_compute. reflexivity.
      * split; [| exact Hmap].
        unfold silent_direct. rewrite Hdirect. vm_compute. reflexivity.
Defined.

(** ** MemoryPool: what [deallocate] tells the tracker *)

Lemma release_calls p bp w : calls (BlockPool.release p bp w).2 = calls w.
Proof.
  unfold BlockPool.release.
  destruct (p =? nullptr); [reflexivity |].
  destruct (BlockPool.find_block p bp) as [[i b] |]; [| reflexivity].
  destruct (negb (BlockPool.in_use b)); reflexivity.
Qed.

Lemma release_to_tier_calls tier p mp w :
  calls (MemoryPool.release_to_tier tier p mp w).2 = calls w.
Proof.
  unfold MemoryPool.release_to_tier.
  pose proof (release_calls p (MemoryPool.pool_of tier mp) w) as H.
  destruct (BlockPool.release p (MemoryPool.pool_of tier mp) w). exact H.
Qed.

(** The three ways [AlignedAllocator::deallocate] ends on a non-null
    pointer, with the tracker calls each makes. *)
Lemma allocator_deallocate_calls p w :
  p <> nullptr ->
  match headers (heap w) !! wrap (p - header_size) with
  | None => AlignedAllocator.deallocate p w = Undefined
  | Some h =>
      if magic h =? MAGIC_NUMBER
      then exists w', AlignedAllocator.deallocate p w = Done tt w'
                      /\ calls w' = CallTrackDeallocation p :: calls w
      else exists w', AlignedAllocator.deallocate p w = Aborted w'
                      /\ calls w' = calls w
  end.
Proof.
  intros Hp. unfold AlignedAllocator.deallocate.
  destruct (Z.eqb_spec p nullptr); [done |].
  destruct (headers (heap w) !! wrap (p - header_size)) as [h |]; [| reflexivity].
  destruct (magic h =? MAGIC_NUMBER); cbn [negb].
  - eexists. split; [reflexivity |]. cbn. rewrite track_deallocation_calls.
    reflexivity.
  - eexists. split; [reflexivity |]. destruct (magic h =? FREED_MAGIC); reflexivity.
Qed.

(** In the scenario, after the six allocations, the tracker holds no
    record of a [track_deallocation(77888)]; deallocating the direct
    allocation [77888] enters [track_deallocation(77888)] twice. *)
Lemma deallocate_direct_counterexample :
  match MemoryPool.deallocate 77888 scenario_pool scenario_world with
  | Done _ w' =>
      deallocation_calls 77888 (calls scenario_world) = 0%nat
      /\ deallocation_calls 77888 (calls w') = 2%nat
  | _ => False
  end.
Proof. vm_compute. split; reflexivity. Qed.

(** C9, amended.  For a non-null pointer, [MemoryPool::deallocate] ends as
    follows.  On a tier branch and on the unknown-pointer branch it returns,
    and [track_deallocation] has been entered exactly once, by the last
    statement of [deallocate].  On the direct-allocation branch, when the
    header is intact it returns and [track_deallocation] has been entered
    twice, first inside [AlignedAllocator::deallocate] and then by that last
    statement; when the header is not intact the process is aborted before
    any tracker call. *)
Theorem deallocate_tracker_calls (p : Z) (mp : MemoryPool.t) (w : World) :
  p <> nullptr ->
  if on_direct_path p mp then
    match headers (heap w) !! wrap (p - header_size) with
    | Some h =>
        if magic h =? MAGIC_NUMBER
        then exists mp' w',
               MemoryPool.deallocate p mp w = Done mp' w'
               /\ calls w' = CallTrackDeallocation p :: CallTrackDeallocation p :: calls w
        else exists w',
               MemoryPool.deallocate p mp w = Aborted w' /\ calls w' = calls w
    | None => MemoryPool.deallocate p mp w = Undefined
    end
  else
    exists mp' w',
      MemoryPool.deallocate p mp w = Done mp' w'
      /\ calls w' = CallTrackDeallocation p :: calls w.
Proof.
  intros Hp.
  assert (Htier : forall tier,
             exists mp' w',
               (let '(mp1, w1) := MemoryPool.release_to_tier tier p mp w in
                match Done mp1 w1 with
                | Done mp2 w2 => Done mp2 (MemoryTracker.track_deallocation p w2)
                | Aborted w2 => Aborted w2
                | Undefined => Undefined
                end) = Done mp' w'
               /\ calls w' = CallTrackDeallocation p :: calls w).
  { intros tier. pose proof (release_to_tier_calls tier p mp w) as Hc.
    destruct (MemoryPool.release_to_tier tier p mp w) as [mp1 w1].
    do 2 eexists. split; [reflexivity |].
    rewrite track_deallocation_calls. cbn in Hc. rewrite Hc. reflexivity. }
  unfold on_direct_path, MemoryPool.deallocate, MemoryPool.deallocate_route.
  destruct (Z.eqb_spec p nullptr); [done |].
  destruct (BlockPool.owns p (MemoryPool.small_pool_ mp)); cbn [negb andb].
  { destruct (Htier MemoryPool.Small) as (mp' & w' & H1 & H2).
    exists mp', w'. split; [| exact H2].
    destruct (MemoryPool.release_to_tier MemoryPool.Small p mp w). exact H1. }
  destruct (BlockPool.owns p (MemoryPool.medium_pool_ mp)); cbn [negb andb].
  { destruct (Htier MemoryPool.Medium) as (mp' & w' & H1 & H2).
    exists mp', w'. split; [| exact H2].
    destruct (MemoryPool.release_to_tier MemoryPool.Medium p mp w). exact H1. }
  destruct (BlockPool.owns p (MemoryPool.large_pool_ mp)); cbn [negb andb].
  { destruct (Htier MemoryPool.Large) as (mp' & w' & H1 & H2).
    exists mp', w'. split; [| exact H2].
    destruct (MemoryPool.release_to_tier MemoryPool.Large p mp w). exact H1. }
  destruct (MemoryPool.direct_allocations_ mp !! p) as [d |] eqn:Hd.
  - rewrite bool_decide_eq_true_2 by (eexists; reflexivity).
    pose proof (allocator_deallocate_calls p w Hp) as Ha.
    destruct (headers (heap w) !! wrap (p - header_size)) as [h |].
    + destruct (magic h =? MAGIC_NUMBER).
      * destruct Ha as (w1 & -> & Hc). do 2 eexists. split; [reflexivity |].
        rewrite track_deallocation_calls, Hc. reflexivity.
      * destruct Ha as (w1 & -> & Hc). exists w1. split; [reflexivity | exact Hc].
    + rewrite Ha. reflexivity.
  - rewrite bool_decide_eq_false_2 by (intros [? ?]; discriminate).
    do 2 eexists. split; [reflexivity |].
    rewrite track_deallocation_calls. reflexivity.
Qed.

Lemma deallocate_tracker_calls_witness :
  (exists mp' w',
      MemoryPool.deallocate 65600 scenario_pool scenario_world = Done mp' w'
      /\ calls w' = CallTrackDeallocation 65600 :: calls scenario_world)
  /\ (exists mp' w',
      MemoryPool.deallocate 77888 scenario_pool scenario_world = Done mp' w'
      /\ calls w' = CallTrackDeallocation 77888 :: CallTrackDeallocation 77888
                      :: calls scenario_world).
Proof.
  split.
  - pose proof (deallocate_tracker_calls 65600 scenario_pool scenario_world) as H.
    assert (Hpath : on_direct_path 65600 scenario_pool = false)
      by (vm_compute; reflexivity).
    rewrite Hpath in H. apply H. unfold nullptr. lia.
  - pose proof (deallocate_tracker_calls 77888 scenario_pool scenario_world) as H.
    assert (Hpath : on_direct_path 77888 scenario_pool = true)
      by (vm_compute; reflexivity).
    assert (Hh : headers (heap scenario_world) !! wrap (77888 - header_size)
                 = Some {| raw_ptr := 77824; size := 2000; alignment := 64;
                           magic := MAGIC_NUMBER |})
      by (vm_compute; reflexivity).
    rewrite Hpath, Hh in H. apply H. unfold nullptr. lia.
Defined.

(** ** MemoryPool: the example scenario *)

(** What a tier block is charged with, and what it is credited with: the
    size requested on the way out, the block size of the tier on the way
    back. *)
Lemma tier_hit_charges_request size_ mp w tier q :
  MemoryPool.enable_statistics (MemoryPool.config_ mp) = true ->
  size_ <> 0 ->
  tier_grant size_ mp w = Some (tier, q) ->
  MemoryPool.current_usage (MemoryPool.stats_ (MemoryPool.allocate size_ mp w).1.2)
  = wrap (MemoryPool.current_usage (MemoryPool.stats_ mp) + size_).
Proof.
  intros Hon Hsize. unfold tier_grant, MemoryPool.allocate,
    MemoryPool.allocate_from_tier.
  destruct (Z.eqb_spec size_ 0); [done |].
  destruct (MemoryPool.select_pool _ size_) as [tier0 |]; [| discriminate].
  destruct (BlockPool.acquire _ w) as [[q0 bp] w1]. cbn [fst snd].
  destruct (q0 =? nullptr) eqn:Hq; [discriminate |]. intros _.
  rewrite Hq. unfold MemoryPool.update_statistics.
  replace (MemoryPool.enable_statistics
             (MemoryPool.config_
                (MemoryPool.count_hit tier0 (MemoryPool.set_pool tier0 bp mp))))
    with true by (destruct tier0; symmetry; exact Hon).
  cbn [negb fst snd]. unfold MemoryPool.update_peak_usage. cbn.
  destruct (_ <? _); destruct tier0; reflexivity.
Qed.

Lemma tier_release_credits_block tier p mp w :
  MemoryPool.enable_statistics (MemoryPool.config_ mp) = true ->
  MemoryPool.current_usage
    (MemoryPool.stats_ (MemoryPool.release_to_tier tier p mp w).1)
  = wrap (MemoryPool.current_usage (MemoryPool.stats_ mp)
          - MemoryPool.block_size_of tier (MemoryPool.config_ mp)).
Proof.
  intros Hon. unfold MemoryPool.release_to_tier.
  destruct (BlockPool.release p _ w) as [bp w1]. cbn [fst].
  unfold MemoryPool.update_statistics.
  replace (MemoryPool.enable_statistics
             (MemoryPool.config_ (MemoryPool.set_pool tier bp mp)))
    with true by (destruct tier; symmetry; exact Hon).
  destruct tier; reflexivity.
Qed.

(** C1, evaluated.  In the scenario the first four requests are small-tier
    hits that use up the four blocks, the fifth makes the tier grow to five
    blocks and is a hit too, the request of 2000 bytes is a direct
    allocation, and usage stands at [5 * 500 + 2000].  Giving the six
    pointers back returns normally, and [get_statistics().current_usage] is
    then [2^64 - 2620], not [0]: a tier block was charged with the 500 bytes
    requested and is credited with the 1024 bytes of its block, and the
    unsigned counter wraps. *)
Theorem scenario_current_usage :
  MemoryPool.small_pool_hits (MemoryPool.get_statistics scenario_after_four.1.2) = 4
  /\ BlockPool.get_free_count (MemoryPool.small_pool_ scenario_after_four.1.2) = 0%nat
  /\ BlockPool.get_total_count (MemoryPool.small_pool_ scenario_after_four.1.2) = 4%nat
  /\ scenario_allocated.1.1 = [65600; 67648; 69696; 71744; 73792; 77888]
  /\ BlockPool.get_total_count (MemoryPool.small_pool_ scenario_pool) = 5%nat
  /\ MemoryPool.small_pool_hits (MemoryPool.get_statistics scenario_pool) = 5
  /\ MemoryPool.direct_allocations (MemoryPool.get_statistics scenario_pool) = 1
  /\ MemoryPool.current_usage (MemoryPool.get_statistics scenario_pool) = 4500
  /\ match scenario_released with
     | Done mp' _ =>
         MemoryPool.current_usage (MemoryPool.get_statistics mp') = 2 ^ 64 - 2620
         /\ MemoryPool.current_usage (MemoryPool.get_statistics mp') <> 0
         /\ MemoryPool.total_allocated (MemoryPool.get_statistics mp') = 4500
         /\ MemoryPool.total_deallocated (MemoryPool.get_statistics mp') = 7120
     | _ => False
     end.
Proof.
  split; [vm_compute; reflexivity |].
  split; [vm_compute; reflexivity |].
  split; [vm_compute; reflexivity |].
  split; [vm_compute; reflexivity |].
  split; [vm_compute; reflexivity |].
  split; [vm_compute; reflexivity |].
  split; [vm_compute; reflexivity |].
  split; [vm_compute; reflexivity |].
  vm_compute.
  split; [reflexivity |].
  split; [discriminate |].
  split; reflexivity.
Qed.

(* ===================================================================== *)
(** * Further properties of the code *)
(* ===================================================================== *)

(** ** AlignedAllocator: the alignment test *)

(** A positive number that shares no bit with its predecessor is a power
    of two. *)
Lemma land_pred_zero_pow2 a :
  0 < a -> Z.land a (a - 1) = 0 -> a = 2 ^ Z.log2 a.
Proof.
  intros Ha Hland.
  destruct (Z.log2_spec a Ha) as [Hlow Hhigh].
  destruct (Z.eq_dec a (2 ^ Z.log2 a)) as [Heq | Hne]; [exact Heq | exfalso].
  assert (Hlog : Z.log2 (a - 1) = Z.log2 a).
  { apply Z.log2_unique; [apply Z.log2_nonneg | lia]. }
  assert (Hbit : Z.testbit (Z.land a (a - 1)) (Z.log2 a) = true).
  { rewrite Z.land_spec, Z.bit_log2 by lia.
    rewrite <- Hlog. rewrite Z.bit_log2; [reflexivity |].
    pose proof (Z.pow_pos_nonneg 2 (Z.log2 a) ltac:(lia) (Z.log2_nonneg a)). lia. }
  rewrite Hland, Z.bits_0 in Hbit. discriminate.
Qed.

(** X1.  On a [size_t] value the test
    [alignment == 0 || (alignment & (alignment - 1)) != 0] of
    [AlignedAllocator::allocate] lets through the powers of two and nothing
    else. *)
Theorem alignment_test_exact (A : Z) :
  0 <= A < word_modulus ->
  AlignedAllocator.invalid_alignment A = false
  <-> exists k, 0 <= k < 64 /\ A = 2 ^ k.
Proof.
  intros HA. split.
  - unfold AlignedAllocator.invalid_alignment. intros Hok.
    apply orb_false_iff in Hok. destruct Hok as [Hnz Hland].
    apply Z.eqb_neq in Hnz. apply negb_false_iff, Z.eqb_eq in Hland.
    rewrite wrap_small in Hland by lia.
    exists (Z.log2 A). split.
    + split; [apply Z.log2_nonneg |].
      apply Z.log2_lt_pow2; [lia | apply HA].
    + apply land_pred_zero_pow2; [lia | exact Hland].
  - intros (k & Hk & ->). apply power_of_two_accepted, Hk.
Qed.

Lemma alignment_test_exact_witness :
  AlignedAllocator.invalid_alignment 64 = false
  <-> exists k, 0 <= k < 64 /\ 64 = 2 ^ k.
Proof.
  apply (alignment_test_exact 64). unfold word_modulus. lia.
Defined.

(** X2.  [allocate] with an alignment that is not a power of two returns
    null and does nothing but log the error: [malloc] is not called, and the
    counters, the headers and the tracker are as before. *)
Theorem allocate_rejects_bad_alignment (S A : Z) (w : World) :
  0 <= A < word_modulus ->
  (forall k, 0 <= k < 64 -> A <> 2 ^ k) ->
  AlignedAllocator.allocate S A w
  = (nullptr, emit ERROR AlignedAllocator.LOG_TAG (InvalidAlignment A) w).
Proof.
  intros HA Hnot. unfold AlignedAllocator.allocate.
  destruct (AlignedAllocator.invalid_alignment A) eqn:Hinv; [reflexivity | exfalso].
  unfold AlignedAllocator.invalid_alignment in Hinv.
  apply orb_false_iff in Hinv. destruct Hinv as [Hnz Hland].
  apply Z.eqb_neq in Hnz. apply negb_false_iff, Z.eqb_eq in Hland.
  rewrite wrap_small in Hland by lia.
  apply (Hnot (Z.log2 A)).
  - split; [apply Z.log2_nonneg |].
    apply Z.log2_lt_pow2; [lia | apply HA].
  - apply land_pred_zero_pow2; [lia | exact Hland].
Qed.

Lemma allocate_rejects_bad_alignment_witness :
  AlignedAllocator.allocate 1024 33 (World_init [65536])
  = (nullptr, emit ERROR AlignedAllocator.LOG_TAG (InvalidAlignment 33)
                (World_init [65536])).
Proof.
  apply (allocate_rejects_bad_alignment 1024 33 (World_init [65536])).
  - unfold word_modulus. lia.
  - intros k Hk Heq.
    assert (Hodd : (2 ^ k) mod 2 = 33 mod 2) by (rewrite Heq; reflexivity).
    destruct (Z.eq_dec k 0) as [-> | Hk0]; [discriminate Heq |].
    replace k with (1 + (k - 1)) in Hodd by lia.
    rewrite Z.pow_add_r in Hodd by lia.
    rewrite Z.mul_comm, Z_mod_mult in Hodd. discriminate Hodd.
Defined.

(** ** AlignedAllocator: effects of [allocate] and [deallocate] *)

Lemma wrap_add_sub t s : 0 <= t < word_modulus -> wrap (wrap (t + s) - s) = t.
Proof.
  intros Ht. unfold wrap. rewrite Zminus_mod_idemp_l.
  replace (t + s - s) with t by lia. apply Z.mod_small, Ht.
Qed.

Lemma wrap_wrap_add a b : wrap (wrap a + b) = wrap (a + b).
Proof. unfold wrap. apply Zplus_mod_idemp_l. Qed.

Lemma wrap_wrap_sub a b : wrap (wrap a - b) = wrap (a - b).
Proof. unfold wrap. apply Zminus_mod_idemp_l. Qed.

(** [track_allocation] leaves the C heap and the allocator's counters
    alone. *)
Lemma track_allocation_heap p s a tag w :
  heap (MemoryTracker.track_allocation p s a tag w) = heap w.
Proof.
  unfold MemoryTracker.track_allocation, MemoryTracker.update_peak_memory. cbn.
  destruct (negb (enabled_ (tracker w)) || (p =? nullptr)); [reflexivity |].
  cbn. destruct (_ <? _); reflexivity.
Qed.

Lemma track_allocation_counters p s a tag w :
  counters (MemoryTracker.track_allocation p s a tag w) = counters w.
Proof.
  unfold MemoryTracker.track_allocation, MemoryTracker.update_peak_memory. cbn.
  destruct (negb (enabled_ (tracker w)) || (p =? nullptr)); [reflexivity |].
  cbn. destruct (_ <? _); reflexivity.
Qed.

Lemma track_deallocation_counters p w :
  counters (MemoryTracker.track_deallocation p w) = counters w.
Proof.
  unfold MemoryTracker.track_deallocation. cbn.
  destruct (negb (enabled_ (tracker w)) || (p =? nullptr)); [reflexivity |].
  destruct (allocations_ (tracker w) !! p); reflexivity.
Qed.

(** What a call of [allocate] that returned a pointer has done to the
    heap and to the counters. *)
Lemma allocate_nonnull_effects S A w p w' :
  AlignedAllocator.allocate S A w = (p, w') -> p <> nullptr ->
  (exists raw A',
      headers (heap w') !! wrap (p - header_size)
      = Some {| raw_ptr := raw; size := S; alignment := A'; magic := MAGIC_NUMBER |})
  /\ total_allocated_ (counters w') = wrap (total_allocated_ (counters w) + S)
  /\ allocation_count_ (counters w') = wrap (allocation_count_ (counters w) + 1)
  /\ peak_allocated_ (counters w')
     = Z.max (peak_allocated_ (counters w)) (wrap (total_allocated_ (counters w) + S))
  /\ total_deallocated_ (counters w') = total_deallocated_ (counters w).
Proof.
  unfold AlignedAllocator.allocate.
  destruct (AlignedAllocator.invalid_alignment A); [intros [= <- _]; done |].
  unfold AlignedAllocator.malloc.
  destruct (malloc_answers (heap w)) as [| raw rest]; cbn [fst snd].
  { change (nullptr =? nullptr) with true. cbv iota. intros [= <- _]; done. }
  destruct (raw =? nullptr); [intros [= <- _]; done |].
  set (A' := if A <? header_size then header_size else A).
  intros [= <- <-] Hp. cbn [heap counters emit set_log].
  rewrite track_allocation_heap, track_allocation_counters.
  unfold AlignedAllocator.update_peak_memory. cbn.
  destruct (Z.ltb_spec (peak_allocated_ (counters w))
              (wrap (total_allocated_ (counters w) + S))); cbn.
  - split; [do 2 eexists; apply lookup_insert_eq |]. repeat split; lia.
  - split; [do 2 eexists; apply lookup_insert_eq |]. repeat split; lia.
Qed.

(** [allocate] never lowers the peak. *)
Lemma allocate_peak_monotone S A w :
  peak_allocated_ (counters w)
  <= peak_allocated_ (counters (AlignedAllocator.allocate S A w).2).
Proof.
  unfold AlignedAllocator.allocate.
  destruct (AlignedAllocator.invalid_alignment A); [cbn; lia |].
  unfold AlignedAllocator.malloc.
  destruct (malloc_answers (heap w)) as [| raw rest]; cbn [fst snd].
  { change (nullptr =? nullptr) with true. cbn. lia. }
  destruct (raw =? nullptr); [cbn; lia |].
  cbn [snd counters emit set_log]. rewrite track_allocation_counters.
  unfold AlignedAllocator.update_peak_memory. cbn.
  destruct (Z.ltb_spec (peak_allocated_ (counters w))
              (wrap (total_allocated_ (counters w) + S))); cbn; lia.
Qed.

(** [deallocate] leaves the peak as it is, however it ends. *)
Lemma deallocate_peak_unchanged p w w' :
  final_world (AlignedAllocator.deallocate p w) = Some w' ->
  peak_allocated_ (counters w') = peak_allocated_ (counters w).
Proof.
  unfold AlignedAllocator.deallocate.
  destruct (p =? nullptr); [intros [= <-]; reflexivity |].
  destruct (headers (heap w) !! wrap (p - header_size)) as [h |]; [| discriminate].
  destruct (negb (magic h =? MAGIC_NUMBER)).
  - destruct (magic h =? FREED_MAGIC); intros [= <-]; reflexivity.
  - intros [= <-]. cbn. rewrite track_deallocation_counters. reflexivity.
Qed.

(** X3.  When [malloc] fails ([allocate] is given a valid alignment),
    [allocate] returns null; the counters, the headers, the tracker and its
    call history are as before. *)
Theorem allocate_malloc_failure (S k : Z) (w : World) :
  0 <= k < 64 ->
  hd nullptr (malloc_answers (heap w)) = nullptr ->
  (AlignedAllocator.allocate S (2 ^ k) w).1 = nullptr
  /\ counters (AlignedAllocator.allocate S (2 ^ k) w).2 = counters w
  /\ headers (heap (AlignedAllocator.allocate S (2 ^ k) w).2) = headers (heap w)
  /\ tracker (AlignedAllocator.allocate S (2 ^ k) w).2 = tracker w
  /\ calls (AlignedAllocator.allocate S (2 ^ k) w).2 = calls w.
Proof.
  intros Hk Hfail. unfold AlignedAllocator.allocate.
  rewrite power_of_two_accepted by exact Hk.
  unfold AlignedAllocator.malloc.
  destruct (malloc_answers (heap w)) as [| raw rest]; cbn in Hfail.
  - change (nullptr =? nullptr) with true. cbn. repeat split.
  - subst raw. change (nullptr =? nullptr) with true. cbn. repeat split.
Qed.

Lemma allocate_malloc_failure_witness :
  (AlignedAllocator.allocate 100 (2 ^ 6) (World_init [])).1 = nullptr
  /\ counters (AlignedAllocator.allocate 100 (2 ^ 6) (World_init [])).2
     = counters (World_init [])
  /\ headers (heap (AlignedAllocator.allocate 100 (2 ^ 6) (World_init [])).2)
     = headers (heap (World_init []))
  /\ tracker (AlignedAllocator.allocate 100 (2 ^ 6) (World_init [])).2
     = tracker (World_init [])
  /\ calls (AlignedAllocator.allocate 100 (2 ^ 6) (World_init [])).2
     = calls (World_init []).
Proof.
  apply (allocate_malloc_failure 100 6 (World_init [])); [lia | reflexivity].
Defined.

(** X4.  Layout of a successful allocation.  When [malloc] answers a block
    of the size asked for that lies inside the address space, the pointer
    [allocate] returns is aligned to the effective alignment, leaves room for
    the header between the start of the block and itself, and the [S] payload
    bytes from it on end inside the block; the header stored just before it
    records the raw pointer, the size and the effective alignment, and reads
    [MAGIC_NUMBER]. *)
Theorem allocate_layout (S k raw p : Z) (rest : list Z) (w w' : World) :
  0 <= k < 64 -> 0 <= S ->
  malloc_answers (heap w) = raw :: rest -> 0 < raw ->
  raw + (S + 2 ^ Z.max k 5 + header_size) <= word_modulus ->
  AlignedAllocator.allocate S (2 ^ k) w = (p, w') ->
  raw + header_size <= p
  /\ p + S <= raw + (S + 2 ^ Z.max k 5 + header_size)
  /\ p mod 2 ^ Z.max k 5 = 0
  /\ headers (heap w') !! (p - header_size)
     = Some {| raw_ptr := raw; size := S; alignment := 2 ^ Z.max k 5;
               magic := MAGIC_NUMBER |}
  /\ malloc_answers (heap w') = rest.
Proof.
  intros Hk HS Hans Hraw Hfit Halloc.
  assert (HK : 0 <= Z.max k 5 < 64) by lia.
  pose proof (pow2_lt_word _ HK) as Hp2.
  assert (Hh : header_size = 32) by reflexivity.
  pose proof (allocate_in_block S k w raw rest Hk Hans Hraw ltac:(lia)) as Hin.
  rewrite Halloc in Hin. cbn [fst] in Hin.
  split; [lia |]. split; [lia |].
  revert Halloc. unfold AlignedAllocator.allocate.
  rewrite power_of_two_accepted by exact Hk.
  rewrite effective_alignment_pow2 by exact Hk.
  unfold AlignedAllocator.malloc. rewrite Hans.
  destruct (Z.eqb_spec raw nullptr) as [H0 | _]; [unfold nullptr in H0; lia |].
  intros [= <- <-]. split; [apply align_up_aligned, HK |].
  cbn [heap emit set_log]. rewrite track_allocation_heap.
  unfold AlignedAllocator.update_peak_memory. cbn.
  fold (AlignedAllocator.align_up (wrap (raw + header_size)) (2 ^ Z.max k 5)) in *.
  set (p := AlignedAllocator.align_up (wrap (raw + header_size)) (2 ^ Z.max k 5)) in *.
  assert (Hw : wrap (p - header_size) = p - header_size)
    by (apply wrap_small; lia).
  destruct (_ <? _); cbn; rewrite Hw; split;
    first [apply lookup_insert_eq | reflexivity].
Qed.

Lemma allocate_layout_witness :
  65536 + header_size <= 65600
  /\ 65600 + 100 <= 65536 + (100 + 2 ^ Z.max 6 5 + header_size)
  /\ 65600 mod 2 ^ Z.max 6 5 = 0
  /\ headers (heap one_allocation) !! (65600 - header_size)
     = Some {| raw_ptr := 65536; size := 100; alignment := 2 ^ Z.max 6 5;
               magic := MAGIC_NUMBER |}
  /\ malloc_answers (heap one_allocation) = [].
Proof.
  apply (allocate_layout 100 6 65536 65600 [] (World_init [65536]) one_allocation).
  - lia.
  - lia.
  - reflexivity.
  - lia.
  - vm_compute. discriminate.
  - vm_compute. reflexivity.
Defined.

(** X5.  [allocate] has no test on the size: a request of zero bytes, like
    any other, is served when the alignment is a power of two and [malloc]
    answers a block inside the address space.  The result is non-null, the
    allocation count goes up by one, the total by the size, and the peak
    becomes the larger of the old peak and the new total. *)
Theorem allocate_serves_any_size (S k raw : Z) (rest : list Z) (w : World) :
  0 <= k < 64 -> 0 <= S ->
  malloc_answers (heap w) = raw :: rest -> 0 < raw ->
  raw + header_size + 2 ^ Z.max k 5 <= word_modulus ->
  (AlignedAllocator.allocate S (2 ^ k) w).1 <> nullptr
  /\ allocation_count_ (counters (AlignedAllocator.allocate S (2 ^ k) w).2)
     = wrap (allocation_count_ (counters w) + 1)
  /\ total_allocated_ (counters (AlignedAllocator.allocate S (2 ^ k) w).2)
     = wrap (total_allocated_ (counters w) + S)
  /\ peak_allocated_ (counters (AlignedAllocator.allocate S (2 ^ k) w).2)
     = Z.max (peak_allocated_ (counters w)) (wrap (total_allocated_ (counters w) + S)).
Proof.
  intros Hk HS Hans Hraw Hfit.
  pose proof (allocate_in_block S k w raw rest Hk Hans Hraw Hfit) as Hin.
  assert (Hh : header_size = 32) by reflexivity.
  assert (Hnn : (AlignedAllocator.allocate S (2 ^ k) w).1 <> nullptr)
    by (unfold nullptr; lia).
  split; [exact Hnn |].
  destruct (AlignedAllocator.allocate S (2 ^ k) w) as [p w'] eqn:Halloc.
  destruct (allocate_nonnull_effects S (2 ^ k) w p w' Halloc Hnn)
    as (_ & Ht & Hc & Hpk & _).
  cbn [fst snd]. repeat split; assumption.
Qed.

Lemma allocate_serves_any_size_witness :
  (AlignedAllocator.allocate 0 (2 ^ 6) (World_init [65536])).1 <> nullptr
  /\ allocation_count_ (counters (AlignedAllocator.allocate 0 (2 ^ 6) (World_init [65536])).2)
     = wrap (allocation_count_ (counters (World_init [65536])) + 1)
  /\ total_allocated_ (counters (AlignedAllocator.allocate 0 (2 ^ 6) (World_init [65536])).2)
     = wrap (total_allocated_ (counters (World_init [65536])) + 0)
  /\ peak_allocated_ (counters (AlignedAllocator.allocate 0 (2 ^ 6) (World_init [65536])).2)
     = Z.max (peak_allocated_ (counters (World_init [65536])))
         (wrap (total_allocated_ (counters (World_init [65536])) + 0)).
Proof.
  apply (allocate_serves_any_size 0 6 65536 [] (World_init [65536])).
  - lia.
  - lia.
  - reflexivity.
  - lia.
  - vm_compute. discriminate.
Defined.



(** X6.  Round trip.  A pointer returned by [allocate] can be given to
    [deallocate], which returns; the total and the count of live allocations
    are back at their values before the allocation, the total of
    deallocated bytes has grown by the size, the block has been given back
    together with its header (no header is left to read before the
    pointer), and, with tracking on, the ledger has no entry for the
    pointer. *)
Theorem allocate_deallocate_roundtrip (S A p : Z) (w w1 : World) :
  AlignedAllocator.allocate S A w = (p, w1) -> p <> nullptr ->
  0 <= total_allocated_ (counters w) < word_modulus ->
  0 <= allocation_count_ (counters w) < word_modulus ->
  exists w2,
    AlignedAllocator.deallocate p w1 = Done tt w2
    /\ total_allocated_ (counters w2) = total_allocated_ (counters w)
    /\ allocation_count_ (counters w2) = allocation_count_ (counters w)
    /\ total_deallocated_ (counters w2) = wrap (total_deallocated_ (counters w) + S)
    /\ headers (heap w2) !! wrap (p - header_size) = None
    /\ (enabled_ (tracker w1) = true -> allocations_ (tracker w2) !! p = None).
Proof.
  intros Halloc Hp Ht Hc.
  destruct (allocate_nonnull_effects S A w p w1 Halloc Hp)
    as ((raw & A' & Hh) & Ht1 & Hc1 & _ & Hd1).
  destruct (deallocate_alive_returns p w1 _ Hh eq_refl) as [w2 Hdone].
  exists w2. split; [exact Hdone |].
  pose proof (deallocate_releases_header p w1 w2 Hp Hdone) as Hgone.
  revert Hdone Hgone. unfold AlignedAllocator.deallocate.
  destruct (Z.eqb_spec p nullptr); [done |].
  rewrite Hh. cbn [magic negb size raw_ptr].
  change (MAGIC_NUMBER =? MAGIC_NUMBER) with true. cbn [negb].
  intros [= <-] Hgone.
  refine (conj _ (conj _ (conj _ (conj Hgone _)))).
  - cbn. rewrite track_deallocation_counters. cbn.
    rewrite Ht1. apply wrap_add_sub, Ht.
  - cbn. rewrite track_deallocation_counters. cbn.
    rewrite Hc1. apply wrap_add_sub, Hc.
  - cbn. rewrite track_deallocation_counters. cbn.
    rewrite Hd1. reflexivity.
  - intros Hen. unfold MemoryTracker.track_deallocation. cbn.
    rewrite Hen. destruct (Z.eqb_spec p nullptr); [done |]. cbn.
    destruct (allocations_ (tracker w1) !! p) eqn:Hl; cbn.
    + apply lookup_delete_eq.
    + exact Hl.
Qed.

Lemma allocate_deallocate_roundtrip_witness :
  exists w2,
    AlignedAllocator.deallocate 65600 one_allocation = Done tt w2
    /\ total_allocated_ (counters w2) = total_allocated_ (counters (World_init [65536]))
    /\ allocation_count_ (counters w2) = allocation_count_ (counters (World_init [65536]))
    /\ total_deallocated_ (counters w2)
       = wrap (total_deallocated_ (counters (World_init [65536])) + 100)
    /\ headers (heap w2) !! wrap (65600 - header_size) = None
    /\ (enabled_ (tracker one_allocation) = true ->
        allocations_ (tracker w2) !! 65600 = None).
Proof.
  apply (allocate_deallocate_roundtrip 100 64 65600 (World_init [65536]) one_allocation).
  - vm_compute. reflexivity.
  - unfold nullptr. lia.
  - vm_compute. split; [discriminate | reflexivity].
  - vm_compute. split; [discriminate | reflexivity].
Defined.

(** X7.  Along any sequence of [allocate] and [deallocate] calls, up to and
    including a call that aborts, the peak counter never goes down; right
    after an allocation that returned a pointer it is at least the total. *)
Theorem allocator_peak_monotone (ops : list AllocatorOp) (w w' : World) :
  final_world (allocator_run ops w) = Some w' ->
  peak_allocated_ (counters w) <= peak_allocated_ (counters w')
  /\ forall S A,
       (AlignedAllocator.allocate S A w').1 <> nullptr ->
       total_allocated_ (counters (AlignedAllocator.allocate S A w').2)
       <= peak_allocated_ (counters (AlignedAllocator.allocate S A w').2).
Proof.
  intros Hrun. split.
  - revert w Hrun. induction ops as [| o ops IH]; intros w Hrun.
    + cbn in Hrun. injection Hrun as <-. lia.
    + destruct o as [S A | p]; cbn in Hrun.
      * specialize (IH _ Hrun).
        pose proof (allocate_peak_monotone S A w). lia.
      * destruct (AlignedAllocator.deallocate p w) as [[] w1 | w1 |] eqn:Hd.
        -- specialize (IH _ Hrun).
           assert (H1 : final_world (AlignedAllocator.deallocate p w) = Some w1)
             by (rewrite Hd; reflexivity).
           apply deallocate_peak_unchanged in H1. lia.
        -- cbn in Hrun. injection Hrun as <-.
           assert (H1 : final_world (AlignedAllocator.deallocate p w) = Some w1)
             by (rewrite Hd; reflexivity).
           apply deallocate_peak_unchanged in H1. lia.
        -- discriminate.
  - intros S A Hnn.
    destruct (AlignedAllocator.allocate S A w') as [p w2] eqn:Halloc.
    destruct (allocate_nonnull_effects S A w' p w2 Halloc Hnn)
      as (_ & Ht & _ & Hpk & _).
    cbn [snd]. rewrite Ht, Hpk. lia.
Qed.

Lemma allocator_peak_monotone_witness :
  peak_allocated_ (counters (World_init [65536]))
  <= peak_allocated_ (counters one_allocation_freed)
  /\ forall S A,
       (AlignedAllocator.allocate S A one_allocation_freed).1 <> nullptr ->
       total_allocated_ (counters (AlignedAllocator.allocate S A one_allocation_freed).2)
       <= peak_allocated_ (counters (AlignedAllocator.allocate S A one_allocation_freed).2).
Proof.
  assert (Hrun : final_world
                   (allocator_run [OpAllocate 100 64; OpDeallocate 65600]
                      (World_init [65536]))
                 = Some one_allocation_freed) by (vm_compute; reflexivity).
  pose proof (allocator_peak_monotone _ _ _ Hrun) as [H1 H2].
  split; [exact H1 | exact H2].
Defined.

(** X8.  [deallocate] stops the process for every header that does not read
    [MAGIC_NUMBER], whether it reads [FREED_MAGIC] or anything else; nothing
    has been done by then but log one error line: the counters, the
    tracker, its call history and the heap are as before. *)
Theorem deallocate_bad_magic_aborts (p : Z) (w : World) (h : AllocationHeader) :
  p <> nullptr ->
  headers (heap w) !! wrap (p - header_size) = Some h ->
  magic h <> MAGIC_NUMBER ->
  AlignedAllocator.deallocate p w
  = Aborted (emit ERROR AlignedAllocator.LOG_TAG
               (if magic h =? FREED_MAGIC then DoubleFreeDetected p
                else CorruptionDetected p (magic h)) w).
Proof.
  intros Hp Hh Hm. unfold AlignedAllocator.deallocate.
  destruct (Z.eqb_spec p nullptr); [done |].
  rewrite Hh. destruct (Z.eqb_spec (magic h) MAGIC_NUMBER); [done |].
  cbn [negb]. destruct (magic h =? FREED_MAGIC); reflexivity.
Qed.

Lemma deallocate_bad_magic_aborts_witness :
  AlignedAllocator.deallocate 65600 one_allocation_corrupted
  = Aborted (emit ERROR AlignedAllocator.LOG_TAG (CorruptionDetected 65600 0)
               one_allocation_corrupted).
Proof.
  apply (deallocate_bad_magic_aborts 65600 one_allocation_corrupted
           {| raw_ptr := 65536; size := 100; alignment := 64; magic := 0 |}).
  - unfold nullptr. lia.
  - vm_compute. reflexivity.
  - discriminate.
Defined.

(** ** MemoryTracker: [track_allocation] and its companions *)

(** The tracker after a [track_allocation] that was not ignored. *)
Lemma track_allocation_tracker p S a tag w :
  enabled_ (tracker w) = true -> p <> nullptr ->
  tracker (MemoryTracker.track_allocation p S a tag w)
  = {| allocations_ :=
         <[p := {| info_size := S; info_alignment := a; info_tag := tag;
                   info_timestamp := clock w; info_stack_depth := 0 |}]>
           (allocations_ (tracker w));
       stats_ :=
         {| total_allocations := wrap (total_allocations (stats_ (tracker w)) + 1);
            total_deallocations := total_deallocations (stats_ (tracker w));
            current_allocated := wrap (current_allocated (stats_ (tracker w)) + S);
            peak_allocated :=
              Z.max (peak_allocated (stats_ (tracker w)))
                (wrap (current_allocated (stats_ (tracker w)) + S));
            total_bytes_allocated :=
              wrap (total_bytes_allocated (stats_ (tracker w)) + S);
            total_bytes_deallocated := total_bytes_deallocated (stats_ (tracker w));
            allocations_by_tag :=
              if String.eqb tag ""
              then allocations_by_tag (stats_ (tracker w))
              else <[tag := wrap (default 0 (allocations_by_tag (stats_ (tracker w))
                                             !! tag) + S)]>
                     (allocations_by_tag (stats_ (tracker w))) |};
       enabled_ := true |}.
Proof.
  intros Hen Hp. unfold MemoryTracker.track_allocation. cbn.
  rewrite Hen. destruct (Z.eqb_spec p nullptr); [done |]. cbn.
  unfold MemoryTracker.update_peak_memory. cbn.
  destruct (Z.ltb_spec (peak_allocated (stats_ (tracker w)))
              (wrap (current_allocated (stats_ (tracker w)) + S))); cbn.
  - rewrite Z.max_r by lia. reflexivity.
  - rewrite Z.max_l by lia. reflexivity.
Qed.

(** X9.  With tracking on, [track_allocation] of a non-null pointer makes
    the ledger answer for that pointer with the size, alignment and tag just
    given, whether or not the pointer was there before, and leaves every
    other entry alone; the number of allocations goes up by one, current and
    total-allocated bytes by the size, the peak becomes the larger of the old
    peak and the new current bytes, and a non-empty tag has the size added to
    its total. *)
Theorem track_allocation_records (p S a : Z) (tag : string) (w : World) :
  enabled_ (tracker w) = true -> p <> nullptr ->
  let t := tracker w in
  let t' := tracker (MemoryTracker.track_allocation p S a tag w) in
  (exists info, allocations_ t' !! p = Some info
                /\ info_size info = S /\ info_alignment info = a
                /\ info_tag info = tag)
  /\ (forall q, q <> p -> allocations_ t' !! q = allocations_ t !! q)
  /\ total_allocations (stats_ t') = wrap (total_allocations (stats_ t) + 1)
  /\ current_allocated (stats_ t') = wrap (current_allocated (stats_ t) + S)
  /\ total_bytes_allocated (stats_ t') = wrap (total_bytes_allocated (stats_ t) + S)
  /\ peak_allocated (stats_ t')
     = Z.max (peak_allocated (stats_ t)) (current_allocated (stats_ t'))
  /\ (forall key,
        allocations_by_tag (stats_ t') !! key
        = if decide (key = tag /\ tag <> "")
          then Some (wrap (default 0 (allocations_by_tag (stats_ t) !! key) + S))
          else allocations_by_tag (stats_ t) !! key).
Proof.
  intros Hen Hp. cbv zeta.
  rewrite (track_allocation_tracker p S a tag w Hen Hp). cbn.
  split; [eexists; split; [apply lookup_insert_eq | repeat split] |].
  split; [intros q Hq; apply lookup_insert_ne; congruence |].
  repeat (split; [reflexivity |]).
  intros key. destruct (String.eqb_spec tag "") as [He | Hne].
  - rewrite decide_False by (intros [_ H]; done). reflexivity.
  - destruct (decide (key = tag /\ tag <> "")) as [[-> _] | Hk].
    + apply lookup_insert_eq.
    + apply lookup_insert_ne. intros ->. apply Hk. split; [reflexivity | exact Hne].
Qed.

Lemma track_allocation_records_witness :
  (exists info, allocations_ (tracker tracked_once) !! 4096 = Some info
                /\ info_size info = 100 /\ info_alignment info = 64
                /\ info_tag info = "x")
  /\ current_allocated (stats_ (tracker tracked_once)) = 100.
Proof.
  pose proof (track_allocation_records 4096 100 64 "x" (World_init [])) as H.
  cbv zeta in H.
  destruct H as (Hinfo & _ & _ & Hcur & _); [reflexivity | unfold nullptr; lia |].
  split; [exact Hinfo |].
  unfold tracked_once. rewrite Hcur. reflexivity.
Defined.

(** With tracking off, or for the null pointer, [track_allocation] records
    nothing. *)
Lemma track_allocation_ignored p S a tag w :
  enabled_ (tracker w) = false \/ p = nullptr ->
  MemoryTracker.track_allocation p S a tag w = note (CallTrackAllocation p) w.
Proof.
  intros Hoff. unfold MemoryTracker.track_allocation. cbn.
  destruct Hoff as [-> | ->]; [reflexivity |].
  rewrite orb_true_r. reflexivity.
Qed.

(** X10.  An allocation reported while tracking is off leaves no trace:
    the tracker is as before and [detect_leaks] does not list the pointer.
    When tracking is switched on again and the deallocation of that pointer
    is reported, the tracker logs the untracked-pointer warning and its
    ledger and statistics stay as they were: nothing is subtracted. *)
Theorem untracked_while_disabled (p S a : Z) (tag : string) (w : World) :
  enabled_ (tracker w) = false -> p <> nullptr ->
  allocations_ (tracker w) !! p = None ->
  let w1 := MemoryTracker.track_allocation p S a tag w in
  let w2 := MemoryTracker.track_deallocation p (MemoryTracker.set_enabled true w1) in
  tracker w1 = tracker w
  /\ (p ∉ (MemoryTracker.detect_leaks w1).1)
  /\ allocations_ (tracker w2) = allocations_ (tracker w)
  /\ stats_ (tracker w2) = stats_ (tracker w)
  /\ log w2 = {| line_level := WARN; line_tag := MemoryTracker.LOG_TAG;
                 line_msg := UntrackedPointer p |} :: log w.
Proof.
  intros Hoff Hp Hnone. cbv zeta.
  rewrite (track_allocation_ignored p S a tag w (or_introl Hoff)).
  split; [reflexivity |].
  split.
  - rewrite detect_leaks_spec. cbn. rewrite Hnone. intros [? ?]. discriminate.
  - unfold MemoryTracker.track_deallocation. cbn.
    destruct (Z.eqb_spec p nullptr); [done |]. cbn.
    rewrite Hnone. cbn. repeat split.
Qed.

Lemma untracked_while_disabled_witness :
  tracker (MemoryTracker.track_allocation 8192 10 64 "y" tracked_then_disabled)
  = tracker tracked_then_disabled
  /\ 8192 ∉ ((MemoryTracker.detect_leaks
                (MemoryTracker.track_allocation 8192 10 64 "y" tracked_then_disabled)).1).
Proof.
  pose proof (untracked_while_disabled 8192 10 64 "y" tracked_then_disabled) as H.
  cbv zeta in H.
  destruct H as (H1 & H2 & _);
    [reflexivity | unfold nullptr; lia | vm_compute; reflexivity |].
  split; [exact H1 | exact H2].
Defined.

(** X11.  Round trip.  With tracking on, reporting the allocation of a
    pointer the ledger does not hold and then its deallocation gives back the
    ledger, the current bytes and the per-tag totals of before; both call
    counts have gone up by one.  (The per-tag totals come back provided the
    tag had no total, or a total other than zero, before.) *)
Theorem track_roundtrip (p S a : Z) (tag : string) (w : World) :
  enabled_ (tracker w) = true -> p <> nullptr ->
  allocations_ (tracker w) !! p = None ->
  0 <= current_allocated (stats_ (tracker w)) < word_modulus ->
  (forall v, allocations_by_tag (stats_ (tracker w)) !! tag = Some v ->
             0 < v < word_modulus) ->
  let t := tracker w in
  let t' := tracker (MemoryTracker.track_deallocation p
                       (MemoryTracker.track_allocation p S a tag w)) in
  allocations_ t' = allocations_ t
  /\ current_allocated (stats_ t') = current_allocated (stats_ t)
  /\ allocations_by_tag (stats_ t') = allocations_by_tag (stats_ t)
  /\ total_allocations (stats_ t') = wrap (total_allocations (stats_ t) + 1)
  /\ total_deallocations (stats_ t') = wrap (total_deallocations (stats_ t) + 1)
  /\ total_bytes_deallocated (stats_ t')
     = wrap (total_bytes_deallocated (stats_ t) + S).
Proof.
  intros Hen Hp Hnone Hcur Htag. cbv zeta.
  pose proof (track_allocation_tracker p S a tag w Hen Hp) as Ht1.
  unfold MemoryTracker.track_deallocation. cbn.
  rewrite Ht1. cbn. destruct (Z.eqb_spec p nullptr); [done |]. cbn.
  rewrite lookup_insert_eq. cbn.
  split; [apply delete_insert_id, Hnone |].
  split; [apply wrap_add_sub, Hcur |].
  split; [| repeat split].
  destruct (String.eqb_spec tag "") as [He | Hne]; [reflexivity |].
  rewrite !lookup_insert_eq. cbn. rewrite insert_insert_eq.
  destruct (allocations_by_tag (stats_ (tracker w)) !! tag) as [v |] eqn:Hv; cbn.
  - specialize (Htag v eq_refl).
    rewrite wrap_add_sub by lia.
    destruct (Z.eqb_spec v 0); [lia |]. apply insert_id, Hv.
  - rewrite wrap_add_sub by (unfold word_modulus; lia).
    cbn. apply delete_insert_id, Hv.
Qed.

Lemma track_roundtrip_witness :
  allocations_ (tracker (MemoryTracker.track_deallocation 8192
                           (MemoryTracker.track_allocation 8192 10 64 "x" tracked_once)))
  = allocations_ (tracker tracked_once)
  /\ current_allocated
       (stats_ (tracker (MemoryTracker.track_deallocation 8192
                           (MemoryTracker.track_allocation 8192 10 64 "x" tracked_once))))
     = current_allocated (stats_ (tracker tracked_once))
  /\ allocations_by_tag
       (stats_ (tracker (MemoryTracker.track_deallocation 8192
                           (MemoryTracker.track_allocation 8192 10 64 "x" tracked_once))))
     = allocations_by_tag (stats_ (tracker tracked_once)).
Proof.
  pose proof (track_roundtrip 8192 10 64 "x" tracked_once) as H.
  cbv zeta in H.
  destruct H as (H1 & H2 & H3 & _).
  - reflexivity.
  - unfold nullptr. lia.
  - vm_compute. reflexivity.
  - vm_compute. split; [discriminate | reflexivity].
  - intros v Hv. vm_compute in Hv. injection Hv as <-.
    unfold word_modulus. lia.
  - split; [exact H1 | split; [exact H2 | exact H3]].
Defined.

(** X12.  Reporting a second allocation for a pointer that is still in the
    ledger overwrites its entry: the ledger holds the same pointers as
    before, the entry carries the second size and tag, and two allocations
    are counted.  The deallocation reported afterwards removes the entry and
    subtracts the second size only, so the bytes of the first report stay in
    the current total. *)
Theorem track_allocation_overwrite
    (p S1 a1 S2 a2 : Z) (tag1 tag2 : string) (w : World) :
  enabled_ (tracker w) = true -> p <> nullptr ->
  let w1 := MemoryTracker.track_allocation p S1 a1 tag1 w in
  let w2 := MemoryTracker.track_allocation p S2 a2 tag2 w1 in
  let w3 := MemoryTracker.track_deallocation p w2 in
  (exists info, allocations_ (tracker w2) !! p = Some info
                /\ info_size info = S2 /\ info_tag info = tag2)
  /\ dom (allocations_ (tracker w2)) = dom (allocations_ (tracker w1))
  /\ total_allocations (stats_ (tracker w2))
     = wrap (total_allocations (stats_ (tracker w)) + 2)
  /\ allocations_ (tracker w3) !! p = None
  /\ current_allocated (stats_ (tracker w3))
     = wrap (current_allocated (stats_ (tracker w)) + S1).
Proof.
  intros Hen Hp. cbv zeta.
  pose proof (track_allocation_tracker p S1 a1 tag1 w Hen Hp) as Ht1.
  assert (Hen1 : enabled_ (tracker (MemoryTracker.track_allocation p S1 a1 tag1 w))
                 = true) by (rewrite Ht1; reflexivity).
  pose proof (track_allocation_tracker p S2 a2 tag2 _ Hen1 Hp) as Ht2.
  split; [rewrite Ht2; cbn; eexists; split;
          [apply lookup_insert_eq | split; reflexivity] |].
  split.
  { rewrite Ht2. cbn. apply dom_insert_lookup_L.
    rewrite Ht1. cbn. rewrite lookup_insert_eq. eexists; reflexivity. }
  split.
  { rewrite Ht2. cbn. rewrite Ht1. cbn. rewrite wrap_wrap_add. f_equal. lia. }
  unfold MemoryTracker.track_deallocation. cbn.
  rewrite Ht2. cbn. destruct (Z.eqb_spec p nullptr); [done |]. cbn.
  rewrite lookup_insert_eq. cbn. split; [apply lookup_delete_eq |].
  rewrite Ht1. cbn. rewrite wrap_wrap_sub.
  replace (wrap (current_allocated (stats_ (tracker w)) + S1) + S2 - S2)
    with (wrap (current_allocated (stats_ (tracker w)) + S1)) by lia.
  unfold wrap. apply Zmod_mod.
Qed.

Lemma track_allocation_overwrite_witness :
  allocations_
    (tracker (MemoryTracker.track_deallocation 4096
                (MemoryTracker.track_allocation 4096 100 64 "x" tracked_once)))
    !! 4096 = None
  /\ current_allocated
       (stats_ (tracker (MemoryTracker.track_deallocation 4096
                           (MemoryTracker.track_allocation 4096 100 64 "x"
                              tracked_once))))
     = wrap (current_allocated (stats_ (tracker (World_init []))) + 100).
Proof.
  pose proof (track_allocation_overwrite 4096 100 64 100 64 "x" "x" (World_init []))
    as H.
  cbv zeta in H.
  destruct H as (_ & _ & _ & H4 & H5); [reflexivity | unfold nullptr; lia |].
  split; [exact H4 | exact H5].
Defined.

(** X13.  [detect_leaks] returns the pointers of the ledger, each once, and
    leaves the tracker as it is; it logs its warning, with the number of
    pointers, exactly when there is one. *)
Theorem detect_leaks_exact (w : World) :
  NoDup (MemoryTracker.detect_leaks w).1
  /\ (forall p, p ∈ (MemoryTracker.detect_leaks w).1
                <-> is_Some (allocations_ (tracker w) !! p))
  /\ length (MemoryTracker.detect_leaks w).1
     = stdpp.base.size (allocations_ (tracker w))
  /\ tracker (MemoryTracker.detect_leaks w).2 = tracker w
  /\ (allocations_ (tracker w) = ∅ ->
      (MemoryTracker.detect_leaks w).1 = [] /\ (MemoryTracker.detect_leaks w).2 = w)
  /\ (allocations_ (tracker w) <> ∅ ->
      log (MemoryTracker.detect_leaks w).2
      = {| line_level := WARN; line_tag := MemoryTracker.LOG_TAG;
           line_msg := DetectedLeaks
                         (Z.of_nat (stdpp.base.size (allocations_ (tracker w)))) |}
          :: log w).
Proof.
  split; [apply NoDup_fst_map_to_list |].
  split; [intros p; apply detect_leaks_spec |].
  assert (Hlen : length (MemoryTracker.detect_leaks w).1
                 = stdpp.base.size (allocations_ (tracker w))).
  { unfold MemoryTracker.detect_leaks. cbn.
    rewrite length_fmap. apply length_map_to_list. }
  split; [exact Hlen |].
  split; [apply detect_leaks_tracker |].
  unfold MemoryTracker.detect_leaks in *. cbn in *. split.
  - intros Hempty. rewrite Hempty, map_to_list_empty. cbn. split; reflexivity.
  - intros Hne.
    destruct (decide ((map_to_list (allocations_ (tracker w))).*1 = [])) as [Hnil | _].
    + exfalso. apply Hne. apply map_to_list_empty_iff.
      apply fmap_nil_inv in Hnil. exact Hnil.
    + cbn. rewrite Hlen. reflexivity.
Qed.

(** X14.  [clear] forgets every allocation: [detect_leaks] then returns
    nothing, the statistics are those of a new tracker and the enabled flag
    is kept.  The deallocation of a pointer allocated before the [clear],
    reported after it, finds no entry and leaves the statistics at zero. *)
Theorem clear_forgets (p : Z) (w : World) :
  (MemoryTracker.detect_leaks (MemoryTracker.clear w)).1 = []
  /\ stats_ (tracker (MemoryTracker.clear w)) = TrackerStatistics_init
  /\ enabled_ (tracker (MemoryTracker.clear w)) = enabled_ (tracker w)
  /\ tracker (MemoryTracker.track_deallocation p (MemoryTracker.clear w))
     = tracker (MemoryTracker.clear w).
Proof.
  split; [unfold MemoryTracker.detect_leaks; cbn;
          rewrite map_to_list_empty; reflexivity |].
  split; [reflexivity |]. split; [reflexivity |].
  unfold MemoryTracker.track_deallocation. cbn.
  destruct (negb (enabled_ (tracker w)) || (p =? nullptr)); [reflexivity |].
  rewrite lookup_empty. reflexivity.
Qed.

(** ** MemoryTracker: what every run keeps *)

Lemma null_untracked_step o w :
  allocations_ (tracker w) !! nullptr = None ->
  allocations_ (tracker (tracker_step o w)) !! nullptr = None.
Proof.
  intros Hnone. destruct o as [q sz al tag | q | b | |].
  - cbn. unfold MemoryTracker.track_allocation. cbn.
    destruct (enabled_ (tracker w)); cbn; [| exact Hnone].
    destruct (Z.eqb_spec q nullptr) as [-> | Hq]; [exact Hnone |].
    cbn. rewrite update_peak_memory_ledger. cbn.
    rewrite lookup_insert_ne by exact Hq. exact Hnone.
  - cbn. unfold MemoryTracker.track_deallocation. cbn.
    destruct (negb (enabled_ (tracker w)) || (q =? nullptr)); [exact Hnone |].
    destruct (allocations_ (tracker w) !! q); cbn; [| exact Hnone].
    apply lookup_delete_None. right. exact Hnone.
  - exact Hnone.
  - unfold tracker_step. rewrite detect_leaks_tracker. exact Hnone.
  - cbn. apply lookup_empty.
Qed.

(** X15.  The null pointer is never tracked: starting from a ledger without
    an entry for it (an empty one, say), no sequence of [track_allocation],
    [track_deallocation], [set_enabled], [detect_leaks] and [clear] calls
    puts one there, so [detect_leaks] never reports null. *)
Theorem null_never_tracked (ops : list TrackerOp) (w : World) :
  allocations_ (tracker w) !! nullptr = None ->
  allocations_ (tracker (tracker_run ops w)) !! nullptr = None
  /\ (nullptr ∉ (MemoryTracker.detect_leaks (tracker_run ops w)).1).
Proof.
  intros Hnone.
  assert (H : allocations_ (tracker (tracker_run ops w)) !! nullptr = None).
  { revert w Hnone. induction ops as [| o ops IH]; intros w Hnone; [exact Hnone |].
    cbn. apply IH, null_untracked_step, Hnone. }
  split; [exact H |].
  rewrite detect_leaks_spec, H. intros [? ?]. discriminate.
Qed.

Lemma null_never_tracked_witness :
  allocations_
    (tracker (tracker_run [OpTrackAllocation 0 16 64 "z"; OpTrackAllocation 8192 10 64 "y"]
                (World_init [])))
    !! nullptr = None
  /\ (nullptr ∉ (MemoryTracker.detect_leaks
                   (tracker_run [OpTrackAllocation 0 16 64 "z";
                                 OpTrackAllocation 8192 10 64 "y"]
                      (World_init []))).1).
Proof.
  apply (null_never_tracked
           [OpTrackAllocation 0 16 64 "z"; OpTrackAllocation 8192 10 64 "y"]
           (World_init [])).
  reflexivity.
Defined.

Lemma tracker_peak_step o w :
  is_clear o = false ->
  peak_allocated (stats_ (tracker w))
  <= peak_allocated (stats_ (tracker (tracker_step o w))).
Proof.
  intros Hc. destruct o as [q sz al tag | q | b | |]; [| | | | discriminate].
  - destruct (enabled_ (tracker w)) eqn:Hen.
    + destruct (Z.eqb_spec q nullptr) as [-> | Hq].
      * cbn. rewrite track_allocation_ignored by (right; reflexivity). cbn. lia.
      * cbn. rewrite (track_allocation_tracker q sz al tag w Hen Hq). cbn. lia.
    + cbn. rewrite track_allocation_ignored by (left; exact Hen). cbn. lia.
  - cbn. unfold MemoryTracker.track_deallocation. cbn.
    destruct (negb (enabled_ (tracker w)) || (q =? nullptr)); cbn; [lia |].
    destruct (allocations_ (tracker w) !! q);
      unfold MemoryTracker.stats_after_deallocation; cbn; lia.
  - cbn. lia.
  - unfold tracker_step. rewrite detect_leaks_tracker. lia.
Qed.

(** X16.  Short of [clear], no tracker call lowers the peak: along every
    run without a [clear] the tracked peak only grows. *)
Theorem tracker_peak_monotone (ops : list TrackerOp) (w : World) :
  existsb is_clear ops = false ->
  peak_allocated (stats_ (tracker w))
  <= peak_allocated (stats_ (tracker (tracker_run ops w))).
Proof.
  revert w. induction ops as [| o ops IH]; intros w Hc; [cbn; lia |].
  cbn in Hc. apply orb_false_iff in Hc. destruct Hc as [Ho Hops].
  cbn. pose proof (tracker_peak_step o w Ho). specialize (IH (tracker_step o w) Hops).
  lia.
Qed.

Lemma tracker_peak_monotone_witness :
  peak_allocated (stats_ (tracker tracked_once))
  <= peak_allocated
       (stats_ (tracker (tracker_run [OpTrackDeallocation 4096;
                                      OpTrackAllocation 8192 10 64 "y"]
                           tracked_once))).
Proof.
  apply (tracker_peak_monotone
           [OpTrackDeallocation 4096; OpTrackAllocation 8192 10 64 "y"] tracked_once).
  reflexivity.
Defined.

(** ** BlockPool: construction and growth *)

(** [push_block] appends one fresh block, and its position to the
    free-list. *)
Lemma push_block_shape p bp :
  BlockPool.blocks_ (BlockPool.push_block p bp)
  = BlockPool.blocks_ bp ++ [{| BlockPool.data := p; BlockPool.in_use := false |}]
  /\ BlockPool.free_list_ (BlockPool.push_block p bp)
     = BlockPool.free_list_ bp ++ [length (BlockPool.blocks_ bp)]
  /\ BlockPool.block_size_ (BlockPool.push_block p bp) = BlockPool.block_size_ bp
  /\ BlockPool.alignment_ (BlockPool.push_block p bp) = BlockPool.alignment_ bp
  /\ BlockPool.allow_expansion_ (BlockPool.push_block p bp)
     = BlockPool.allow_expansion_ bp.
Proof. repeat split. Qed.

Lemma appended_refl n bp : appended n bp bp.
Proof.
  exists []. rewrite !app_nil_r. cbn. repeat split; [lia | constructor].
Qed.

Lemma appended_push n p bp bp' :
  p <> nullptr ->
  appended n (BlockPool.push_block p bp) bp' -> appended (S n) bp bp'.
Proof.
  intros Hp (new & Hb & Hlen & Hfresh & Hfl & Hbs & Hal & Hex).
  exists ({| BlockPool.data := p; BlockPool.in_use := false |} :: new).
  cbn in *. rewrite length_app in Hfl. cbn in Hfl.
  split; [rewrite Hb, <- app_assoc; reflexivity |].
  split; [lia |].
  split; [constructor; [split; [reflexivity | exact Hp] | exact Hfresh] |].
  split; [| repeat split; assumption].
  rewrite Hfl, <- app_assoc. cbn. do 3 f_equal. lia.
Qed.

Lemma preallocate_appended n i bp w :
  appended n bp (BlockPool.preallocate n i bp w).1.
Proof.
  revert i bp w. induction n as [| n IH]; intros i bp w; cbn;
    [apply appended_refl |].
  destruct (AlignedAllocator.allocate _ _ w) as [p w1].
  destruct (Z.eqb_spec p nullptr) as [| Hp]; [apply appended_refl |].
  apply (appended_push n p); [exact Hp | apply IH].
Qed.

Lemma expand_loop_appended n allocated bp w :
  appended n bp (BlockPool.expand_loop n allocated bp w).1.2.
Proof.
  revert allocated bp w. induction n as [| n IH]; intros allocated bp w; cbn;
    [apply appended_refl |].
  destruct (AlignedAllocator.allocate _ _ w) as [p w1].
  destruct (Z.eqb_spec p nullptr) as [| Hp]; [apply appended_refl |].
  apply (appended_push n p); [exact Hp | apply IH].
Qed.

Lemma fresh_blocks_unleased (bs : list BlockPool.Block) :
  Forall fresh_block bs ->
  length (filter (fun b => BlockPool.in_use b = true) bs) = 0%nat.
Proof.
  induction 1 as [| b bs [Hu _] _ IH]; [reflexivity |].
  rewrite leased_cons. unfold flag_weight. rewrite Hu. exact IH.
Qed.

(** X17.  A pool as its constructor leaves it holds at most
    [initial_count] blocks (fewer when an allocation failed on the way);
    every block has a payload and is free, the free-list holds their
    positions in order of creation, and the block size, alignment and
    expansion flag are those given. *)
Theorem make_all_free
    (block_size initial_count alignment : Z) (allow_expansion : bool) (w : World) :
  let bp := (BlockPool.make block_size initial_count alignment allow_expansion w).1 in
  (BlockPool.get_total_count bp <= Z.to_nat initial_count)%nat
  /\ Forall fresh_block (BlockPool.blocks_ bp)
  /\ BlockPool.free_list_ bp = seq 0 (BlockPool.get_total_count bp)
  /\ BlockPool.in_use_count bp = 0%nat
  /\ BlockPool.block_size_ bp = block_size
  /\ BlockPool.alignment_ bp = alignment
  /\ BlockPool.allow_expansion_ bp = allow_expansion.
Proof.
  cbv zeta. unfold BlockPool.make.
  match goal with
  | |- context [BlockPool.preallocate ?n ?i ?bp ?w] =>
      pose proof (preallocate_appended n i bp w) as H;
      destruct (BlockPool.preallocate n i bp w) as [bp1 w1]
  end.
  cbn [fst] in *. destruct H as (new & Hb & Hlen & Hfresh & Hfl & Hbs & Hal & Hex).
  cbn in Hb, Hfl, Hbs, Hal, Hex. subst new.
  unfold BlockPool.get_total_count, BlockPool.in_use_count.
  repeat split; try assumption.
  apply fresh_blocks_unleased, Hfresh.
Qed.

Lemma expand_pool_appends_core bp w :
  exists new,
    BlockPool.blocks_ (BlockPool.expand_pool bp w).1 = BlockPool.blocks_ bp ++ new
    /\ BlockPool.free_list_ (BlockPool.expand_pool bp w).1
       = BlockPool.free_list_ bp ++ seq (BlockPool.get_total_count bp) (length new).
Proof.
  unfold BlockPool.expand_pool, BlockPool.get_total_count.
  match goal with
  | |- context [BlockPool.expand_loop ?n ?a ?bp ?w] =>
      pose proof (expand_loop_appended n a bp w) as H;
      destruct (BlockPool.expand_loop n a bp w) as [[a1 bp1] w1]
  end.
  cbn [fst snd] in *. destruct H as (new & Hb & _ & _ & Hfl & _).
  exists new. split; assumption.
Qed.

(** X18.  [expand_pool] only appends: the blocks present stay where they
    are, at most [max(1, count / 4)] blocks are added (none when the first
    allocation fails), each with a payload and free, and their positions go
    to the back of the free-list in order. *)
Theorem expand_pool_appends (bp : BlockPool.t) (w : World) :
  exists new,
    BlockPool.blocks_ (BlockPool.expand_pool bp w).1 = BlockPool.blocks_ bp ++ new
    /\ (length new <= Nat.max 1 (BlockPool.get_total_count bp / 4))%nat
    /\ Forall fresh_block new
    /\ BlockPool.free_list_ (BlockPool.expand_pool bp w).1
       = BlockPool.free_list_ bp ++ seq (BlockPool.get_total_count bp) (length new).
Proof.
  unfold BlockPool.expand_pool, BlockPool.get_total_count.
  match goal with
  | |- context [BlockPool.expand_loop ?n ?a ?bp ?w] =>
      pose proof (expand_loop_appended n a bp w) as H;
      destruct (BlockPool.expand_loop n a bp w) as [[a1 bp1] w1]
  end.
  cbn [fst snd] in *. destruct H as (new & Hb & Hlen & Hfresh & Hfl & _).
  exists new. repeat split; assumption.
Qed.

(** ** BlockPool: ownership *)

Lemma data_pointers_alter (f : BlockPool.Block -> BlockPool.Block)
    (i : nat) (bs : list BlockPool.Block) :
  (forall b, BlockPool.data (f b) = BlockPool.data b) ->
  BlockPool.data <$> alter f i bs = BlockPool.data <$> bs.
Proof.
  intros Hf. apply list_eq. intros j.
  rewrite !list_lookup_fmap, list_lookup_alter.
  destruct (decide (i = j)) as [<- | _]; [| reflexivity].
  destruct (bs !! i); cbn; [rewrite Hf |]; reflexivity.
Qed.

Lemma data_pointers_insert (i : nat) (b b' : BlockPool.Block)
    (bs : list BlockPool.Block) :
  bs !! i = Some b -> BlockPool.data b' = BlockPool.data b ->
  BlockPool.data <$> <[i := b']> bs = BlockPool.data <$> bs.
Proof.
  intros Hi Hd. rewrite list_fmap_insert. apply list_insert_id.
  rewrite list_lookup_fmap, Hi, Hd. reflexivity.
Qed.

(** [owns] is membership among the payload pointers, null excluded. *)
Lemma owns_spec p bp :
  BlockPool.owns p bp = true <-> p <> nullptr /\ p ∈ data_pointers bp.
Proof.
  unfold BlockPool.owns, BlockPool.find_block, data_pointers.
  destruct (Z.eqb_spec p nullptr) as [-> | Hp].
  { split; [discriminate | intros [H _]; done]. }
  destruct (list_find _ _) as [[i b] |] eqn:Hfind.
  - apply list_find_Some in Hfind. destruct Hfind as (Hb & Hd & _).
    split; [| reflexivity]. intros _. split; [exact Hp |].
    apply list_elem_of_fmap. exists b. split; [symmetry; exact Hd |].
    apply list_elem_of_lookup. exists i. exact Hb.
  - split; [discriminate |]. intros [_ Hin].
    apply list_elem_of_fmap in Hin. destruct Hin as (b & -> & Hb).
    apply list_find_None in Hfind. rewrite Forall_forall in Hfind.
    exfalso. apply (Hfind b Hb). reflexivity.
Qed.

Lemma take_data_pointers i rest bp :
  data_pointers (BlockPool.take i rest bp).2 = data_pointers bp.
Proof.
  unfold data_pointers, BlockPool.take. cbn.
  apply data_pointers_alter. reflexivity.
Qed.

Lemma release_data_pointers p bp w :
  data_pointers (BlockPool.release p bp w).1 = data_pointers bp.
Proof.
  unfold BlockPool.release.
  destruct (p =? nullptr); [reflexivity |].
  destruct (BlockPool.find_block p bp) as [[i b] |] eqn:Hfind; [| reflexivity].
  destruct (negb (BlockPool.in_use b)); [reflexivity |].
  apply list_find_Some in Hfind. destruct Hfind as (Hb & _ & _).
  unfold data_pointers. cbn. apply (data_pointers_insert i b); [exact Hb | reflexivity].
Qed.

Lemma expand_pool_data_pointers bp w :
  data_pointers bp `prefix_of` data_pointers (BlockPool.expand_pool bp w).1.
Proof.
  unfold BlockPool.expand_pool.
  match goal with
  | |- context [BlockPool.expand_loop ?n ?a ?bp ?w] =>
      pose proof (expand_loop_appended n a bp w) as H;
      destruct (BlockPool.expand_loop n a bp w) as [[a1 bp1] w1]
  end.
  cbn [fst snd] in *. destruct H as (new & Hb & _).
  unfold data_pointers. rewrite Hb, fmap_app. apply prefix_app_r. reflexivity.
Qed.

Lemma acquire_data_pointers bp w :
  data_pointers bp `prefix_of` data_pointers (BlockPool.acquire bp w).1.2.
Proof.
  unfold BlockPool.acquire.
  destruct (BlockPool.free_list_ bp) as [| i rest].
  - assert (H1 : data_pointers bp `prefix_of`
                 data_pointers (if BlockPool.allow_expansion_ bp
                                then BlockPool.expand_pool bp w else (bp, w)).1).
    { destruct (BlockPool.allow_expansion_ bp);
        [apply expand_pool_data_pointers | reflexivity]. }
    destruct (if BlockPool.allow_expansion_ bp
              then BlockPool.expand_pool bp w else (bp, w)) as [bp1 w1].
    cbn [fst] in H1.
    destruct (BlockPool.free_list_ bp1) as [| j rest1]; [exact H1 |].
    pose proof (take_data_pointers j rest1 bp1) as H2.
    destruct (BlockPool.take j rest1 bp1) as [q bp2]. cbn in *.
    rewrite H2. exact H1.
  - pose proof (take_data_pointers i rest bp) as H2.
    destruct (BlockPool.take i rest bp) as [q bp2]. cbn in *.
    rewrite H2. reflexivity.
Qed.

Lemma step_data_pointers o bp w :
  data_pointers bp `prefix_of` data_pointers (BlockPool.step o bp w).1.
Proof.
  destruct o as [| p |]; cbn.
  - pose proof (acquire_data_pointers bp w) as H.
    destruct (BlockPool.acquire bp w) as [[q bp1] w1]. exact H.
  - rewrite release_data_pointers. reflexivity.
  - apply expand_pool_data_pointers.
Qed.

(** X19.  A pool never gives a block up: along every run of [acquire],
    [release] and [expand_pool] the payload pointers present stay, in their
    places, and new ones are only added behind them.  So a pointer the pool
    owns is owned for good. *)
Theorem blocks_only_grow (ops : list BlockPool.Op) (bp : BlockPool.t) (w : World) :
  data_pointers bp `prefix_of` data_pointers (BlockPool.run ops bp w).1
  /\ forall p, BlockPool.owns p bp = true ->
               BlockPool.owns p (BlockPool.run ops bp w).1 = true.
Proof.
  assert (H : data_pointers bp `prefix_of` data_pointers (BlockPool.run ops bp w).1).
  { revert bp w. induction ops as [| o ops IH]; intros bp w; cbn; [reflexivity |].
    pose proof (step_data_pointers o bp w) as Hs.
    destruct (BlockPool.step o bp w) as [bp1 w1]. cbn in Hs.
    etransitivity; [exact Hs | apply IH]. }
  split; [exact H |].
  intros p Hown. apply owns_spec in Hown. destruct Hown as [Hp Hin].
  apply owns_spec. split; [exact Hp |].
  destruct H as [k ->]. apply elem_of_app. left. exact Hin.
Qed.

(** ** BlockPool: leases *)

Lemma valid_appended n bp bp' :
  appended n bp bp' -> blocks_valid bp -> blocks_valid bp'.
Proof.
  intros (new & Hb & _ & Hfresh & _) Hv. unfold blocks_valid in *.
  rewrite Hb. apply Forall_app. split; [exact Hv |].
  eapply Forall_impl; [exact Hfresh |]. intros b [_ H]. exact H.
Qed.

Lemma valid_make block_size initial_count alignment allow_expansion w :
  blocks_valid (BlockPool.make block_size initial_count alignment allow_expansion w).1.
Proof.
  unfold BlockPool.make.
  match goal with
  | |- context [BlockPool.preallocate ?n ?i ?bp ?w] =>
      pose proof (preallocate_appended n i bp w) as H;
      destruct (BlockPool.preallocate n i bp w) as [bp1 w1]
  end.
  cbn [fst] in *. eapply valid_appended; [exact H | constructor].
Qed.

Lemma valid_expand_pool bp w :
  blocks_valid bp -> blocks_valid (BlockPool.expand_pool bp w).1.
Proof.
  intros Hv. unfold BlockPool.expand_pool.
  match goal with
  | |- context [BlockPool.expand_loop ?n ?a ?bp ?w] =>
      pose proof (expand_loop_appended n a bp w) as H;
      destruct (BlockPool.expand_loop n a bp w) as [[a1 bp1] w1]
  end.
  cbn [fst snd] in *. eapply valid_appended; [exact H | exact Hv].
Qed.

(** Validity only looks at the payload pointers. *)
Lemma valid_by_pointers bp bp' :
  data_pointers bp' = data_pointers bp -> blocks_valid bp -> blocks_valid bp'.
Proof.
  unfold blocks_valid, data_pointers. intros Heq Hv.
  rewrite Forall_forall in *. intros b Hb Hnull.
  assert (Hin : BlockPool.data b ∈ BlockPool.data <$> BlockPool.blocks_ bp').
  { apply list_elem_of_fmap. exists b. split; [reflexivity | exact Hb]. }
  rewrite Heq in Hin. apply list_elem_of_fmap in Hin.
  destruct Hin as (c & Hc & Hcin). apply (Hv c Hcin). congruence.
Qed.

Lemma valid_acquire bp w :
  blocks_valid bp -> blocks_valid (BlockPool.acquire bp w).1.2.
Proof.
  intros Hv. unfold BlockPool.acquire.
  destruct (BlockPool.free_list_ bp) as [| i rest].
  - assert (H1 : blocks_valid (if BlockPool.allow_expansion_ bp
                               then BlockPool.expand_pool bp w else (bp, w)).1).
    { destruct (BlockPool.allow_expansion_ bp);
        [apply valid_expand_pool, Hv | exact Hv]. }
    destruct (if BlockPool.allow_expansion_ bp
              then BlockPool.expand_pool bp w else (bp, w)) as [bp1 w1].
    cbn [fst] in H1.
    destruct (BlockPool.free_list_ bp1) as [| j rest1]; [exact H1 |].
    pose proof (take_data_pointers j rest1 bp1) as H2.
    destruct (BlockPool.take j rest1 bp1) as [q bp2]. cbn in *.
    eapply valid_by_pointers; [exact H2 | exact H1].
  - pose proof (take_data_pointers i rest bp) as H2.
    destruct (BlockPool.take i rest bp) as [q bp2]. cbn in *.
    eapply valid_by_pointers; [exact H2 | exact Hv].
Qed.

Lemma valid_step o bp w :
  blocks_valid bp -> blocks_valid (BlockPool.step o bp w).1.
Proof.
  intros Hv. destruct o as [| p |]; cbn.
  - pose proof (valid_acquire bp w Hv) as H.
    destruct (BlockPool.acquire bp w) as [[q bp1] w1]. exact H.
  - eapply valid_by_pointers; [apply release_data_pointers | exact Hv].
  - apply valid_expand_pool, Hv.
Qed.

Lemma valid_run ops bp w :
  blocks_valid bp -> blocks_valid (BlockPool.run ops bp w).1.
Proof.
  revert bp w. induction ops as [| o ops IH]; intros bp w Hv; cbn; [exact Hv |].
  pose proof (valid_step o bp w Hv) as H.
  destruct (BlockPool.step o bp w) as [bp1 w1]. apply IH, H.
Qed.

(** Popping the front of the free-list of a sound pool with payloads. *)
Lemma take_grants i rest bp :
  free_list_sound bp -> blocks_valid bp ->
  BlockPool.free_list_ bp = i :: rest ->
  let p := (BlockPool.take i rest bp).1 in
  let bp' := (BlockPool.take i rest bp).2 in
  p <> nullptr
  /\ BlockPool.blocks_ bp !! i
     = Some {| BlockPool.data := p; BlockPool.in_use := false |}
  /\ BlockPool.blocks_ bp' !! i
     = Some {| BlockPool.data := p; BlockPool.in_use := true |}
  /\ (i ∉ BlockPool.free_list_ bp')
  /\ BlockPool.owns p bp' = true.
Proof.
  intros (Hnd & Hfree & _) Hv Hfl. cbv zeta.
  rewrite Hfl in Hnd, Hfree. apply NoDup_cons in Hnd. destruct Hnd as [Hi _].
  destruct (Hfree i) as (b & Hb & Hu); [left |].
  assert (Hd : BlockPool.data b <> nullptr).
  { unfold blocks_valid in Hv. rewrite Forall_forall in Hv. apply Hv.
    apply list_elem_of_lookup. exists i. exact Hb. }
  unfold BlockPool.take. cbn. rewrite Hb. cbn.
  split; [exact Hd |].
  split; [destruct b; cbn in *; subst; reflexivity |].
  split; [rewrite list_lookup_alter, decide_True by reflexivity;
          rewrite Hb; reflexivity |].
  split; [exact Hi |].
  apply owns_spec. split; [exact Hd |].
  change (BlockPool.data b ∈ data_pointers (BlockPool.take i rest bp).2).
  rewrite take_data_pointers. unfold data_pointers.
  apply list_elem_of_fmap. exists b. split; [reflexivity |].
  apply list_elem_of_lookup. exists i. exact Hb.
Qed.

(** What [acquire] grants, on a sound pool whose blocks have payloads. *)
Lemma acquire_core bp w :
  free_list_sound bp -> blocks_valid bp ->
  let p := (BlockPool.acquire bp w).1.1 in
  let bp' := (BlockPool.acquire bp w).1.2 in
  (p = nullptr /\ BlockPool.free_list_ bp' = []
   /\ BlockPool.in_use_count bp' = BlockPool.get_total_count bp')
  \/ (p <> nullptr /\ BlockPool.owns p bp' = true
      /\ exists i,
           BlockPool.blocks_ bp' !! i
           = Some {| BlockPool.data := p; BlockPool.in_use := true |}
           /\ (i ∉ BlockPool.free_list_ bp')
           /\ (BlockPool.blocks_ bp !! i
               = Some {| BlockPool.data := p; BlockPool.in_use := false |}
               \/ (BlockPool.free_list_ bp = []
                   /\ (BlockPool.get_total_count bp <= i)%nat))).
Proof.
  intros Hs Hv. cbv zeta. unfold BlockPool.acquire.
  destruct (BlockPool.free_list_ bp) as [| i rest] eqn:Hfl.
  - assert (H1 : let r := (if BlockPool.allow_expansion_ bp
                           then BlockPool.expand_pool bp w else (bp, w)) in
                 free_list_sound r.1 /\ blocks_valid r.1
                 /\ exists new, BlockPool.blocks_ r.1 = BlockPool.blocks_ bp ++ new
                      /\ BlockPool.free_list_ r.1
                         = seq (BlockPool.get_total_count bp) (length new)).
    { cbv zeta. destruct (BlockPool.allow_expansion_ bp).
      - split; [apply sound_expand_pool, Hs |].
        split; [apply valid_expand_pool, Hv |].
        destruct (expand_pool_appends_core bp w) as (new & Hb & Hf).
        exists new. rewrite Hfl in Hf. split; [exact Hb | exact Hf].
      - split; [exact Hs |]. split; [exact Hv |].
        exists []. rewrite app_nil_r. split; [reflexivity | exact Hfl]. }
    destruct (if BlockPool.allow_expansion_ bp
              then BlockPool.expand_pool bp w else (bp, w)) as [bp1 w1].
    cbv zeta in H1. cbn [fst] in H1.
    destruct H1 as (Hs1 & Hv1 & new & Hb1 & Hf1).
    destruct (BlockPool.free_list_ bp1) as [| j rest1] eqn:Hfl1.
    + left. cbn. split; [reflexivity |]. split; [exact Hfl1 |].
      destruct Hs1 as (_ & _ & Hcount).
      unfold BlockPool.get_free_count in Hcount. rewrite Hfl1 in Hcount.
      exact Hcount.
    + right.
      pose proof (take_grants j rest1 bp1 Hs1 Hv1 Hfl1) as Hg.
      cbv zeta in Hg. destruct (BlockPool.take j rest1 bp1) as [q bp2].
      cbn [fst snd] in *. destruct Hg as (Hq & _ & Hb2 & Hnot & Hown).
      split; [exact Hq |]. split; [exact Hown |].
      exists j. split; [exact Hb2 |]. split; [exact Hnot |].
      right. split; [reflexivity |].
      destruct new as [| n0 new]; [discriminate Hf1 |].
      cbn in Hf1. injection Hf1 as -> _. lia.
  - right.
    pose proof (take_grants i rest bp Hs Hv Hfl) as Hg.
    cbv zeta in Hg. destruct (BlockPool.take i rest bp) as [q bp2].
    cbn [fst snd] in *. destruct Hg as (Hq & Hb & Hb2 & Hnot & Hown).
    split; [exact Hq |]. split; [exact Hown |].
    exists i. split; [exact Hb2 |]. split; [exact Hnot |]. left. exact Hb.
Qed.

(** X20.  What [acquire] hands out.  On a pool reached from its
    constructor by any run, [acquire] either returns null, and then the
    free-list is empty and every block is leased, or returns a non-null
    pointer that the pool owns, whose block is now marked leased and is no
    longer in the free-list, and which was free before the call or was
    created by this call (the latter only when the free-list was empty): a
    leased block is never handed out a second time. *)
Theorem acquire_grants_free_block
    (block_size initial_count alignment : Z) (allow_expansion : bool)
    (w : World) (ops : list BlockPool.Op) :
  let made := BlockPool.make block_size initial_count alignment allow_expansion w in
  let reached := BlockPool.run ops made.1 made.2 in
  let p := (BlockPool.acquire reached.1 reached.2).1.1 in
  let bp' := (BlockPool.acquire reached.1 reached.2).1.2 in
  (p = nullptr /\ BlockPool.free_list_ bp' = []
   /\ BlockPool.in_use_count bp' = BlockPool.get_total_count bp')
  \/ (p <> nullptr /\ BlockPool.owns p bp' = true
      /\ exists i,
           BlockPool.blocks_ bp' !! i
           = Some {| BlockPool.data := p; BlockPool.in_use := true |}
           /\ (i ∉ BlockPool.free_list_ bp')
           /\ (BlockPool.blocks_ reached.1 !! i
               = Some {| BlockPool.data := p; BlockPool.in_use := false |}
               \/ (BlockPool.free_list_ reached.1 = []
                   /\ (BlockPool.get_total_count reached.1 <= i)%nat))).
Proof.
  intros made reached. apply acquire_core.
  - apply sound_run, sound_make.
  - apply valid_run, valid_make.
Qed.

(** The scan finds the same block after its flag was cleared. *)
Lemma find_block_after_release p i b bp fl :
  BlockPool.find_block p bp = Some (i, b) ->
  BlockPool.find_block p
    (BlockPool.set_blocks
       (<[i := {| BlockPool.data := BlockPool.data b; BlockPool.in_use := false |}]>
          (BlockPool.blocks_ bp)) fl bp)
  = Some (i, {| BlockPool.data := BlockPool.data b; BlockPool.in_use := false |}).
Proof.
  unfold BlockPool.find_block. cbn. intros Hfind.
  apply list_find_Some in Hfind. destruct Hfind as (Hb & Hd & Hfirst).
  apply list_find_Some. split; [| split].
  - apply list_lookup_insert_eq. eapply lookup_lt_Some, Hb.
  - exact Hd.
  - intros j y Hy Hlt. rewrite list_lookup_insert_ne in Hy by lia.
    apply (Hfirst j y Hy Hlt).
Qed.

(** X21.  [release] tolerates misuse.  The null pointer is ignored. A
    pointer the pool does not own leaves the pool as it is and logs an error.
    Releasing the same pointer twice changes nothing the second time: the
    pool after the second call is the pool after the first, and for an owned
    pointer the second call logs the double-release warning and nothing
    else. *)
Theorem release_tolerates_misuse (p : Z) (bp : BlockPool.t) (w w' : World) :
  (p = nullptr -> BlockPool.release p bp w = (bp, w))
  /\ (p <> nullptr -> BlockPool.owns p bp = false ->
      BlockPool.release p bp w
      = (bp, emit ERROR BlockPool.LOG_TAG (ReleaseNonPool p) w))
  /\ (BlockPool.release p (BlockPool.release p bp w).1 w').1
     = (BlockPool.release p bp w).1
  /\ (BlockPool.owns p bp = true ->
      (BlockPool.release p (BlockPool.release p bp w).1 w').2
      = emit WARN BlockPool.LOG_TAG (DoubleRelease p) w').
Proof.
  split; [intros ->; reflexivity |].
  split.
  { intros Hp Hown. unfold BlockPool.release, BlockPool.owns in *.
    destruct (Z.eqb_spec p nullptr); [done |].
    destruct (BlockPool.find_block p bp); [discriminate | reflexivity]. }
  unfold BlockPool.owns, BlockPool.release.
  destruct (Z.eqb_spec p nullptr) as [-> | Hp].
  { cbn. change (nullptr =? nullptr) with true. cbn.
    split; [reflexivity | discriminate]. }
  destruct (BlockPool.find_block p bp) as [[i b] |] eqn:Hfind.
  - destruct (BlockPool.in_use b) eqn:Hu; cbn [negb fst snd].
    + destruct (Z.eqb_spec p nullptr); [done |].
      rewrite (find_block_after_release p i b bp _ Hfind). cbn.
      split; reflexivity.
    + destruct (Z.eqb_spec p nullptr); [done |].
      rewrite Hfind, Hu. cbn. split; reflexivity.
  - cbn [fst snd]. destruct (Z.eqb_spec p nullptr); [done |].
    rewrite Hfind. cbn. split; [reflexivity | discriminate].
Qed.

Lemma release_tolerates_misuse_witness :
  BlockPool.release 12345 two_block_pool.1 two_block_pool.2
  = (two_block_pool.1,
     emit ERROR BlockPool.LOG_TAG (ReleaseNonPool 12345) two_block_pool.2)
  /\ (BlockPool.release 65600
        (BlockPool.release 65600 two_block_pool_leased.1 two_block_pool_leased.2).1
        two_block_pool_leased.2).2
     = emit WARN BlockPool.LOG_TAG (DoubleRelease 65600) two_block_pool_leased.2.
Proof.
  split.
  - apply (release_tolerates_misuse 12345 two_block_pool.1 two_block_pool.2
             two_block_pool.2).
    + unfold nullptr. lia.
    + vm_compute. reflexivity.
  - apply (release_tolerates_misuse 65600 two_block_pool_leased.1
             two_block_pool_leased.2 two_block_pool_leased.2).
    vm_compute. reflexivity.
Defined.

(** X22.  First in, first out.  When a leased block is released while the
    free-list is not empty, its position goes to the back of the list, and
    the next [acquire] hands out the block that was at the front, without
    calling [malloc] and without logging; the world is untouched by both
    calls. *)
Theorem release_then_acquire_fifo
    (p : Z) (i j : nat) (rest : list nat) (bi b : BlockPool.Block)
    (bp : BlockPool.t) (w : World) :
  p <> nullptr ->
  BlockPool.free_list_ bp = i :: rest ->
  BlockPool.blocks_ bp !! i = Some bi ->
  BlockPool.find_block p bp = Some (j, b) ->
  BlockPool.in_use b = true ->
  let released := BlockPool.release p bp w in
  let acquired := BlockPool.acquire released.1 released.2 in
  BlockPool.free_list_ released.1 = i :: rest ++ [j]
  /\ acquired.1.1 = BlockPool.data bi
  /\ BlockPool.free_list_ acquired.1.2 = rest ++ [j]
  /\ acquired.2 = w.
Proof.
  intros Hp Hfl Hbi Hfind Hu. cbv zeta.
  unfold BlockPool.release.
  destruct (Z.eqb_spec p nullptr); [done |].
  rewrite Hfind, Hu. cbn [negb fst snd].
  unfold BlockPool.acquire. cbn [BlockPool.free_list_ BlockPool.set_blocks].
  rewrite Hfl. cbn [app]. cbn.
  split; [reflexivity |]. split; [| split; reflexivity].
  apply list_find_Some in Hfind. destruct Hfind as (Hb & _ & _).
  destruct (decide (j = i)) as [-> | Hne].
  - rewrite list_lookup_insert_eq by (eapply lookup_lt_Some, Hb).
    cbn. congruence.
  - rewrite list_lookup_insert_ne by exact Hne. rewrite Hbi. reflexivity.
Qed.

Lemma release_then_acquire_fifo_witness :
  BlockPool.free_list_
    (BlockPool.release 65600 two_block_pool_leased.1 two_block_pool_leased.2).1
  = [1; 0]%nat
  /\ (BlockPool.acquire
        (BlockPool.release 65600 two_block_pool_leased.1 two_block_pool_leased.2).1
        (BlockPool.release 65600 two_block_pool_leased.1 two_block_pool_leased.2).2).1.1
     = 69696.
Proof.
  pose proof (release_then_acquire_fifo 65600 1 0 []
                {| BlockPool.data := 69696; BlockPool.in_use := false |}
                {| BlockPool.data := 65600; BlockPool.in_use := true |}
                two_block_pool_leased.1 two_block_pool_leased.2) as H.
  cbv zeta in H.
  destruct H as (H1 & H2 & _).
  - unfold nullptr. lia.
  - vm_compute. reflexivity.
  - vm_compute. reflexivity.
  - vm_compute. reflexivity.
  - reflexivity.
  - split; [exact H1 | exact H2].
Defined.

(** ** BlockPool: pools that may not expand *)

Lemma same_but_log_refl w : same_but_log w w.
Proof. repeat split. Qed.

Lemma same_but_log_emit lv tag m w w' :
  same_but_log w w' -> same_but_log w (emit lv tag m w').
Proof. intros (H1 & H2 & H3 & H4 & H5). repeat split; assumption. Qed.

Lemma same_but_log_trans w1 w2 w3 :
  same_but_log w1 w2 -> same_but_log w2 w3 -> same_but_log w1 w3.
Proof.
  intros (H1 & H2 & H3 & H4 & H5) (K1 & K2 & K3 & K4 & K5).
  repeat split; congruence.
Qed.

Lemma release_same_but_log p bp w :
  same_but_log w (BlockPool.release p bp w).2
  /\ BlockPool.allow_expansion_ (BlockPool.release p bp w).1
     = BlockPool.allow_expansion_ bp.
Proof.
  unfold BlockPool.release.
  destruct (p =? nullptr); [split; [apply same_but_log_refl | reflexivity] |].
  destruct (BlockPool.find_block p bp) as [[i b] |];
    [| split; [apply same_but_log_emit, same_but_log_refl | reflexivity]].
  destruct (negb (BlockPool.in_use b));
    split; first [apply same_but_log_emit, same_but_log_refl
                 | apply same_but_log_refl | reflexivity].
Qed.

Lemma acquire_without_expansion bp w :
  BlockPool.allow_expansion_ bp = false ->
  same_but_log w (BlockPool.acquire bp w).2
  /\ BlockPool.allow_expansion_ (BlockPool.acquire bp w).1.2 = false
  /\ data_pointers (BlockPool.acquire bp w).1.2 = data_pointers bp
  /\ (BlockPool.free_list_ bp = [] ->
      (BlockPool.acquire bp w).1.1 = nullptr
      /\ (BlockPool.acquire bp w).1.2 = bp).
Proof.
  intros Hno. unfold BlockPool.acquire. rewrite Hno. cbv beta iota.
  destruct (BlockPool.free_list_ bp) as [| i rest] eqn:Hfl.
  - cbn.
    split; [apply same_but_log_emit, same_but_log_refl |].
    split; [exact Hno |]. split; [reflexivity |]. intros _. split; reflexivity.
  - pose proof (take_data_pointers i rest bp) as Hd.
    unfold BlockPool.take in *. cbn in *.
    split; [apply same_but_log_refl |].
    split; [exact Hno |]. split; [exact Hd | discriminate].
Qed.

(** X23.  A pool built without expansion never allocates after its
    constructor: along every run of [acquire] and [release] the blocks are
    the same, [malloc] is not called, and the counters and the tracker are
    untouched (the world changes in its log only).  When such a pool has no
    free block, [acquire] returns null and leaves the pool as it is. *)
Theorem no_expansion_no_allocation
    (ops : list BlockPool.Op) (bp : BlockPool.t) (w : World) :
  BlockPool.allow_expansion_ bp = false ->
  existsb is_expand ops = false ->
  let reached := BlockPool.run ops bp w in
  same_but_log w reached.2
  /\ data_pointers reached.1 = data_pointers bp
  /\ (BlockPool.free_list_ reached.1 = [] ->
      (BlockPool.acquire reached.1 reached.2).1.1 = nullptr
      /\ (BlockPool.acquire reached.1 reached.2).1.2 = reached.1).
Proof.
  intros Hno Hops. cbv zeta.
  assert (H : same_but_log w (BlockPool.run ops bp w).2
              /\ data_pointers (BlockPool.run ops bp w).1 = data_pointers bp
              /\ BlockPool.allow_expansion_ (BlockPool.run ops bp w).1 = false).
  { revert bp w Hno Hops.
    induction ops as [| o ops IH]; intros bp w Hno Hops; cbn.
    { split; [apply same_but_log_refl | split; [reflexivity | exact Hno]]. }
    cbn in Hops. apply orb_false_iff in Hops. destruct Hops as [Ho Hops].
    assert (Hstep : same_but_log w (BlockPool.step o bp w).2
                    /\ data_pointers (BlockPool.step o bp w).1 = data_pointers bp
                    /\ BlockPool.allow_expansion_ (BlockPool.step o bp w).1 = false).
    { destruct o as [| p |]; [| | discriminate]; cbn.
      - pose proof (acquire_without_expansion bp w Hno) as (H1 & H2 & H3 & _).
        destruct (BlockPool.acquire bp w) as [[q bp1] w1]. cbn in *.
        split; [exact H1 | split; [exact H3 | exact H2]].
      - pose proof (release_same_but_log p bp w) as [H1 H2].
        split; [exact H1 |]. split; [apply release_data_pointers |].
        rewrite H2. exact Hno. }
    destruct (BlockPool.step o bp w) as [bp1 w1]. cbn [fst snd] in Hstep.
    destruct Hstep as (S1 & S2 & S3).
    destruct (IH bp1 w1 S3 Hops) as (I1 & I2 & I3).
    split; [eapply same_but_log_trans; eassumption |].
    split; [congruence | exact I3]. }
  destruct H as (H1 & H2 & H3).
  split; [exact H1 |]. split; [exact H2 |].
  intros Hempty.
  apply (acquire_without_expansion _ (BlockPool.run ops bp w).2 H3). exact Hempty.
Qed.

Lemma no_expansion_no_allocation_witness :
  same_but_log two_block_pool.2
    (BlockPool.run [BlockPool.Acquire; BlockPool.Acquire; BlockPool.Acquire;
                    BlockPool.Release 65600]
       two_block_pool.1 two_block_pool.2).2
  /\ data_pointers
       (BlockPool.run [BlockPool.Acquire; BlockPool.Acquire; BlockPool.Acquire;
                       BlockPool.Release 65600]
          two_block_pool.1 two_block_pool.2).1
     = data_pointers two_block_pool.1.
Proof.
  pose proof (no_expansion_no_allocation
                [BlockPool.Acquire; BlockPool.Acquire; BlockPool.Acquire;
                 BlockPool.Release 65600]
                two_block_pool.1 two_block_pool.2) as H.
  cbv zeta in H.
  destruct H as (H1 & H2 & _); [vm_compute; reflexivity | reflexivity |].
  split; [exact H1 | exact H2].
Defined.

(** ** MemoryPool: what [allocate] does to the pool *)

(** The pool after [allocate], by the way the request was served. *)
Lemma allocate_shape size_ mp w :
  size_ <> 0 ->
  let r := MemoryPool.allocate size_ mp w in
  match tier_grant size_ mp w with
  | Some (tier, q) =>
      q <> nullptr /\ r.1.1 = q
      /\ exists m0,
           r.1.2 = MemoryPool.update_statistics size_ true true m0
           /\ MemoryPool.config_ m0 = MemoryPool.config_ mp
           /\ MemoryPool.stats_ m0 = MemoryPool.stats_ (MemoryPool.count_hit tier mp)
           /\ MemoryPool.direct_allocations_ m0 = MemoryPool.direct_allocations_ mp
  | None =>
      (r.1.1 = nullptr
       /\ MemoryPool.config_ r.1.2 = MemoryPool.config_ mp
       /\ MemoryPool.stats_ r.1.2 = MemoryPool.stats_ mp
       /\ MemoryPool.direct_allocations_ r.1.2 = MemoryPool.direct_allocations_ mp)
      \/ (r.1.1 <> nullptr
          /\ exists m0,
               r.1.2 = MemoryPool.update_statistics size_ true false m0
               /\ MemoryPool.config_ m0 = MemoryPool.config_ mp
               /\ MemoryPool.stats_ m0 = MemoryPool.stats_ (MemoryPool.count_direct mp)
               /\ MemoryPool.direct_allocations_ m0
                  = <[r.1.1 := {| MemoryPool.ptr := r.1.1; MemoryPool.size := size_ |}]>
                      (MemoryPool.direct_allocations_ mp))
  end.
Proof.
  intros Hsize. cbv zeta.
  unfold MemoryPool.allocate, tier_grant, MemoryPool.allocate_from_tier.
  destruct (Z.eqb_spec size_ 0); [done |].
  assert (Hdirect : forall m1 w1,
             MemoryPool.config_ m1 = MemoryPool.config_ mp ->
             MemoryPool.stats_ m1 = MemoryPool.stats_ mp ->
             MemoryPool.direct_allocations_ m1 = MemoryPool.direct_allocations_ mp ->
             let r := (let '(p, m2, w2) := MemoryPool.allocate_direct size_ m1 w1 in
                       if p =? nullptr then (p, m2, w2)
                       else (p, MemoryPool.update_statistics size_ true false m2,
                             MemoryTracker.track_allocation p size_
                               (MemoryPool.alignment
                                  (MemoryPool.config_
                                     (MemoryPool.update_statistics size_ true false m2)))
                               "MemoryPool" w2)) in
             (r.1.1 = nullptr
              /\ MemoryPool.config_ r.1.2 = MemoryPool.config_ mp
              /\ MemoryPool.stats_ r.1.2 = MemoryPool.stats_ mp
              /\ MemoryPool.direct_allocations_ r.1.2 = MemoryPool.direct_allocations_ mp)
             \/ (r.1.1 <> nullptr
                 /\ exists m0,
                      r.1.2 = MemoryPool.update_statistics size_ true false m0
                      /\ MemoryPool.config_ m0 = MemoryPool.config_ mp
                      /\ MemoryPool.stats_ m0
                         = MemoryPool.stats_ (MemoryPool.count_direct mp)
                      /\ MemoryPool.direct_allocations_ m0
                         = <[r.1.1 := {| MemoryPool.ptr := r.1.1;
                                         MemoryPool.size := size_ |}]>
                             (MemoryPool.direct_allocations_ mp))).
  { intros m1 w1 Hc Hs Hd. cbv zeta. unfold MemoryPool.allocate_direct.
    destruct (AlignedAllocator.allocate _ _ w1) as [p2 w2].
    destruct (Z.eqb_spec p2 nullptr) as [-> | Hp2].
    - change (nullptr =? nullptr) with true. cbn. left. repeat split; assumption.
    - destruct (Z.eqb_spec p2 nullptr); [done |]. cbn [fst snd]. right.
      split; [exact Hp2 |]. eexists. split; [reflexivity |].
      unfold MemoryPool.count_direct. cbn. rewrite Hc, Hs, Hd. repeat split. }
  destruct (MemoryPool.select_pool (MemoryPool.config_ mp) size_) as [tier |].
  - destruct (BlockPool.acquire (MemoryPool.pool_of tier mp) w) as [[q bp] w1].
    cbn [fst snd].
    destruct (Z.eqb_spec q nullptr) as [-> | Hq].
    + cbn [negb]. change (nullptr =? nullptr) with true. cbv iota.
      apply Hdirect; destruct tier; reflexivity.
    + destruct (Z.eqb_spec q nullptr); [done |]. cbn [negb fst snd].
      split; [exact Hq |]. split; [reflexivity |].
      eexists. split; [reflexivity |]. destruct tier; repeat split.
  - cbn [negb]. change (nullptr =? nullptr) with true. cbv iota.
    apply Hdirect; reflexivity.
Qed.

Lemma tier_grant_nonnull size_ mp w tier q :
  tier_grant size_ mp w = Some (tier, q) -> q <> nullptr.
Proof.
  unfold tier_grant.
  destruct (MemoryPool.select_pool _ _) as [t |]; [| discriminate].
  destruct (Z.eqb_spec (BlockPool.acquire (MemoryPool.pool_of t mp) w).1.1 nullptr);
    [discriminate |].
  intros [= <- <-]. assumption.
Qed.

(** X24.  An [allocate] that returns null (a request of zero bytes, or a
    request no tier and no direct allocation could serve) leaves the
    statistics and the direct-allocation map as they were: a failure is not
    counted as an allocation, a hit or a miss. *)
Theorem allocate_failure_leaves_statistics (size_ : Z) (mp : MemoryPool.t) (w : World) :
  (MemoryPool.allocate size_ mp w).1.1 = nullptr ->
  MemoryPool.stats_ (MemoryPool.allocate size_ mp w).1.2 = MemoryPool.stats_ mp
  /\ MemoryPool.direct_allocations_ (MemoryPool.allocate size_ mp w).1.2
     = MemoryPool.direct_allocations_ mp
  /\ MemoryPool.config_ (MemoryPool.allocate size_ mp w).1.2 = MemoryPool.config_ mp.
Proof.
  intros Hnull.
  destruct (Z.eq_dec size_ 0) as [-> | Hsize]; [repeat split |].
  pose proof (allocate_shape size_ mp w Hsize) as Hshape. cbv zeta in Hshape.
  destruct (tier_grant size_ mp w) as [[tier q] |].
  - destruct Hshape as (Hq & Hr & _). congruence.
  - destruct Hshape as [(_ & Hc & Hs & Hd) | (Hnn & _)]; [| done].
    repeat split; assumption.
Qed.

Lemma allocate_failure_leaves_statistics_witness :
  MemoryPool.stats_ (MemoryPool.allocate 0 scenario_pool scenario_world).1.2
  = MemoryPool.stats_ scenario_pool
  /\ MemoryPool.stats_ (MemoryPool.allocate 5000 scenario_pool scenario_world).1.2
     = MemoryPool.stats_ scenario_pool.
Proof.
  split.
  - apply (allocate_failure_leaves_statistics 0 scenario_pool scenario_world).
    reflexivity.
  - apply (allocate_failure_leaves_statistics 5000 scenario_pool scenario_world).
    vm_compute. reflexivity.
Defined.

(** X25.  With statistics on, an [allocate] that returns a pointer counts
    one allocation, adds the requested size to the total and to the current
    usage, raises the peak to the current usage when that is higher, and
    counts one hit when a tier served the request, one miss otherwise; the
    deallocation side is not touched. *)
Theorem allocate_updates_statistics (size_ : Z) (mp : MemoryPool.t) (w : World) :
  MemoryPool.enable_statistics (MemoryPool.config_ mp) = true ->
  (MemoryPool.allocate size_ mp w).1.1 <> nullptr ->
  let s := MemoryPool.stats_ mp in
  let s' := MemoryPool.stats_ (MemoryPool.allocate size_ mp w).1.2 in
  MemoryPool.allocation_count s' = wrap (MemoryPool.allocation_count s + 1)
  /\ MemoryPool.total_allocated s' = wrap (MemoryPool.total_allocated s + size_)
  /\ MemoryPool.current_usage s' = wrap (MemoryPool.current_usage s + size_)
  /\ MemoryPool.peak_usage s'
     = Z.max (MemoryPool.peak_usage s) (MemoryPool.current_usage s')
  /\ MemoryPool.total_deallocated s' = MemoryPool.total_deallocated s
  /\ MemoryPool.deallocation_count s' = MemoryPool.deallocation_count s
  /\ match tier_grant size_ mp w with
     | Some _ =>
         MemoryPool.cache_hits s' = wrap (MemoryPool.cache_hits s + 1)
         /\ MemoryPool.cache_misses s' = MemoryPool.cache_misses s
     | None =>
         MemoryPool.cache_hits s' = MemoryPool.cache_hits s
         /\ MemoryPool.cache_misses s' = wrap (MemoryPool.cache_misses s + 1)
     end.
Proof.
  intros Hon Hnn. cbv zeta.
  assert (Hsize : size_ <> 0).
  { intros ->. apply Hnn. reflexivity. }
  pose proof (allocate_shape size_ mp w Hsize) as Hshape. cbv zeta in Hshape.
  assert (Hupd : forall hit m0 s0,
             MemoryPool.config_ m0 = MemoryPool.config_ mp ->
             MemoryPool.stats_ m0 = s0 ->
             MemoryPool.stats_ (MemoryPool.update_statistics size_ true hit m0)
             = MemoryPool.update_peak_usage
                 {| MemoryPool.total_allocated := wrap (MemoryPool.total_allocated s0 + size_);
                    MemoryPool.total_deallocated := MemoryPool.total_deallocated s0;
                    MemoryPool.current_usage := wrap (MemoryPool.current_usage s0 + size_);
                    MemoryPool.peak_usage := MemoryPool.peak_usage s0;
                    MemoryPool.allocation_count := wrap (MemoryPool.allocation_count s0 + 1);
                    MemoryPool.deallocation_count := MemoryPool.deallocation_count s0;
                    MemoryPool.cache_hits :=
                      if hit then wrap (MemoryPool.cache_hits s0 + 1)
                      else MemoryPool.cache_hits s0;
                    MemoryPool.cache_misses :=
                      if hit then MemoryPool.cache_misses s0
                      else wrap (MemoryPool.cache_misses s0 + 1);
                    MemoryPool.hit_rate := MemoryPool.hit_rate s0;
                    MemoryPool.small_pool_hits := MemoryPool.small_pool_hits s0;
                    MemoryPool.medium_pool_hits := MemoryPool.medium_pool_hits s0;
                    MemoryPool.large_pool_hits := MemoryPool.large_pool_hits s0;
                    MemoryPool.direct_allocations := MemoryPool.direct_allocations s0 |}).
  { intros hit m0 s0 Hc <-. unfold MemoryPool.update_statistics.
    rewrite Hc, Hon. reflexivity. }
  destruct (tier_grant size_ mp w) as [[tier q] |].
  - destruct Hshape as (_ & _ & m0 & -> & Hc & Hs & _).
    rewrite (Hupd true m0 _ Hc Hs). unfold MemoryPool.update_peak_usage. cbn.
    destruct (Z.ltb_spec (MemoryPool.peak_usage (MemoryPool.stats_ mp))
                (wrap (MemoryPool.current_usage (MemoryPool.stats_ mp) + size_)));
      cbn; repeat split; lia.
  - destruct Hshape as [(Hnull & _) | (_ & m0 & -> & Hc & Hs & _)]; [done |].
    rewrite (Hupd false m0 _ Hc Hs). unfold MemoryPool.update_peak_usage. cbn.
    destruct (Z.ltb_spec (MemoryPool.peak_usage (MemoryPool.stats_ mp))
                (wrap (MemoryPool.current_usage (MemoryPool.stats_ mp) + size_)));
      cbn; repeat split; lia.
Qed.

Lemma allocate_updates_statistics_witness :
  MemoryPool.allocation_count
    (MemoryPool.stats_
       (MemoryPool.allocate 3000 scenario_pool scenario_world_refilled).1.2)
  = wrap (MemoryPool.allocation_count (MemoryPool.stats_ scenario_pool) + 1)
  /\ MemoryPool.current_usage
       (MemoryPool.stats_
          (MemoryPool.allocate 3000 scenario_pool scenario_world_refilled).1.2)
     = wrap (MemoryPool.current_usage (MemoryPool.stats_ scenario_pool) + 3000).
Proof.
  pose proof (allocate_updates_statistics 3000 scenario_pool scenario_world_refilled)
    as H.
  cbv zeta in H.
  destruct H as (H1 & _ & H3 & _);
    [vm_compute; reflexivity | vm_compute; discriminate |].
  split; [exact H1 | exact H3].
Defined.

(** ** MemoryPool: counters that add up *)

Lemma wrap_idem a : wrap (wrap a) = wrap a.
Proof. unfold wrap. apply Zmod_mod. Qed.

Lemma wrap_add_wrap_r a b : wrap (a + wrap b) = wrap (a + b).
Proof. unfold wrap. apply Zplus_mod_idemp_r. Qed.

Lemma wrap_succ_congr a b : wrap a = wrap b -> wrap (a + 1) = wrap (b + 1).
Proof. intros H. rewrite <- (wrap_wrap_add a), H, wrap_wrap_add. reflexivity. Qed.

Lemma wrap3_l a b c : wrap (wrap a + b + c) = wrap (a + b + c).
Proof. rewrite <- Z.add_assoc, wrap_wrap_add. f_equal. lia. Qed.

Lemma wrap3_m a b c : wrap (a + wrap b + c) = wrap (a + b + c).
Proof.
  replace (a + wrap b + c) with (wrap b + (a + c)) by lia.
  rewrite wrap_wrap_add. f_equal. lia.
Qed.

Lemma wrap3_r a b c : wrap (a + b + wrap c) = wrap (a + b + c).
Proof. apply wrap_add_wrap_r. Qed.

(** [MemoryPool::deallocate] leaves the configuration and the
    allocation-side counters alone. *)
Lemma deallocate_allocation_fields p mp w mp' w' :
  MemoryPool.deallocate p mp w = Done mp' w' ->
  MemoryPool.config_ mp' = MemoryPool.config_ mp
  /\ allocation_fields (MemoryPool.stats_ mp') = allocation_fields (MemoryPool.stats_ mp).
Proof.
  assert (Hupd : forall sz hit m,
             MemoryPool.config_ (MemoryPool.update_statistics sz false hit m)
             = MemoryPool.config_ m
             /\ allocation_fields
                  (MemoryPool.stats_ (MemoryPool.update_statistics sz false hit m))
                = allocation_fields (MemoryPool.stats_ m)).
  { intros sz hit m. unfold MemoryPool.update_statistics.
    destruct (MemoryPool.enable_statistics (MemoryPool.config_ m)); split; reflexivity. }
  assert (Htier : forall tier mp1 w1,
             MemoryPool.release_to_tier tier p mp w = (mp1, w1) ->
             MemoryPool.config_ mp1 = MemoryPool.config_ mp
             /\ allocation_fields (MemoryPool.stats_ mp1)
                = allocation_fields (MemoryPool.stats_ mp)).
  { intros tier mp1 w1. unfold MemoryPool.release_to_tier.
    destruct (BlockPool.release p _ w) as [bp w2]. intros [= <- _].
    destruct (Hupd (MemoryPool.block_size_of tier (MemoryPool.config_ mp)) true
                (MemoryPool.set_pool tier bp mp)) as [H1 H2].
    rewrite H1, H2. destruct tier; split; reflexivity. }
  unfold MemoryPool.deallocate, MemoryPool.deallocate_route.
  destruct (p =? nullptr); [intros [= <- _]; split; reflexivity |].
  destruct (BlockPool.owns p (MemoryPool.small_pool_ mp)).
  { destruct (MemoryPool.release_to_tier MemoryPool.Small p mp w) as [mp1 w1] eqn:Hr.
    intros [= <- _]. eapply Htier, Hr. }
  destruct (BlockPool.owns p (MemoryPool.medium_pool_ mp)).
  { destruct (MemoryPool.release_to_tier MemoryPool.Medium p mp w) as [mp1 w1] eqn:Hr.
    intros [= <- _]. eapply Htier, Hr. }
  destruct (BlockPool.owns p (MemoryPool.large_pool_ mp)).
  { destruct (MemoryPool.release_to_tier MemoryPool.Large p mp w) as [mp1 w1] eqn:Hr.
    intros [= <- _]. eapply Htier, Hr. }
  destruct (MemoryPool.direct_allocations_ mp !! p) as [d |].
  - destruct (AlignedAllocator.deallocate p w) as [[] w1 | w1 |]; [| discriminate ..].
    intros [= <- _].
    destruct (Hupd (MemoryPool.size d) false
                (MemoryPool.set_direct (delete p (MemoryPool.direct_allocations_ mp)) mp))
      as [H1 H2].
    rewrite H1, H2. split; reflexivity.
  - intros [= <- _]. split; reflexivity.
Qed.

(** With statistics on, [allocate] keeps the counters adding up. *)
Lemma allocate_adds_up size_ mp w :
  MemoryPool.enable_statistics (MemoryPool.config_ mp) = true ->
  counters_add_up (MemoryPool.stats_ mp) ->
  MemoryPool.config_ (MemoryPool.allocate size_ mp w).1.2 = MemoryPool.config_ mp
  /\ counters_add_up (MemoryPool.stats_ (MemoryPool.allocate size_ mp w).1.2).
Proof.
  intros Hon (E1 & E2 & E3).
  destruct (Z.eq_dec size_ 0) as [-> | Hsize]; [split; [reflexivity | repeat split; assumption] |].
  pose proof (allocate_shape size_ mp w Hsize) as Hshape. cbv zeta in Hshape.
  assert (Hupd : forall hit m0,
             MemoryPool.config_ m0 = MemoryPool.config_ mp ->
             MemoryPool.config_ (MemoryPool.update_statistics size_ true hit m0)
             = MemoryPool.config_ mp
             /\ allocation_fields
                  (MemoryPool.stats_ (MemoryPool.update_statistics size_ true hit m0))
                = [wrap (MemoryPool.allocation_count (MemoryPool.stats_ m0) + 1);
                   (if hit then wrap (MemoryPool.cache_hits (MemoryPool.stats_ m0) + 1)
                    else MemoryPool.cache_hits (MemoryPool.stats_ m0));
                   (if hit then MemoryPool.cache_misses (MemoryPool.stats_ m0)
                    else wrap (MemoryPool.cache_misses (MemoryPool.stats_ m0) + 1));
                   MemoryPool.small_pool_hits (MemoryPool.stats_ m0);
                   MemoryPool.medium_pool_hits (MemoryPool.stats_ m0);
                   MemoryPool.large_pool_hits (MemoryPool.stats_ m0);
                   MemoryPool.direct_allocations (MemoryPool.stats_ m0)]).
  { intros hit m0 Hc. unfold MemoryPool.update_statistics.
    rewrite Hc, Hon. cbn [negb]. unfold MemoryPool.update_peak_usage.
    destruct (_ <? _); split; first [exact Hc | reflexivity]. }
  unfold counters_add_up.
  destruct (tier_grant size_ mp w) as [[tier q] |].
  - destruct Hshape as (_ & _ & m0 & -> & Hc & Hs & _).
    destruct (Hupd true m0 Hc) as [H1 H2]. split; [exact H1 |].
    unfold allocation_fields in H2. injection H2 as -> -> -> -> -> -> ->.
    rewrite Hs. destruct tier; cbn;
      rewrite ?wrap_idem, ?wrap3_l, ?wrap3_m, ?wrap3_r, ?wrap_wrap_add.
    + split; [| split; [exact E2 |]].
      * replace (MemoryPool.small_pool_hits (MemoryPool.stats_ mp) + 1
                 + MemoryPool.medium_pool_hits (MemoryPool.stats_ mp)
                 + MemoryPool.large_pool_hits (MemoryPool.stats_ mp))
          with (MemoryPool.small_pool_hits (MemoryPool.stats_ mp)
                + MemoryPool.medium_pool_hits (MemoryPool.stats_ mp)
                + MemoryPool.large_pool_hits (MemoryPool.stats_ mp) + 1) by lia.
        apply wrap_succ_congr, E1.
      * replace (MemoryPool.cache_hits (MemoryPool.stats_ mp) + 1
                 + MemoryPool.cache_misses (MemoryPool.stats_ mp))
          with (MemoryPool.cache_hits (MemoryPool.stats_ mp)
                + MemoryPool.cache_misses (MemoryPool.stats_ mp) + 1) by lia.
        apply wrap_succ_congr, E3.
    + split; [| split; [exact E2 |]].
      * replace (MemoryPool.small_pool_hits (MemoryPool.stats_ mp)
                 + (MemoryPool.medium_pool_hits (MemoryPool.stats_ mp) + 1)
                 + MemoryPool.large_pool_hits (MemoryPool.stats_ mp))
          with (MemoryPool.small_pool_hits (MemoryPool.stats_ mp)
                + MemoryPool.medium_pool_hits (MemoryPool.stats_ mp)
                + MemoryPool.large_pool_hits (MemoryPool.stats_ mp) + 1) by lia.
        apply wrap_succ_congr, E1.
      * replace (MemoryPool.cache_hits (MemoryPool.stats_ mp) + 1
                 + MemoryPool.cache_misses (MemoryPool.stats_ mp))
          with (MemoryPool.cache_hits (MemoryPool.stats_ mp)
                + MemoryPool.cache_misses (MemoryPool.stats_ mp) + 1) by lia.
        apply wrap_succ_congr, E3.
    + split; [| split; [exact E2 |]].
      * replace (MemoryPool.small_pool_hits (MemoryPool.stats_ mp)
                 + MemoryPool.medium_pool_hits (MemoryPool.stats_ mp)
                 + (MemoryPool.large_pool_hits (MemoryPool.stats_ mp) + 1))
          with (MemoryPool.small_pool_hits (MemoryPool.stats_ mp)
                + MemoryPool.medium_pool_hits (MemoryPool.stats_ mp)
                + MemoryPool.large_pool_hits (MemoryPool.stats_ mp) + 1) by lia.
        apply wrap_succ_congr, E1.
      * replace (MemoryPool.cache_hits (MemoryPool.stats_ mp) + 1
                 + MemoryPool.cache_misses (MemoryPool.stats_ mp))
          with (MemoryPool.cache_hits (MemoryPool.stats_ mp)
                + MemoryPool.cache_misses (MemoryPool.stats_ mp) + 1) by lia.
        apply wrap_succ_congr, E3.
  - destruct Hshape as [(_ & Hc & Hs & _) | (_ & m0 & -> & Hc & Hs & _)].
    + rewrite Hs. split; [exact Hc | repeat split; assumption].
    + destruct (Hupd false m0 Hc) as [H1 H2]. split; [exact H1 |].
      unfold allocation_fields in H2. injection H2 as -> -> -> -> -> -> ->.
      rewrite Hs. cbn. rewrite ?wrap_idem, ?wrap_add_wrap_r.
      split; [exact E1 |]. split; [apply wrap_succ_congr, E2 |].
      rewrite Z.add_assoc. apply wrap_succ_congr, E3.
Qed.

(** X26.  On a pool made with statistics on, after any sequence of
    [allocate] and [deallocate] calls that all returned, the counters add up
    (as [size_t] values): the three per-tier hit counters sum to
    [cache_hits], [direct_allocations] equals [cache_misses], and hits plus
    misses equal [allocation_count]. *)
Theorem pool_counters_add_up
    (config : MemoryPool.Config) (w : World) (ops : list PoolOp)
    (mp' : MemoryPool.t) (w' : World) :
  MemoryPool.enable_statistics config = true ->
  pool_run ops (MemoryPool.make config w).1 (MemoryPool.make config w).2 = Done mp' w' ->
  counters_add_up (MemoryPool.get_statistics mp').
Proof.
  intros Hon Hrun.
  assert (Hgen : forall ops mp w0,
             MemoryPool.enable_statistics (MemoryPool.config_ mp) = true ->
             counters_add_up (MemoryPool.stats_ mp) ->
             pool_run ops mp w0 = Done mp' w' ->
             counters_add_up (MemoryPool.stats_ mp')).
  { clear. induction ops as [| o ops IH]; intros mp w0 Hon Hinv Hrun.
    - cbn in Hrun. injection Hrun as <- _. exact Hinv.
    - destruct o as [size_ | p]; cbn in Hrun.
      + pose proof (allocate_adds_up size_ mp w0 Hon Hinv) as [Hc Hi].
        destruct (MemoryPool.allocate size_ mp w0) as [[q mp1] w1]. cbn in Hc, Hi.
        apply (IH mp1 w1); [rewrite Hc; exact Hon | exact Hi | exact Hrun].
      + destruct (MemoryPool.deallocate p mp w0) as [mp1 w1 | w1 |] eqn:Hd;
          [| discriminate ..].
        destruct (deallocate_allocation_fields p mp w0 mp1 w1 Hd) as [Hc Hf].
        apply (IH mp1 w1); [rewrite Hc; exact Hon | | exact Hrun].
        unfold counters_add_up, allocation_fields in *.
        injection Hf as -> -> -> -> -> -> ->. exact Hinv. }
  assert (Hstats : counters_add_up (MemoryPool.stats_ mp')).
  { apply (Hgen ops (MemoryPool.make config w).1 (MemoryPool.make config w).2);
      [| | exact Hrun].
    - unfold MemoryPool.make.
      destruct (BlockPool.make _ _ _ _ _) as [small w1].
      destruct (BlockPool.make _ _ _ _ w1) as [medium w2].
      destruct (BlockPool.make _ _ _ _ w2) as [large w3]. exact Hon.
    - unfold MemoryPool.make.
      destruct (BlockPool.make _ _ _ _ _) as [small w1].
      destruct (BlockPool.make _ _ _ _ w1) as [medium w2].
      destruct (BlockPool.make _ _ _ _ w2) as [large w3].
      repeat split. }
  exact Hstats.
Qed.

Lemma pool_counters_add_up_witness :
  exists mp' w',
    short_run = Done mp' w' /\ counters_add_up (MemoryPool.get_statistics mp').
Proof.
  destruct short_run as [mp' w' | w' |] eqn:Hrun.
  - exists mp', w'. split; [reflexivity |].
    apply (pool_counters_add_up scenario_config (World_init scenario_answers)
             [PoolAllocate 500; PoolDeallocate 65600] mp' w');
      [reflexivity | exact Hrun].
  - exfalso. vm_compute in Hrun. discriminate Hrun.
  - exfalso. vm_compute in Hrun. discriminate Hrun.
Defined.

(** ** MemoryPool: giving memory back *)

(** X27.  Giving back a pointer that a tier owns.  [deallocate] returns;
    the block goes through [release] of the first tier that owns the
    pointer, the other tiers and the direct-allocation map are untouched, and
    no memory is returned to the allocator (headers and allocator counters
    are as before).  With statistics on, current usage goes down by that
    tier's block size, whatever size had been requested and whether or not
    the block was leased: a second [deallocate] of the same pointer is
    debited again. *)
Theorem deallocate_tier_block
    (tier : MemoryPool.Tier) (p : Z) (mp : MemoryPool.t) (w : World) :
  p <> nullptr ->
  BlockPool.owns p (MemoryPool.pool_of tier mp) = true ->
  (forall tier', (tier_rank tier' < tier_rank tier)%nat ->
                 BlockPool.owns p (MemoryPool.pool_of tier' mp) = false) ->
  exists mp' w',
    MemoryPool.deallocate p mp w = Done mp' w'
    /\ MemoryPool.pool_of tier mp'
       = (BlockPool.release p (MemoryPool.pool_of tier mp) w).1
    /\ (forall tier', tier' <> tier ->
                      MemoryPool.pool_of tier' mp' = MemoryPool.pool_of tier' mp)
    /\ MemoryPool.direct_allocations_ mp' = MemoryPool.direct_allocations_ mp
    /\ heap w' = heap w /\ counters w' = counters w
    /\ (MemoryPool.enable_statistics (MemoryPool.config_ mp) = true ->
        MemoryPool.current_usage (MemoryPool.stats_ mp')
        = wrap (MemoryPool.current_usage (MemoryPool.stats_ mp)
                - MemoryPool.block_size_of tier (MemoryPool.config_ mp))
        /\ MemoryPool.total_deallocated (MemoryPool.stats_ mp')
           = wrap (MemoryPool.total_deallocated (MemoryPool.stats_ mp)
                   + MemoryPool.block_size_of tier (MemoryPool.config_ mp))
        /\ MemoryPool.deallocation_count (MemoryPool.stats_ mp')
           = wrap (MemoryPool.deallocation_count (MemoryPool.stats_ mp) + 1)).
Proof.
  intros Hp Hown Hbefore.
  assert (Hbranch :
            MemoryPool.deallocate p mp w
            = let '(mp1, w1) := MemoryPool.release_to_tier tier p mp w in
              Done mp1 (MemoryTracker.track_deallocation p w1)).
  { unfold MemoryPool.deallocate, MemoryPool.deallocate_route.
    destruct (Z.eqb_spec p nullptr); [done |].
    destruct tier; cbn [MemoryPool.pool_of] in Hown.
    - rewrite Hown. destruct (MemoryPool.release_to_tier _ p mp w). reflexivity.
    - pose proof (Hbefore MemoryPool.Small ltac:(cbn; lia)) as HS.
      cbn [MemoryPool.pool_of] in HS. rewrite HS, Hown.
      destruct (MemoryPool.release_to_tier _ p mp w). reflexivity.
    - pose proof (Hbefore MemoryPool.Small ltac:(cbn; lia)) as HS.
      pose proof (Hbefore MemoryPool.Medium ltac:(cbn; lia)) as HM.
      cbn [MemoryPool.pool_of] in HS, HM. rewrite HS, HM, Hown.
      destruct (MemoryPool.release_to_tier _ p mp w). reflexivity. }
  rewrite Hbranch. unfold MemoryPool.release_to_tier.
  pose proof (release_same_but_log p (MemoryPool.pool_of tier mp) w)
    as [(Hheap & Hcnt & _) _].
  destruct (BlockPool.release p (MemoryPool.pool_of tier mp) w) as [bp w1].
  cbn [fst snd] in *. do 2 eexists. split; [reflexivity |].
  unfold MemoryPool.update_statistics.
  destruct (MemoryPool.enable_statistics (MemoryPool.config_ mp)) eqn:Hen.
  - replace (MemoryPool.enable_statistics
               (MemoryPool.config_ (MemoryPool.set_pool tier bp mp)))
      with true by (destruct tier; symmetry; exact Hen).
    cbn [negb].
    split; [destruct tier; reflexivity |].
    split; [intros tier' Hne; destruct tier, tier'; first [reflexivity | done] |].
    split; [destruct tier; reflexivity |].
    split; [rewrite track_deallocation_heap; exact Hheap |].
    split; [rewrite track_deallocation_counters; exact Hcnt |].
    intros _. destruct tier; repeat split.
  - replace (MemoryPool.enable_statistics
               (MemoryPool.config_ (MemoryPool.set_pool tier bp mp)))
      with false by (destruct tier; symmetry; exact Hen).
    cbn [negb].
    split; [destruct tier; reflexivity |].
    split; [intros tier' Hne; destruct tier, tier'; first [reflexivity | done] |].
    split; [destruct tier; reflexivity |].
    split; [rewrite track_deallocation_heap; exact Hheap |].
    split; [rewrite track_deallocation_counters; exact Hcnt |].
    discriminate.
Qed.

Lemma deallocate_tier_block_witness :
  exists mp' w',
    MemoryPool.deallocate 65600 scenario_pool scenario_world = Done mp' w'
    /\ MemoryPool.current_usage (MemoryPool.stats_ mp')
       = wrap (MemoryPool.current_usage (MemoryPool.stats_ scenario_pool) - 1024).
Proof.
  destruct (deallocate_tier_block MemoryPool.Small 65600 scenario_pool scenario_world)
    as (mp' & w' & Hd & _ & _ & _ & _ & _ & Hstats).
  - unfold nullptr. lia.
  - vm_compute. reflexivity.
  - intros tier' Hlt. destruct tier'; cbn in Hlt; lia.
  - exists mp', w'. split; [exact Hd |].
    destruct Hstats as (Hcur & _); [reflexivity | exact Hcur].
Defined.

(** The world after a request that the direct path served. *)
Lemma allocate_direct_world size_ mp w :
  size_ <> 0 -> tier_grant size_ mp w = None ->
  (MemoryPool.allocate size_ mp w).1.1 <> nullptr ->
  exists w1 w2,
    AlignedAllocator.allocate size_ (MemoryPool.alignment (MemoryPool.config_ mp)) w1
    = ((MemoryPool.allocate size_ mp w).1.1, w2)
    /\ (MemoryPool.allocate size_ mp w).2
       = MemoryTracker.track_allocation (MemoryPool.allocate size_ mp w).1.1 size_
           (MemoryPool.alignment (MemoryPool.config_ mp)) "MemoryPool" w2.
Proof.
  intros Hsize. unfold tier_grant, MemoryPool.allocate, MemoryPool.allocate_from_tier.
  destruct (Z.eqb_spec size_ 0); [done |].
  assert (Hdirect : forall m1 w1,
             MemoryPool.config_ m1 = MemoryPool.config_ mp ->
             let r := (let '(p, m2, w2) := MemoryPool.allocate_direct size_ m1 w1 in
                       if p =? nullptr then (p, m2, w2)
                       else (p, MemoryPool.update_statistics size_ true false m2,
                             MemoryTracker.track_allocation p size_
                               (MemoryPool.alignment
                                  (MemoryPool.config_
                                     (MemoryPool.update_statistics size_ true false m2)))
                               "MemoryPool" w2)) in
             r.1.1 <> nullptr ->
             exists w1 w2,
               AlignedAllocator.allocate size_
                 (MemoryPool.alignment (MemoryPool.config_ mp)) w1 = (r.1.1, w2)
               /\ r.2 = MemoryTracker.track_allocation r.1.1 size_
                          (MemoryPool.alignment (MemoryPool.config_ mp)) "MemoryPool" w2).
  { intros m1 w1 Hc. cbv zeta. unfold MemoryPool.allocate_direct. rewrite Hc.
    destruct (AlignedAllocator.allocate _ _ w1) as [p2 w2] eqn:Ha.
    destruct (Z.eqb_spec p2 nullptr) as [-> | Hp2].
    - change (nullptr =? nullptr) with true. cbn. done.
    - destruct (Z.eqb_spec p2 nullptr); [done |]. cbn [fst snd]. intros _.
      exists w1, w2. split; [exact Ha |].
      unfold MemoryPool.update_statistics.
      destruct (negb _); cbn; rewrite Hc; reflexivity. }
  destruct (MemoryPool.select_pool (MemoryPool.config_ mp) size_) as [tier |].
  - destruct (BlockPool.acquire (MemoryPool.pool_of tier mp) w) as [[q bp] w1].
    cbn [fst snd].
    destruct (Z.eqb_spec q nullptr) as [-> | Hq]; [| discriminate].
    intros _. cbn [negb]. change (nullptr =? nullptr) with true. cbv iota.
    apply Hdirect. destruct tier; reflexivity.
  - intros _. cbn [negb]. change (nullptr =? nullptr) with true. cbv iota.
    apply Hdirect. reflexivity.
Qed.

(** X28.  Round trip of a direct allocation.  When a request falls through
    to the direct path and gets a pointer that no tier owns and that was not
    in the direct-allocation map, [deallocate] of that pointer returns, the
    map is as it was before the request and so is the current usage: this
    path is credited with the size it was charged with. *)
Theorem direct_allocation_roundtrip (size_ : Z) (mp : MemoryPool.t) (w : World) :
  size_ <> 0 ->
  tier_grant size_ mp w = None ->
  (MemoryPool.allocate size_ mp w).1.1 <> nullptr ->
  (forall tier,
      BlockPool.owns (MemoryPool.allocate size_ mp w).1.1
        (MemoryPool.pool_of tier (MemoryPool.allocate size_ mp w).1.2) = false) ->
  MemoryPool.direct_allocations_ mp !! (MemoryPool.allocate size_ mp w).1.1 = None ->
  0 <= MemoryPool.current_usage (MemoryPool.stats_ mp) < word_modulus ->
  exists mp2 w2,
    MemoryPool.deallocate (MemoryPool.allocate size_ mp w).1.1
      (MemoryPool.allocate size_ mp w).1.2 (MemoryPool.allocate size_ mp w).2
    = Done mp2 w2
    /\ MemoryPool.direct_allocations_ mp2 = MemoryPool.direct_allocations_ mp
    /\ MemoryPool.current_usage (MemoryPool.stats_ mp2)
       = MemoryPool.current_usage (MemoryPool.stats_ mp).
Proof.
  intros Hsize Hgrant Hnn Howns Hfresh Hcur.
  destruct (allocate_direct_world size_ mp w Hsize Hgrant Hnn)
    as (w1 & w2 & Halloc & Hworld).
  destruct (allocate_nonnull_effects _ _ _ _ _ Halloc Hnn)
    as ((raw & A' & Hheader) & _).
  pose proof (allocate_shape size_ mp w Hsize) as Hshape. cbv zeta in Hshape.
  rewrite Hgrant in Hshape.
  destruct Hshape as [(Hnull & _) | (_ & m0 & Hpool & Hc & Hs & Hd)]; [done |].
  set (p := (MemoryPool.allocate size_ mp w).1.1) in *.
  assert (Hpool_d : MemoryPool.direct_allocations_ (MemoryPool.allocate size_ mp w).1.2
                    = <[p := {| MemoryPool.ptr := p; MemoryPool.size := size_ |}]>
                        (MemoryPool.direct_allocations_ mp)).
  { rewrite Hpool. unfold MemoryPool.update_statistics.
    destruct (negb _); cbn; exact Hd. }
  assert (Hpool_c : MemoryPool.config_ (MemoryPool.allocate size_ mp w).1.2
                    = MemoryPool.config_ mp).
  { rewrite Hpool. unfold MemoryPool.update_statistics.
    destruct (negb _); cbn; exact Hc. }
  assert (Hpool_u : MemoryPool.current_usage
                      (MemoryPool.stats_ (MemoryPool.allocate size_ mp w).1.2)
                    = if MemoryPool.enable_statistics (MemoryPool.config_ mp)
                      then wrap (MemoryPool.current_usage (MemoryPool.stats_ mp) + size_)
                      else MemoryPool.current_usage (MemoryPool.stats_ mp)).
  { rewrite Hpool. unfold MemoryPool.update_statistics. rewrite Hc.
    destruct (MemoryPool.enable_statistics (MemoryPool.config_ mp)); cbn [negb].
    - unfold MemoryPool.update_peak_usage. cbn. rewrite Hs.
      destruct (_ <? _); reflexivity.
    - rewrite Hs. reflexivity. }
  unfold MemoryPool.deallocate, MemoryPool.deallocate_route.
  destruct (Z.eqb_spec p nullptr); [done |].
  pose proof (Howns MemoryPool.Small) as HS.
  pose proof (Howns MemoryPool.Medium) as HM.
  pose proof (Howns MemoryPool.Large) as HL.
  cbn [MemoryPool.pool_of] in HS, HM, HL. rewrite HS, HM, HL.
  rewrite Hpool_d, lookup_insert_eq. cbn [MemoryPool.size].
  unfold AlignedAllocator.deallocate.
  destruct (Z.eqb_spec p nullptr); [done |].
  rewrite Hworld, track_allocation_heap, Hheader. cbn [magic].
  change (MAGIC_NUMBER =? MAGIC_NUMBER) with true. cbn [negb].
  do 2 eexists. split; [reflexivity |].
  unfold MemoryPool.update_statistics. cbn [MemoryPool.config_ MemoryPool.set_direct].
  rewrite Hpool_c.
  destruct (MemoryPool.enable_statistics (MemoryPool.config_ mp)); cbn.
  - split; [apply delete_insert_id, Hfresh |].
    rewrite Hpool_u. apply wrap_add_sub, Hcur.
  - split; [apply delete_insert_id, Hfresh |]. exact Hpool_u.
Qed.

Lemma direct_allocation_roundtrip_witness :
  exists mp2 w2,
    MemoryPool.deallocate oversized_request.1.1 oversized_request.1.2 oversized_request.2
    = Done mp2 w2
    /\ MemoryPool.direct_allocations_ mp2 = MemoryPool.direct_allocations_ scenario_pool
    /\ MemoryPool.current_usage (MemoryPool.stats_ mp2)
       = MemoryPool.current_usage (MemoryPool.stats_ scenario_pool).
Proof.
  apply (direct_allocation_roundtrip 3000 scenario_pool scenario_world_refilled).
  - lia.
  - vm_compute. reflexivity.
  - vm_compute. discriminate.
  - intros []; vm_compute; reflexivity.
  - vm_compute. reflexivity.
  - vm_compute. split; [discriminate | reflexivity].
Defined.

(** ** MemoryPool: the tiers stay sound *)

Lemma set_pool_sound tier bp mp :
  tiers_sound mp -> free_list_sound bp -> tiers_sound (MemoryPool.set_pool tier bp mp).
Proof.
  intros Hs Hbp tier'.
  destruct tier, tier'; cbn;
    first [exact Hbp | exact (Hs MemoryPool.Small)
          | exact (Hs MemoryPool.Medium) | exact (Hs MemoryPool.Large)].
Qed.

Lemma tiers_sound_by_pools mp mp' :
  (forall tier, MemoryPool.pool_of tier mp' = MemoryPool.pool_of tier mp) ->
  tiers_sound mp -> tiers_sound mp'.
Proof. intros Heq Hs tier. rewrite Heq. apply Hs. Qed.

Lemma update_statistics_pools sz a h m tier :
  MemoryPool.pool_of tier (MemoryPool.update_statistics sz a h m)
  = MemoryPool.pool_of tier m.
Proof.
  unfold MemoryPool.update_statistics.
  destruct (negb _); [reflexivity |]. destruct a, tier; reflexivity.
Qed.

Lemma allocate_tiers_sound size_ mp w :
  tiers_sound mp -> tiers_sound (MemoryPool.allocate size_ mp w).1.2.
Proof.
  intros Hs. unfold MemoryPool.allocate.
  destruct (size_ =? 0); [exact Hs |].
  assert (H1 : tiers_sound (MemoryPool.allocate_from_tier size_ mp w).1.2).
  { unfold MemoryPool.allocate_from_tier.
    destruct (MemoryPool.select_pool _ _) as [tier |]; [| exact Hs].
    pose proof (sound_acquire (MemoryPool.pool_of tier mp) w (Hs tier)) as Ha.
    destruct (BlockPool.acquire (MemoryPool.pool_of tier mp) w) as [[q bp] w1].
    cbn [fst snd] in *.
    pose proof (set_pool_sound tier bp mp Hs Ha) as Hset.
    destruct (q =? nullptr); [exact Hset |].
    eapply tiers_sound_by_pools; [| exact Hset]. intros []; reflexivity. }
  destruct (MemoryPool.allocate_from_tier size_ mp w) as [[p mp1] w1].
  cbn [fst snd] in H1.
  assert (H2 : tiers_sound
                 (if p =? nullptr then MemoryPool.allocate_direct size_ mp1 w1
                  else (p, mp1, w1)).1.2).
  { destruct (p =? nullptr); [| exact H1].
    unfold MemoryPool.allocate_direct.
    destruct (AlignedAllocator.allocate _ _ w1) as [p2 w2].
    destruct (p2 =? nullptr); [exact H1 |].
    eapply tiers_sound_by_pools; [| exact H1]. intros []; reflexivity. }
  destruct (if p =? nullptr then MemoryPool.allocate_direct size_ mp1 w1
            else (p, mp1, w1)) as [[p3 mp3] w3].
  cbn [fst snd] in H2.
  destruct (p3 =? nullptr); [exact H2 |]. cbn [fst snd].
  eapply tiers_sound_by_pools; [| exact H2].
  intros tier. apply update_statistics_pools.
Qed.

Lemma deallocate_tiers_sound p mp w mp' w' :
  tiers_sound mp -> MemoryPool.deallocate p mp w = Done mp' w' -> tiers_sound mp'.
Proof.
  intros Hs.
  assert (Htier : forall tier mp1 w1,
             MemoryPool.release_to_tier tier p mp w = (mp1, w1) -> tiers_sound mp1).
  { intros tier mp1 w1. unfold MemoryPool.release_to_tier.
    pose proof (sound_release p (MemoryPool.pool_of tier mp) w (Hs tier)) as Hr.
    destruct (BlockPool.release p _ w) as [bp w2]. intros [= <- _].
    eapply tiers_sound_by_pools; [intros t; apply update_statistics_pools |].
    apply set_pool_sound; [exact Hs | exact Hr]. }
  unfold MemoryPool.deallocate, MemoryPool.deallocate_route.
  destruct (p =? nullptr); [intros [= <- _]; exact Hs |].
  destruct (BlockPool.owns p (MemoryPool.small_pool_ mp)).
  { destruct (MemoryPool.release_to_tier MemoryPool.Small p mp w) as [mp1 w1] eqn:Hr.
    intros [= <- _]. eapply Htier, Hr. }
  destruct (BlockPool.owns p (MemoryPool.medium_pool_ mp)).
  { destruct (MemoryPool.release_to_tier MemoryPool.Medium p mp w) as [mp1 w1] eqn:Hr.
    intros [= <- _]. eapply Htier, Hr. }
  destruct (BlockPool.owns p (MemoryPool.large_pool_ mp)).
  { destruct (MemoryPool.release_to_tier MemoryPool.Large p mp w) as [mp1 w1] eqn:Hr.
    intros [= <- _]. eapply Htier, Hr. }
  destruct (MemoryPool.direct_allocations_ mp !! p) as [d |].
  - destruct (AlignedAllocator.deallocate p w) as [[] w1 | w1 |]; [| discriminate ..].
    intros [= <- _].
    eapply tiers_sound_by_pools; [intros t; apply update_statistics_pools |].
    eapply tiers_sound_by_pools; [| exact Hs]. intros []; reflexivity.
  - intros [= <- _]. exact Hs.
Qed.

(** X29.  In a [MemoryPool], from its constructor on and through every
    sequence of [allocate] and [deallocate] calls that returned, each of
    the three tiers has free-list size plus leased blocks equal to its number
    of blocks, whatever pointers were passed to [deallocate]. *)
Theorem pool_tiers_counts_agree
    (config : MemoryPool.Config) (w : World) (ops : list PoolOp)
    (mp' : MemoryPool.t) (w' : World) (tier : MemoryPool.Tier) :
  pool_run ops (MemoryPool.make config w).1 (MemoryPool.make config w).2 = Done mp' w' ->
  (BlockPool.get_free_count (MemoryPool.pool_of tier mp')
   + BlockPool.in_use_count (MemoryPool.pool_of tier mp')
   = BlockPool.get_total_count (MemoryPool.pool_of tier mp'))%nat.
Proof.
  intros Hrun.
  assert (Hgen : forall ops mp w0,
             tiers_sound mp -> pool_run ops mp w0 = Done mp' w' -> tiers_sound mp').
  { clear. induction ops as [| o ops IH]; intros mp w0 Hs Hrun.
    - cbn in Hrun. injection Hrun as <- _. exact Hs.
    - destruct o as [size_ | p]; cbn in Hrun.
      + pose proof (allocate_tiers_sound size_ mp w0 Hs) as Ha.
        destruct (MemoryPool.allocate size_ mp w0) as [[q mp1] w1].
        apply (IH mp1 w1 Ha Hrun).
      + destruct (MemoryPool.deallocate p mp w0) as [mp1 w1 | w1 |] eqn:Hd;
          [| discriminate ..].
        apply (IH mp1 w1); [| exact Hrun].
        eapply deallocate_tiers_sound; [exact Hs | exact Hd]. }
  assert (Hmade : tiers_sound (MemoryPool.make config w).1).
  { unfold MemoryPool.make.
    pose proof (sound_make (MemoryPool.small_block_size config)
                  (MemoryPool.small_pool_count config) (MemoryPool.alignment config)
                  (MemoryPool.allow_expansion config)
                  (emit INFO MemoryPool.LOG_TAG PoolInitializing w)) as H1.
    destruct (BlockPool.make _ _ _ _ _) as [small w1].
    pose proof (sound_make (MemoryPool.medium_block_size config)
                  (MemoryPool.medium_pool_count config) (MemoryPool.alignment config)
                  (MemoryPool.allow_expansion config) w1) as H2.
    destruct (BlockPool.make _ _ _ _ w1) as [medium w2].
    pose proof (sound_make (MemoryPool.large_block_size config)
                  (MemoryPool.large_pool_count config) (MemoryPool.alignment config)
                  (MemoryPool.allow_expansion config) w2) as H3.
    destruct (BlockPool.make _ _ _ _ w2) as [large w3].
    intros []; cbn; assumption. }
  apply (Hgen ops _ _ Hmade Hrun tier).
Qed.

Lemma pool_tiers_counts_agree_witness :
  exists mp' w',
    short_run = Done mp' w'
    /\ (BlockPool.get_free_count (MemoryPool.pool_of MemoryPool.Small mp')
        + BlockPool.in_use_count (MemoryPool.pool_of MemoryPool.Small mp')
        = BlockPool.get_total_count (MemoryPool.pool_of MemoryPool.Small mp'))%nat.
Proof.
  destruct short_run as [mp' w' | w' |] eqn:Hrun.
  - exists mp', w'. split; [reflexivity |].
    apply (pool_tiers_counts_agree scenario_config (World_init scenario_answers)
             [PoolAllocate 500; PoolDeallocate 65600] mp' w' MemoryPool.Small).
    exact Hrun.
  - exfalso. vm_compute in Hrun. discriminate Hrun.
  - exfalso. vm_compute in Hrun. discriminate Hrun.
Defined.

(** ** AlignedAllocator: [reset_statistics] *)

(** X30.  [reset_statistics] zeroes the four counters whatever is
    outstanding.  The deallocation of an allocation that was live at that
    point then returns as usual, and the counters wrap: the total of
    allocated bytes becomes [2^64] minus the size (for a size between 1 and
    [2^64 - 1]) and the number of live allocations [2^64 - 1]. *)
Theorem reset_statistics_then_deallocate (p : Z) (w : World) (h : AllocationHeader) :
  p <> nullptr ->
  headers (heap w) !! wrap (p - header_size) = Some h ->
  magic h = MAGIC_NUMBER ->
  0 < size h < word_modulus ->
  counters (AlignedAllocator.reset_statistics w)
  = {| total_allocated_ := 0; allocation_count_ := 0;
       peak_allocated_ := 0; total_deallocated_ := 0 |}
  /\ exists w',
       AlignedAllocator.deallocate p (AlignedAllocator.reset_statistics w) = Done tt w'
       /\ total_allocated_ (counters w') = word_modulus - size h
       /\ allocation_count_ (counters w') = word_modulus - 1
       /\ total_deallocated_ (counters w') = size h
       /\ peak_allocated_ (counters w') = 0.
Proof.
  intros Hp Hh Hm Hsize. split; [reflexivity |].
  unfold AlignedAllocator.deallocate.
  destruct (Z.eqb_spec p nullptr); [done |].
  cbn [AlignedAllocator.reset_statistics heap emit set_log set_counters].
  rewrite Hh, Hm. change (MAGIC_NUMBER =? MAGIC_NUMBER) with true. cbn [negb].
  eexists. split; [reflexivity |].
  cbn. rewrite track_deallocation_counters. cbn.
  unfold wrap. split; [| split; [| split; [| reflexivity]]].
  - symmetry. apply (Zmod_unique _ _ (-1)); lia.
  - reflexivity.
  - apply Z.mod_small. lia.
Qed.

Lemma reset_statistics_then_deallocate_witness :
  exists w',
    AlignedAllocator.deallocate 65600 (AlignedAllocator.reset_statistics one_allocation)
    = Done tt w'
    /\ total_allocated_ (counters w') = word_modulus - 100
    /\ allocation_count_ (counters w') = word_modulus - 1.
Proof.
  destruct (reset_statistics_then_deallocate 65600 one_allocation
              {| raw_ptr := 65536; size := 100; alignment := 64;
                 magic := MAGIC_NUMBER |})
    as (_ & w' & Hd & Ht & Hc & _).
  - unfold nullptr. lia.
  - vm_compute. reflexivity.
  - reflexivity.
  - cbn. unfold word_modulus. lia.
  - exists w'. split; [exact Hd |]. split; [exact Ht | exact Hc].
Defined.

(** ** Instances of the properties stated without a premise of their own *)

Lemma detect_leaks_exact_witness :
  NoDup (MemoryTracker.detect_leaks tracked_once).1
  /\ log (MemoryTracker.detect_leaks tracked_once).2
     = {| line_level := WARN; line_tag := MemoryTracker.LOG_TAG;
          line_msg := DetectedLeaks
                        (Z.of_nat (stdpp.base.size (allocations_ (tracker tracked_once)))) |}
         :: log tracked_once.
Proof.
  destruct (detect_leaks_exact tracked_once) as (H1 & _ & _ & _ & _ & H6).
  split; [exact H1 |]. apply H6.
  intros Hempty.
  assert (Hl : allocations_ (tracker tracked_once) !! 4096 = None)
    by (rewrite Hempty; apply lookup_empty).
  vm_compute in Hl. discriminate Hl.
Defined.

Lemma blocks_only_grow_witness :
  BlockPool.owns 65600
    (BlockPool.run [BlockPool.Acquire; BlockPool.Release 65600; BlockPool.ExpandPool]
       two_block_pool.1 two_block_pool.2).1 = true.
Proof.
  apply (blocks_only_grow
           [BlockPool.Acquire; BlockPool.Release 65600; BlockPool.ExpandPool]
           two_block_pool.1 two_block_pool.2).
  vm_compute. reflexivity.
Defined.
